(** * Power Watchdog Service: a shallow embedding and its properties

    The development follows [OS/01_SCRIPTS/power_watchdog_service.py],
    and, for what installs the service and shows its log, the parts of
    [power_watchdog_ctl.py] and [dashboard_server.py] that do so.
    Python values are embedded as follows.

    - [str] is [string]; a character stands for the code point of the same
      number, so the strings covered are those over U+0000..U+00FF.
      [lower], [strip] and [splitlines] are written out for that range.
    - [bytes] is [string] as well, a character standing for one byte.
    - values read from JSON files are terms of [json]; dictionaries keep
      their insertion order as association lists.
    - [set] is [gset string]; the files the service owns are kept in a
      [gmap] from path to contents.
    - an exception is a value of [exn]; code that can raise returns a
      [result]; code with effects is a function on the machine state that
      returns a [result] together with the state reached, so that the
      effects performed before a [raise] survive it, as in Python.

    What the interpreter or the standard library decides (the text of
    [repr], the XML parser, regular-expression searches, the network, the
    clock, the faults of the file system) is taken as a parameter. *)

From Stdlib Require Import String Ascii List ZArith Lia Bool.
From stdpp Require Import base option gmap strings list pretty.

Set Warnings "-register-all,-clear-no-such-hyp".

Local Open Scope string_scope.
Local Open Scope Z_scope.

(* ================================================================= *)
(** ** Python strings over code points below 256 *)

Module PyStr.

Definition code (c : ascii) : N := N_of_ascii c.

(** [str.lower] on one code point: A-Z, and U+00C0..U+00DE except the
    multiplication sign U+00D7, move up by 32. *)
Definition lower_char (c : ascii) : ascii :=
  let n := code c in
  if ((65 <=? n) && (n <=? 90))%N
     || ((192 <=? n) && (n <=? 222) && negb (n =? 215))%N
  then ascii_of_N (n + 32) else c.

Fixpoint lower (s : string) : string :=
  match s with
  | EmptyString => EmptyString
  | String c r => String (lower_char c) (lower r)
  end.

(** [bytes.lower]: ASCII letters only. *)
Definition lower_byte (c : ascii) : ascii :=
  let n := code c in
  if ((65 <=? n) && (n <=? 90))%N then ascii_of_N (n + 32) else c.

Fixpoint lower_bytes (s : string) : string :=
  match s with
  | EmptyString => EmptyString
  | String c r => String (lower_byte c) (lower_bytes r)
  end.

(** [str.isspace] on one code point. *)
Definition isspace (c : ascii) : bool :=
  let n := code c in
  (((9 <=? n) && (n <=? 13)) || ((28 <=? n) && (n <=? 32))
   || (n =? 133) || (n =? 160))%N.

(** The whitespace [bytes.lstrip] removes. *)
Definition isspace_byte (c : ascii) : bool :=
  let n := code c in
  (((9 <=? n) && (n <=? 13)) || (n =? 32))%N.

Fixpoint lstrip_with (sp : ascii -> bool) (s : string) : string :=
  match s with
  | EmptyString => EmptyString
  | String c r => if sp c then lstrip_with sp r else s
  end.

(** Drops the trailing characters that satisfy [sp]. *)
Fixpoint rstrip_with (sp : ascii -> bool) (s : string) : string :=
  match s with
  | EmptyString => EmptyString
  | String c r =>
      match rstrip_with sp r with
      | EmptyString => if sp c then EmptyString else String c EmptyString
      | r' => String c r'
      end
  end.

Definition strip (s : string) : string :=
  rstrip_with isspace (lstrip_with isspace s).

Definition nonempty (s : string) : bool :=
  match s with EmptyString => false | _ => true end.

(** [s.startswith(p)]. *)
Fixpoint startswith (s p : string) {struct p} : bool :=
  match p with
  | EmptyString => true
  | String a p' =>
      match s with
      | EmptyString => false
      | String b s' => Ascii.eqb a b && startswith s' p'
      end
  end.

(** [sub in s]. *)
Fixpoint contains (s sub : string) : bool :=
  startswith s sub
  || match s with
     | EmptyString => false
     | String _ r => contains r sub
     end.

Fixpoint endswith_from (s p : string) : bool :=
  String.eqb s p
  || match s with
     | EmptyString => false
     | String _ r => endswith_from r p
     end.

Definition endswith (s p : string) : bool := endswith_from s p.

(** [s[:n]]. *)
Fixpoint take (n : nat) (s : string) : string :=
  match n, s with
  | O, _ => EmptyString
  | S _, EmptyString => EmptyString
  | S m, String c r => String c (take m r)
  end.

(** [s.replace(a, b)] for single characters. *)
Fixpoint replace_char (a b : ascii) (s : string) : string :=
  match s with
  | EmptyString => EmptyString
  | String c r =>
      String (if Ascii.eqb c a then b else c) (replace_char a b r)
  end.

(** The line boundaries of [str.splitlines] below U+0100, the pair CR LF
    apart: LF, VT, FF, CR, FS, GS, RS and NEL. *)
Definition is_linebreak (c : ascii) : bool :=
  let n := code c in
  (((10 <=? n) && (n <=? 13)) || ((28 <=? n) && (n <=? 30)) || (n =? 133))%N.

Definition is_cr (c : ascii) : bool := (code c =? 13)%N.
Definition is_lf (c : ascii) : bool := (code c =? 10)%N.

(** [str.splitlines]: [cur] is the line being read. A text that ends in a
    boundary yields no empty last line. *)
Fixpoint splitlines_from (cur : string) (s : string) : list string :=
  match s with
  | EmptyString => if nonempty cur then [cur] else []
  | String c r =>
      if is_cr c then
        match r with
        | String c2 r2 =>
            if is_lf c2 then cur :: splitlines_from EmptyString r2
            else cur :: splitlines_from EmptyString r
        | EmptyString => [cur]
        end
      else if is_linebreak c then cur :: splitlines_from EmptyString r
      else splitlines_from (cur +:+ String c EmptyString) r
  end.

Definition splitlines (s : string) : list string :=
  splitlines_from EmptyString s.

(** No character of [s] is a line boundary. *)
Fixpoint line_free (s : string) : bool :=
  match s with
  | EmptyString => true
  | String c r => negb (is_linebreak c) && line_free r
  end.

(** [s] is empty or ends in a line feed. *)
Fixpoint closed_text (s : string) : bool :=
  match s with
  | EmptyString => true
  | String c EmptyString => is_lf c
  | String _ r => closed_text r
  end.

Definition is_digit (c : ascii) : bool :=
  let n := code c in ((48 <=? n) && (n <=? 57))%N.

Definition digit_val (c : ascii) : Z := Z.of_N (code c) - 48.

(** The digits of a base-10 literal of [int]: single underscores are
    allowed between digits only. [after_digit] tells whether the previous
    character was a digit. *)
Fixpoint int_digits (acc : Z) (after_digit : bool) (s : string) : option Z :=
  match s with
  | EmptyString => if after_digit then Some acc else None
  | String c r =>
      if is_digit c then int_digits (10 * acc + digit_val c) true r
      else if Ascii.eqb c "_"%char then
        if after_digit then int_digits acc false r else None
      else None
  end.

(** [int(s)] for a string: surrounding whitespace, an optional sign, then
    the digits. [None] stands for [ValueError]. The interpreter's limit
    on the number of digits of such a literal is not modelled. *)
Definition int_of_str (s : string) : option Z :=
  match strip s with
  | String c r =>
      if Ascii.eqb c "-"%char then Z.opp <$> int_digits 0 false r
      else if Ascii.eqb c "+"%char then int_digits 0 false r
      else int_digits 0 false (String c r)
  | EmptyString => None
  end.

End PyStr.

(* ================================================================= *)
(** ** Exceptions and results *)

Inductive exn_class :=
  | ValueError | TypeError | AttributeError | OverflowError
  | OSError | URLError.

(** An exception; [exn_msg] is what [str(exc)] gives. All of them derive
    from [Exception]: the signals that end the process ([KeyboardInterrupt],
    [SystemExit]) are outside the model. *)
Record exn := Exn { exn_cls : exn_class; exn_msg : string }.

Inductive result (A : Type) :=
  | Ok (a : A)
  | Raise (e : exn).
Arguments Ok {A} a.
Arguments Raise {A} e.

#[global] Instance result_ret : MRet result := fun _ a => Ok a.
#[global] Instance result_bind : MBind result := fun _ _ f r =>
  match r with Ok a => f a | Raise e => Raise e end.
#[global] Instance result_fmap : FMap result := fun _ _ f r =>
  match r with Ok a => Ok (f a) | Raise e => Raise e end.

(* ================================================================= *)
(** ** JSON values and the dynamic operations applied to them *)

(** A Python [float]: a finite one is the rational [num/den]. *)
Inductive pyfloat :=
  | FFinite (num : Z) (den : positive)
  | FInf (negative : bool)
  | FNan.

Inductive json :=
  | JNull
  | JBool (b : bool)
  | JInt (z : Z)
  | JFloat (f : pyfloat)
  | JStr (s : string)
  | JList (l : list json)
  | JDict (d : list (string * json)).

(** A [dict] with string keys, in insertion order. *)
Abbreviation pydict := (list (string * json)).

Fixpoint dict_get (d : pydict) (k : string) : option json :=
  match d with
  | [] => None
  | (k', v) :: r => if String.eqb k' k then Some v else dict_get r k
  end.

(** [d[k] = v]: the value is replaced where the key is, or the pair is
    added at the end. *)
Fixpoint dict_set (d : pydict) (k : string) (v : json) : pydict :=
  match d with
  | [] => [(k, v)]
  | (k', v') :: r =>
      if String.eqb k' k then (k', v) :: r else (k', v') :: dict_set r k v
  end.

(** [d.update(new)]. *)
Definition dict_update (d new : pydict) : pydict :=
  fold_left (fun acc kv => dict_set acc kv.1 kv.2) new d.

(** [d.get(k)] and [d.get(k, dflt)]. *)
Definition py_get (d : pydict) (k : string) : json :=
  default JNull (dict_get d k).
Definition py_get_default (d : pydict) (k : string) (dflt : json) : json :=
  default dflt (dict_get d k).

(** [bool(x)]. *)
Definition truthy (j : json) : bool :=
  match j with
  | JNull => false
  | JBool b => b
  | JInt z => negb (z =? 0)
  | JFloat (FFinite n _) => negb (n =? 0)
  | JFloat _ => true
  | JStr s => PyStr.nonempty s
  | JList l => match l with [] => false | _ => true end
  | JDict d => match d with [] => false | _ => true end
  end.

(** [x or y]. *)
Definition py_or (x y : json) : json := if truthy x then x else y.

Definition type_name (j : json) : string :=
  match j with
  | JNull => "NoneType" | JBool _ => "bool" | JInt _ => "int"
  | JFloat _ => "float" | JStr _ => "str" | JList _ => "list"
  | JDict _ => "dict"
  end.

Definition no_attribute (j : json) (attr : string) : exn :=
  Exn AttributeError
    ("'" +:+ type_name j +:+ "' object has no attribute '" +:+ attr +:+ "'").

(** [x.get(k, dflt)] on a value that need not be a [dict]. *)
Definition obj_get (x : json) (k : string) (dflt : json) : result json :=
  match x with
  | JDict d => Ok (py_get_default d k dflt)
  | _ => Raise (no_attribute x "get")
  end.

(** The elements a [for] loop or a comprehension draws from [x]: those
    of a list, the characters of a string, the keys of a dictionary. *)
Fixpoint chars (s : string) : list json :=
  match s with
  | EmptyString => []
  | String c r => JStr (String c EmptyString) :: chars r
  end.

Definition py_iter (x : json) : result (list json) :=
  match x with
  | JList l => Ok l
  | JStr s => Ok (chars s)
  | JDict d => Ok (map (fun kv => JStr kv.1) d)
  | _ => Raise (Exn TypeError
                  ("'" +:+ type_name x +:+ "' object is not iterable"))
  end.

(* ================================================================= *)
(** ** Element trees and feed entries *)

(** An [xml.etree.ElementTree.Element]: tag (with its namespace in braces
    in front, if any), attributes, the text before the first child, and
    the children in document order. *)
Inductive Element :=
  | Elem (tag : string) (attrib : list (string * string))
         (text : option string) (children : list Element).

Definition el_tag (e : Element) : string :=
  match e with Elem t _ _ _ => t end.
Definition el_attrib (e : Element) : list (string * string) :=
  match e with Elem _ a _ _ => a end.
Definition el_children (e : Element) : list Element :=
  match e with Elem _ _ _ c => c end.

Record Entry := {
  source : string;
  title : string;
  link : string;
  uid : string;
  published : option string;
}.

(** The pieces of the standard library and of the interpreter the program
    calls and the model does not define. *)
Record Lib := {
  (** [repr(x)]; [str(x)] of a value that is not a string is its [repr]. *)
  py_repr : json -> string;
  (** [html.unescape]. *)
  html_unescape : string -> string;
  (** [html.entities.name2codepoint.get]. *)
  name2codepoint : string -> option Z;
  (** [bytes.decode] as UTF-8, undecodable bytes replaced. *)
  utf8_decode : string -> string;
  (** [ET.fromstring] on the encoded text; [None] when it raises. *)
  xml_fromstring : string -> option Element;
  (** The bodies of the [<item>] blocks found by [re.findall] in the
      fallback of [parse_feed]. *)
  re_item_blocks : string -> list string;
  (** [re_tag_body tag raw]: group 1 of the [re.search] for the element
      [tag] in the block [raw], for [title], [link], [guid] and
      [pubDate]. *)
  re_tag_body : string -> string -> option string;
  (** The pairs (href, label) found by the anchor pattern of
      [parse_html_links]. *)
  re_anchors : string -> list (string * string);
  (** [urllib.parse.urljoin(base, url)]. *)
  urljoin : string -> string -> result string;
}.

Section Dynamic.

Variable lib : Lib.

(** [str(x)]. *)
Definition py_str (x : json) : string :=
  match x with
  | JStr s => s
  | _ => py_repr lib x
  end.

(** [int(x)]. *)
Definition py_int (x : json) : result Z :=
  match x with
  | JInt z => Ok z
  | JBool b => Ok (if b then 1 else 0)
  | JFloat (FFinite n d) => Ok (Z.quot n (Z.pos d))
  | JFloat (FInf _) =>
      Raise (Exn OverflowError "cannot convert float infinity to integer")
  | JFloat FNan =>
      Raise (Exn ValueError "cannot convert float NaN to integer")
  | JStr s =>
      match PyStr.int_of_str s with
      | Some z => Ok z
      | None =>
          Raise (Exn ValueError
                   ("invalid literal for int() with base 10: "
                    +:+ py_repr lib x))
      end
  | _ =>
      Raise (Exn TypeError
               ("int() argument must be a string, a bytes-like object or "
                +:+ "a real number, not '" +:+ type_name x +:+ "'"))
  end.

(* ================================================================= *)
(** ** Matcher *)

(** [[str(x).lower() for x in (logic.get(key) or [])]]. *)
Definition keyword_list (logic : json) (key : string) : result (list string) :=
  v ← obj_get logic key JNull;
  items ← py_iter (py_or v (JList []));
  mret (map (fun x => PyStr.lower (py_str x)) items).

(** [any(k and k in title_l for k in keywords)]. *)
Definition any_hit (title_l : string) (keywords : list string) : bool :=
  existsb (fun k => PyStr.nonempty k && PyStr.contains title_l k) keywords.

(** [match(title, cfg)]. *)
Definition match_ (title : string) (cfg : pydict) : result bool :=
  let logic := py_or (py_get cfg "match_logic") (JDict []) in
  let title_l := PyStr.lower title in
  negatives ← keyword_list logic "negative_keywords";
  if any_hit title_l negatives then mret false else
  locations ← keyword_list logic "locations";
  topics ← keyword_list logic "topics";
  let hit_loc := any_hit title_l locations in
  let hit_topic := any_hit title_l topics in
  req_loc ← obj_get logic "require_one_location" (JBool true);
  if truthy req_loc && negb hit_loc then mret false else
  req_topic ← obj_get logic "require_one_topic" (JBool true);
  if truthy req_topic && negb hit_topic then mret false else
  mret true.

End Dynamic.

(* ================================================================= *)
(** ** Tolerant parser *)

Module Xml.

(** Whether an element tag is selected by a path step of [find] or
    [findall]: a step [{*}name] selects [name] in any namespace or in
    none (as [ElementPath] reads it since Python 3.8), any other step
    used here selects the tag equal to it. *)
Definition tag_matches (step el : string) : bool :=
  if PyStr.startswith step "{*}" then
    let name := String.substring 3 (String.length step - 3) step in
    String.eqb el name || PyStr.endswith el ("}" +:+ name)
  else String.eqb el step.

(** [parent.findall(step)] and [parent.find(step)]: direct children. *)
Definition findall (parent : Element) (step : string) : list Element :=
  filter (fun c => tag_matches step (el_tag c) = true) (el_children parent).

Definition find (parent : Element) (step : string) : option Element :=
  head (findall parent step).

(** The elements below [e], in document order. *)
Fixpoint descendants (e : Element) : list Element :=
  match e with
  | Elem _ _ _ cs => flat_map (fun c => c :: descendants c) cs
  end.

(** [root.findall] on the path [.//step]: every element below the root. *)
Definition findall_below (root : Element) (step : string) : list Element :=
  filter (fun c => tag_matches step (el_tag c) = true) (descendants root).

Fixpoint attrib_get (a : list (string * string)) (k : string) : option string :=
  match a with
  | [] => None
  | (k', v) :: r => if String.eqb k' k then Some v else attrib_get r k
  end.

(** [bool(el)] for an optional element: an element without children is
    false. *)
Definition elem_truthy (o : option Element) : bool :=
  match o with
  | Some (Elem _ _ _ (_ :: _)) => true
  | _ => false
  end.

End Xml.

Section Parser.

Variable lib : Lib.

Definition text_of (node : option Element) : string :=
  match node with
  | Some (Elem _ _ (Some t) _) => PyStr.strip t
  | _ => EmptyString
  end.

Fixpoint find_first_text (parent : Element) (tags : list string) : string :=
  match tags with
  | [] => EmptyString
  | t :: r =>
      let v := text_of (Xml.find parent t) in
      if PyStr.nonempty v then v else find_first_text parent r
  end.

(** [a or b] on strings. *)
Definition str_or (a b : string) : string :=
  if PyStr.nonempty a then a else b.

Definition extract_link_rss (item : Element) : string :=
  let link := str_or (text_of (Xml.find item "link"))
                     (text_of (Xml.find item "{*}link")) in
  if PyStr.nonempty link then link else
  let link_el :=
    if Xml.elem_truthy (Xml.find item "link") then Xml.find item "link"
    else Xml.find item "{*}link" in
  match link_el with
  | Some el =>
      match Xml.attrib_get (el_attrib el) "href" with
      | Some h => if PyStr.nonempty h then h else EmptyString
      | None => EmptyString
      end
  | None => EmptyString
  end.

Definition href_of (link_el : Element) : string :=
  default EmptyString (Xml.attrib_get (el_attrib link_el) "href").

Definition extract_link_atom (entry : Element) : string :=
  let links := Xml.findall entry "{*}link" in
  let preferred el :=
    let rel := PyStr.lower (default EmptyString
                              (Xml.attrib_get (el_attrib el) "rel")) in
    PyStr.nonempty (href_of el)
    && (String.eqb rel "" || String.eqb rel "alternate") in
  match filter (fun el => preferred el = true) links with
  | el :: _ => href_of el
  | [] =>
      match filter (fun el => PyStr.nonempty (href_of el) = true) links with
      | el :: _ => href_of el
      | [] => EmptyString
      end
  end.

(** [x or None] on strings. *)
Definition nonempty_opt (s : string) : option string :=
  if PyStr.nonempty s then Some s else None.

(** The body of the loop over RSS items. *)
Definition rss_entry (src : string) (it : Element) : Entry :=
  let title := str_or (find_first_text it ["title"; "{*}title"]) "(no title)" in
  let link := extract_link_rss it in
  let uid := str_or (find_first_text it ["guid"; "{*}guid"; "{*}id"])
                    (str_or link title) in
  let pub := find_first_text it
               ["pubDate"; "{*}pubDate"; "{*}published"; "{*}updated"] in
  {| source := src; title := title; link := link; uid := uid;
     published := nonempty_opt pub |}.

(** The body of the loop over Atom entries. *)
Definition atom_entry (src : string) (en : Element) : Entry :=
  let title := str_or (find_first_text en ["{*}title"]) "(no title)" in
  let link := extract_link_atom en in
  let uid := str_or (find_first_text en ["{*}id"]) (str_or link title) in
  let pub := find_first_text en ["{*}updated"; "{*}published"] in
  {| source := src; title := title; link := link; uid := uid;
     published := nonempty_opt pub |}.

(** The items the RSS branch walks: those without a namespace, and when
    there is none, those in any namespace. *)
Definition rss_items (root : Element) : list Element :=
  match Xml.findall_below root "item" with
  | [] => Xml.findall_below root "{*}item"
  | items => items
  end.

(** [parse_feed] once the strict parse has given [root]. *)
Definition parse_tree (root : Element) (src : string) : list Entry :=
  match rss_items root with
  | [] => map (atom_entry src) (Xml.findall_below root "{*}entry")
  | items => map (rss_entry src) items
  end.

(** *** Sanitising the text *)

Definition keep_char (c : ascii) : bool :=
  let n := PyStr.code c in ((n =? 9) || (n =? 10) || (n =? 13) || (32 <=? n))%N.

Fixpoint strip_controls (s : string) : string :=
  match s with
  | EmptyString => EmptyString
  | String c r =>
      if keep_char c then String c (strip_controls r) else strip_controls r
  end.

Definition is_alpha (c : ascii) : bool :=
  let n := PyStr.code c in
  (((65 <=? n) && (n <=? 90)) || ((97 <=? n) && (n <=? 122)))%N.
Definition is_alnum (c : ascii) : bool := is_alpha c || PyStr.is_digit c.
Definition is_hex (c : ascii) : bool :=
  let n := PyStr.code c in
  (PyStr.is_digit c || ((65 <=? n) && (n <=? 70)) || ((97 <=? n) && (n <=? 102)))%N.

(** [fix_named_entity] on the name of a matched reference. *)
Definition fix_named_entity (name : string) : string :=
  if existsb (String.eqb name) ["amp"; "lt"; "gt"; "apos"; "quot"]
  then "&" +:+ name +:+ ";"
  else match name2codepoint lib name with
       | Some cp =>
           if cp =? 0 then "&amp;" +:+ name +:+ ";"
           else "&#" +:+ pretty cp +:+ ";"
       | None => "&amp;" +:+ name +:+ ";"
       end.

(** The first [re.sub] of [parse_feed]: every ampersand followed by an
    ASCII letter, one or more ASCII letters or digits and a semicolon is
    rewritten by [fix_named_entity]. The text is read from left to right;
    [pending] holds the characters of a name read since an ampersand. A
    name that is not closed by a semicolon, or has fewer than two
    characters, is copied as it is. *)
Fixpoint fix_entities (pending : option string) (s : string) : string :=
  match s with
  | EmptyString =>
      match pending with
      | None => EmptyString
      | Some buf => "&" +:+ buf
      end
  | String c r =>
      let restart :=
        if Ascii.eqb c "&"%char then fix_entities (Some EmptyString) r
        else String c (fix_entities None r) in
      match pending with
      | None => restart
      | Some buf =>
          if (if PyStr.nonempty buf then is_alnum c else is_alpha c)
          then fix_entities (Some (buf +:+ String c EmptyString)) r
          else if Ascii.eqb c ";"%char && (2 <=? String.length buf)%nat
          then fix_named_entity buf +:+ fix_entities None r
          else "&" +:+ buf +:+ restart
      end
  end.

(** The rest of [s] after a run of one or more characters in [p]. *)
Definition after_run (p : ascii -> bool) (s : string) : option string :=
  match s with
  | String c r => if p c then Some (PyStr.lstrip_with p r) else None
  | EmptyString => None
  end.

Definition closes_reference (o : option string) : bool :=
  match o with
  | Some (String c _) => Ascii.eqb c ";"%char
  | _ => false
  end.

(** The lookahead of the second substitution: what follows an ampersand
    is the rest of a numeric or named reference. *)
Definition reference_follows (r : string) : bool :=
  match r with
  | String c r1 =>
      if Ascii.eqb c "#"%char then
        closes_reference (after_run PyStr.is_digit r1)
        || match r1 with
           | String x r2 =>
               Ascii.eqb x "x"%char && closes_reference (after_run is_hex r2)
           | EmptyString => false
           end
      else is_alpha c && closes_reference (after_run is_alnum r1)
  | EmptyString => false
  end.

(** The second [re.sub] of [parse_feed]: an ampersand that no reference
    follows is escaped. *)
Fixpoint escape_stray_ampersands (s : string) : string :=
  match s with
  | EmptyString => EmptyString
  | String c r =>
      if Ascii.eqb c "&"%char && negb (reference_follows r)
      then "&amp;" +:+ escape_stray_ampersands r
      else String c (escape_stray_ampersands r)
  end.

Definition sanitize (data : string) : string :=
  escape_stray_ampersands
    (fix_entities None (strip_controls (utf8_decode lib data))).

(** *** Fallback on [<item>] blocks *)

(** The [re.sub] that removes a CDATA wrapper around the whole string;
    the end of the pattern is the end of the string or the place before a
    last line feed. *)
Definition cdata_unwrap (s : string) : string :=
  if PyStr.startswith s "<![CDATA[" then
    let body := String.substring 9 (String.length s - 9) s in
    let n := String.length body in
    if PyStr.endswith body "]]>" then String.substring 0 (n - 3) body
    else if PyStr.endswith body ("]]>" +:+ String (ascii_of_nat 10) EmptyString)
    then String.substring 0 (n - 4) body +:+ String (ascii_of_nat 10) EmptyString
    else s
  else s.

Definition field_text (raw tag : string) : string :=
  html_unescape lib (PyStr.strip (default EmptyString (re_tag_body lib tag raw))).

Definition fallback_entry (src raw : string) : Entry :=
  let title := field_text raw "title" in
  let link := field_text raw "link" in
  let uid := str_or (field_text raw "guid") (str_or link title) in
  let pub := nonempty_opt (field_text raw "pubDate") in
  let title := str_or (PyStr.strip (cdata_unwrap title)) "(no title)" in
  let link := PyStr.strip (cdata_unwrap link) in
  {| source := src; title := title; link := link; uid := uid;
     published := pub |}.

Definition parse_fallback (text src : string) : list Entry :=
  filter (fun e => PyStr.nonempty (title e) = true)
         (map (fallback_entry src) (take 200 (re_item_blocks lib text))).

(** [parse_feed(data, source)]. *)
Definition parse_feed (data src : string) : list Entry :=
  let text := sanitize data in
  match xml_fromstring lib text with
  | Some root => parse_tree root src
  | None => parse_fallback text src
  end.

(** *** HTML link extractor *)

(** [looks_like_html(data)], on bytes. *)
Definition looks_like_html (data : string) : bool :=
  let head := PyStr.lower_bytes
                (PyStr.lstrip_with PyStr.isspace_byte (PyStr.take 600 data)) in
  PyStr.startswith head "<!doctype html"
  || PyStr.startswith head "<html"
  || PyStr.contains head "<html".

(** The [re.sub] of [parse_html_links] that puts a space for every tag:
    an opening angle bracket, one or more characters other than a closing
    one, and a closing one. [pending] holds what was read since an opening
    bracket. *)
Fixpoint strip_tags (pending : option string) (s : string) : string :=
  match s with
  | EmptyString =>
      match pending with
      | None => EmptyString
      | Some buf => "<" +:+ buf
      end
  | String c r =>
      match pending with
      | None =>
          if Ascii.eqb c "<"%char then strip_tags (Some EmptyString) r
          else String c (strip_tags None r)
      | Some buf =>
          if Ascii.eqb c ">"%char then
            if PyStr.nonempty buf then " " +:+ strip_tags None r
            else "<>" +:+ strip_tags None r
          else strip_tags (Some (buf +:+ String c EmptyString)) r
      end
  end.

(** [s.split()]: the maximal runs of characters that are not spaces. *)
Fixpoint split_ws (cur : string) (s : string) : list string :=
  match s with
  | EmptyString => if PyStr.nonempty cur then [cur] else []
  | String c r =>
      if PyStr.isspace c then
        if PyStr.nonempty cur then cur :: split_ws EmptyString r
        else split_ws EmptyString r
      else split_ws (cur +:+ String c EmptyString) r
  end.

Definition anchor_title (label : string) : string :=
  html_unescape lib
    (String.concat " " (split_ws EmptyString (strip_tags None label))).

(** The loop of [parse_html_links] over the anchors; [out] is the list
    built so far. *)
Fixpoint html_links_loop (src base_url : string)
    (anchors : list (string * string)) (out : list Entry)
    : result (list Entry) :=
  match anchors with
  | [] => Ok out
  | (href, label) :: rest =>
      let href := PyStr.strip href in
      if negb (PyStr.nonempty href) || PyStr.startswith href "#"
      then html_links_loop src base_url rest out
      else if negb (PyStr.startswith href "http://"
                    || PyStr.startswith href "https://"
                    || PyStr.startswith href "/")
      then html_links_loop src base_url rest out
      else
        match (if PyStr.startswith href "/" then urljoin lib base_url href
               else Ok href) with
        | Raise e => Raise e
        | Ok href =>
            if PyStr.contains base_url "berlin.de"
               && negb (PyStr.contains href "pressemitteilung.")
            then html_links_loop src base_url rest out
            else
              let title := anchor_title label in
              if negb (PyStr.nonempty title) || (String.length title <? 12)%nat
              then html_links_loop src base_url rest out
              else
                let out' :=
                  (out ++ [{| source := src; title := title; link := href;
                              uid := href; published := None |}])%list in
                if (80 <=? length out')%nat then Ok out'
                else html_links_loop src base_url rest out'
        end
  end.

(** [parse_html_links(data, source=src, base_url=base_url)]. *)
Definition parse_html_links (data src base_url : string) : result (list Entry) :=
  html_links_loop src base_url
    (take 4000 (re_anchors lib (utf8_decode lib data))) [].

End Parser.

(* ================================================================= *)
(** ** The machine: files, trace and environment *)

(** The contents of a JSON file: a serialised value, or text that
    [json.loads] rejects. *)
Inductive jfile :=
  | Corrupt
  | Holds (j : json).

(** The operations on the outside world that can fail. *)
Inductive io_op :=
  | OpReadText (path : string)
  | OpWriteText (path : string)
  | OpReplace (src dst : string)
  | OpReadSeen
  | OpAppendSeen
  | OpOsascript
  | OpAfplay.

(** What the service does to the outside world, oldest first. *)
Inductive event :=
  | EvLog (line : string)
  | EvFetch (url : string) (timeout : Z)
  | EvOsascript (script : string) (delivered : bool)
  | EvAfplay (sound : string) (played : bool)
  | EvWriteText (path : string) (data : pydict)
  | EvReplace (src dst : string)
  | EvSleep (seconds : Z).

(** [files] holds the JSON files by path (a missing key is a missing
    file), [seen_log] the text of the seen-log ([None] when the file does
    not exist). *)
Record World := {
  files : gmap string jfile;
  seen_log : option string;
  trace : list event;
}.

(** What the environment decides. Every component may depend on the
    world reached so far, the trace included, so that it may change with
    time. [io_fault w op] is the exception [op] raises in [w], if any;
    [urlopen w url timeout] is the whole body the server sends, or the
    exception raised by the request or by reading the response. *)
Record Env := {
  now_iso : World -> string;
  getpid : Z;
  urlopen : World -> string -> Z -> result string;
  io_fault : World -> io_op -> option exn;
}.

Definition double_quote : ascii := ascii_of_nat 34.

Definition CONFIG_PATH : string := "power_watchdog_config.json".
Definition STATUS_PATH : string := "status.json".

(** The frame of [run_once]: the world, the set object bound to [seen]
    (shared with [prime_seen], which mutates it), and the locals of the
    function. *)
Record Frame := {
  world : World;
  seen : gset string;
  hits : Z;
  checked : Z;
  last_error : option string;
  latest_items : pydict;
}.

(** *** Computations with state and exceptions *)

Definition SE (S A : Type) : Type := S -> result A * S.

#[global] Instance se_ret {S} : MRet (SE S) := fun _ a s => (Ok a, s).
#[global] Instance se_bind {S} : MBind (SE S) := fun _ _ f m s =>
  match m s with
  | (Ok a, s') => f a s'
  | (Raise e, s') => (Raise e, s')
  end.

Definition se_raise {S A} (e : exn) : SE S A := fun s => (Raise e, s).
Definition se_lift {S A} (r : result A) : SE S A := fun s => (r, s).
Definition se_get {S} : SE S S := fun s => (Ok s, s).
Definition se_gets {S A} (f : S -> A) : SE S A := fun s => (Ok (f s), s).
Definition se_modify {S} (f : S -> S) : SE S unit := fun s => (Ok tt, f s).

(** [try: body except Exception as exc: handler(exc)]. *)
Definition try_except {S A} (body : SE S A) (handler : exn -> SE S A) : SE S A :=
  fun s =>
    match body s with
    | (Raise e, s') => handler e s'
    | r => r
    end.

(** [for x in l: body(x)]. *)
Fixpoint for_each {S A} (body : A -> SE S unit) (l : list A) : SE S unit :=
  match l with
  | [] => mret tt
  | x :: r => body x ≫= fun _ => for_each body r
  end.

Definition set_world (f : Frame) (w : World) : Frame :=
  {| world := w; seen := seen f; hits := hits f; checked := checked f;
     last_error := last_error f; latest_items := latest_items f |}.

(** Runs a computation on the world inside a frame. *)
Definition in_world {A} (m : SE World A) : SE Frame A :=
  fun f => let '(r, w) := m (world f) in (r, set_world f w).

Definition emit (ev : event) (w : World) : World :=
  {| files := files w; seen_log := seen_log w; trace := (trace w ++ [ev])%list |}.

Definition set_files (w : World) (fs : gmap string jfile) : World :=
  {| files := fs; seen_log := seen_log w; trace := trace w |}.

Definition set_seen_log (w : World) (t : option string) : World :=
  {| files := files w; seen_log := t; trace := trace w |}.

(** The script [notify] hands to [osascript]. *)
Definition notify_script (ntitle body : string) : string :=
  let safe_body := PyStr.replace_char double_quote "'"%char body in
  let safe_title := PyStr.replace_char double_quote "'"%char ntitle in
  let q := String double_quote EmptyString in
  "display notification " +:+ q +:+ safe_body +:+ q
  +:+ " with title " +:+ q +:+ safe_title +:+ q.

(* ================================================================= *)
(** ** The service *)

Section Service.

Variable lib : Lib.
Variable env : Env.

(** [log(msg)]: the log file is not modelled; the call is recorded. It
    never raises. *)
Definition log (msg : string) (w : World) : World :=
  emit (EvLog ("[" +:+ now_iso env w +:+ "] " +:+ msg
               +:+ String (ascii_of_nat 10) EmptyString)) w.

Definition path_exists (w : World) (path : string) : bool :=
  match files w !! path with Some _ => true | None => false end.

(** [safe_read_json(path)]. *)
Definition safe_read_json (w : World) (path : string) : pydict :=
  match io_fault env w (OpReadText path) with
  | Some _ => []
  | None =>
      match files w !! path with
      | Some (Holds (JDict d)) => d
      | _ => []
      end
  end.

(** [path.with_suffix] with the suffix of [path] followed by [.tmp]. *)
Definition tmp_path (path : string) : string := path +:+ ".tmp".

(** [write_json_atomic(path, data)]. *)
Definition write_json_atomic (path : string) (data : pydict) : SE World unit :=
  fun w =>
    let tmp := tmp_path path in
    match io_fault env w (OpWriteText tmp) with
    | Some e => (Raise e, w)
    | None =>
        let w1 := emit (EvWriteText tmp data)
                    (set_files w (<[tmp := Holds (JDict data)]> (files w))) in
        match io_fault env w1 (OpReplace tmp path), files w1 !! tmp with
        | Some e, _ => (Raise e, w1)
        | None, None =>
            (Raise (Exn OSError "No such file or directory"), w1)
        | None, Some c =>
            (Ok tt, emit (EvReplace tmp path)
                      (set_files w1 (<[path := c]> (delete tmp (files w1)))))
        end
    end.

Definition default_config : pydict :=
  [("enabled", JBool true); ("check_interval_seconds", JInt 300);
   ("sources", JList [])].

(** [load_config()]. *)
Definition load_config (w : World) : pydict :=
  let cfg := if path_exists w CONFIG_PATH then safe_read_json w CONFIG_PATH
             else [] in
  match cfg with
  | [] => default_config
  | _ => cfg
  end.

(** [load_seen()]. *)
Definition load_seen (w : World) : gset string :=
  match io_fault env w OpReadSeen with
  | Some _ => ∅
  | None =>
      match seen_log w with
      | None => ∅
      | Some t => list_to_set (PyStr.splitlines t)
      end
  end.

(** [append_seen(uid)]. *)
Definition append_seen (u : string) (w : World) : World :=
  match io_fault env w OpAppendSeen with
  | Some _ => w
  | None =>
      set_seen_log w
        (Some (default EmptyString (seen_log w) +:+ u
               +:+ String (ascii_of_nat 10) EmptyString))
  end.

(** [fetch(url, timeout_s, max_bytes)]. Reading at most [max_bytes + 1]
    bytes gives more than [max_bytes] exactly when the body is longer
    than [max_bytes]. *)
Definition fetch (url : string) (timeout_s max_bytes : Z) : SE World string :=
  fun w =>
    let w1 := emit (EvFetch url timeout_s) w in
    match urlopen env w url timeout_s with
    | Raise e => (Raise e, w1)
    | Ok body =>
        if Z.of_nat (String.length body) >? max_bytes
        then (Raise (Exn ValueError "feed_too_large"), w1)
        else (Ok body, w1)
    end.

(** [notify(title, body, sound)]. Both commands are tried; a failure of
    either is swallowed. *)
Definition notify (ntitle body : string) (sound : option string) (w : World)
    : World :=
  let w1 := emit (EvOsascript (notify_script ntitle body)
                    (bool_decide (io_fault env w OpOsascript = None))) w in
  match sound with
  | Some s =>
      emit (EvAfplay s (bool_decide (io_fault env w1 OpAfplay = None))) w1
  | None => w1
  end.

(** [update_status] with the keyword arguments [kwargs]. *)
Definition update_status (kwargs : pydict) : SE World unit :=
  fun w =>
    let base := if path_exists w STATUS_PATH then safe_read_json w STATUS_PATH
                else [] in
    write_json_atomic STATUS_PATH (dict_update base kwargs) w.

Definition mark_seen (u : string) (f : Frame) : Frame :=
  {| world := append_seen u (world f); seen := {[u]} ∪ seen f;
     hits := hits f; checked := checked f; last_error := last_error f;
     latest_items := latest_items f |}.

(** [prime_seen(entries, seen)]. *)
Definition prime_seen (entries : list Entry) : SE Frame unit :=
  for_each (fun e : Entry =>
              se_modify (fun f =>
                if bool_decide (uid e ∈ seen f) then f else mark_seen (uid e) f))
           (take 50 entries).

Definition opt_json (o : option string) : json :=
  match o with Some s => JStr s | None => JNull end.

Definition as_public_item (e : Entry) : json :=
  JDict [("title", JStr (title e)); ("link", JStr (link e));
         ("published", opt_json (published e)); ("uid", JStr (uid e))].

(** The values [run_once] reads from the configuration before its loop. *)
Record Params := {
  timeout_s : Z;
  max_bytes : Z;
  notif_title : string;
  sound : option string;
  show_link : bool;
}.

Definition default_notif_title : string := "⚡ POWER UPDATE".

Definition read_params (cfg : pydict) : result Params :=
  t ← py_int lib (py_or (py_get cfg "request_timeout_seconds") (JInt 10));
  m ← py_int lib (py_or (py_get cfg "max_feed_bytes") (JInt 2000000));
  let notif := py_or (py_get cfg "notification") (JDict []) in
  nt ← obj_get notif "title" JNull;
  sd ← obj_get notif "sound" JNull;
  sl ← obj_get notif "show_link_in_body" (JBool true);
  mret {| timeout_s := t; max_bytes := m;
          notif_title := py_str lib (py_or nt (JStr default_notif_title));
          sound := nonempty_opt (py_str lib (py_or sd (JStr EmptyString)));
          show_link := truthy sl |}.

Definition add_hit (f : Frame) : Frame :=
  {| world := world f; seen := seen f; hits := hits f + 1;
     checked := checked f; last_error := last_error f;
     latest_items := latest_items f |}.

Definition add_checked (f : Frame) : Frame :=
  {| world := world f; seen := seen f; hits := hits f;
     checked := checked f + 1; last_error := last_error f;
     latest_items := latest_items f |}.

Definition set_last_error (msg : string) (f : Frame) : Frame :=
  {| world := world f; seen := seen f; hits := hits f;
     checked := checked f; last_error := Some msg;
     latest_items := latest_items f |}.

Definition set_latest (name : string) (items : json) (f : Frame) : Frame :=
  {| world := world f; seen := seen f; hits := hits f;
     checked := checked f; last_error := last_error f;
     latest_items := dict_set (latest_items f) name items |}.

Definition line_feed : string := String (ascii_of_nat 10) EmptyString.

(** The text of the notification of an entry: the title, and the link
    on a second line when it is wanted and there is one. *)
Definition hit_body (p : Params) (e : Entry) : string :=
  if show_link p && PyStr.nonempty (link e)
  then title e +:+ line_feed +:+ link e else title e.

(** The statements run for a matched entry. *)
Definition handle_hit (p : Params) (name : string) (e : Entry) : SE Frame unit :=
  se_modify add_hit ;;
  let body := hit_body p e in
  in_world (se_modify (log ("HIT (" +:+ name +:+ "): " +:+ title e))) ;;
  in_world (se_modify (notify (notif_title p) body (sound p))) ;;
  in_world (
    w ← se_get;
    update_status [("last_hit_at", JStr (now_iso env w));
                   ("last_hit_title", JStr (title e));
                   ("last_hit_link", JStr (link e));
                   ("last_hit_source", JStr name)]).

(** The body of the loop over the entries of a source. *)
Definition process_entry (cfg : pydict) (p : Params) (name : string) (e : Entry)
    : SE Frame unit :=
  known ← se_gets (fun f => bool_decide (uid e ∈ seen f));
  if known : bool then mret tt else
  m ← se_lift (match_ lib (title e) cfg);
  (if m : bool then handle_hit p name e else mret tt) ;;
  se_modify (mark_seen (uid e)).

(** The statements under [try] in the loop over the sources. *)
Definition source_body (cfg : pydict) (p : Params) (name url : string)
    : SE Frame unit :=
  data ← in_world (fetch url (timeout_s p) (max_bytes p));
  entries ← (if looks_like_html data
             then se_lift (parse_html_links lib data name url)
             else mret (parse_feed lib data name));
  se_modify (set_latest name (JList (map as_public_item (take 10 entries)))) ;;
  fresh ← se_gets (fun f => bool_decide (seen f = ∅));
  if (fresh : bool) && truthy (py_get_default cfg "prime_on_first_run" (JBool true))
  then
    prime_seen entries ;;
    in_world (se_modify
      (log ("[prime] " +:+ name +:+ ": primed "
            +:+ pretty (Z.min (Z.of_nat (length entries)) 50)
            +:+ " items as seen")))
  else for_each (process_entry cfg p name) (take 80 entries).

(** The handler of the loop over the sources. *)
Definition source_failed (name : string) (exc : exn) : SE Frame unit :=
  let msg := name +:+ ": " +:+ exn_msg exc in
  se_modify (set_last_error msg) ;;
  in_world (se_modify (log ("warn: " +:+ msg))).

(** [str((src or {}).get(key) or dflt)]. *)
Definition source_field (src : json) (key dflt : string) : result string :=
  v ← obj_get (py_or src (JDict [])) key JNull;
  mret (py_str lib (py_or v (JStr dflt))).

(** The body of the loop over the sources. *)
Definition process_source (cfg : pydict) (p : Params) (src : json)
    : SE Frame unit :=
  name ← se_lift (source_field src "name" "source");
  url ← se_lift (source_field src "url" EmptyString);
  if negb (PyStr.nonempty url) then mret tt else
  se_modify add_checked ;;
  try_except (source_body cfg p name url) (source_failed name).

(** The aggregate status written when the loop is over. *)
Definition final_status (f : Frame) : pydict :=
  [("ok", JBool true); ("updated_at", JStr (now_iso env (world f)));
   ("checked_sources", JInt (checked f)); ("hits", JInt (hits f));
   ("last_error", opt_json (last_error f));
   ("latest_items", JDict (latest_items f))].

(** The frame on entry to [run_once(cfg, seen)]. *)
Definition enter (w : World) (s : gset string) : Frame :=
  {| world := w; seen := s; hits := 0; checked := 0; last_error := None;
     latest_items := [] |}.

(** The loop of [run_once] over the sources. *)
Definition run_sources (cfg : pydict) (p : Params) (srcs : list json)
    : SE Frame unit :=
  for_each (process_source cfg p) srcs.

(** The status update that ends [run_once], and its return value. *)
Definition finish : SE Frame (Z * Z) :=
  fun f =>
    match update_status (final_status f) (world f) with
    | (Ok _, w) => (Ok (checked f, hits f), set_world f w)
    | (Raise e, w) => (Raise e, set_world f w)
    end.

(** [run_once(cfg, seen)], from the frame [enter w seen]. *)
Definition run_once (cfg : pydict) : SE Frame (Z * Z) :=
  p ← se_lift (read_params cfg);
  srcs ← se_lift (py_iter (py_or (py_get cfg "sources") (JList [])));
  run_sources cfg p srcs ;;
  finish.

(** *** The poll loop *)

Definition sleep (seconds : Z) : SE World unit :=
  se_modify (emit (EvSleep seconds)).

(** The statements of [main] before its loop. *)
Definition main_start : SE World unit :=
  se_modify (log "service starting") ;;
  w ← se_get;
  update_status [("ok", JBool true); ("started_at", JStr (now_iso env w));
                 ("pid", JInt (getpid env))].

(** The handler around [run_once] in [main]. *)
Definition cycle_failed (exc : exn) : SE World unit :=
  se_modify (log ("error: run_once_failed: " +:+ exn_msg exc)) ;;
  w ← se_get;
  update_status [("ok", JBool false); ("updated_at", JStr (now_iso env w));
                 ("last_error", JStr (exn_msg exc))].

(** [run_once(cfg, seen)] as [main] calls it: the frame is dropped when
    the call is over. *)
Definition call_run_once (cfg : pydict) (s : gset string) : SE World unit :=
  fun w =>
    match run_once cfg (enter w s) with
    | (Ok _, f) => (Ok tt, world f)
    | (Raise e, f) => (Raise e, world f)
    end.

(** One turn of the loop of [main]. [Raise] is an exception that leaves
    the loop, hence [main]. *)
Definition main_iteration : SE World unit :=
  cfg ← se_gets load_config;
  if negb (truthy (py_get_default cfg "enabled" (JBool true))) then
    w ← se_get;
    update_status [("ok", JBool true); ("updated_at", JStr (now_iso env w));
                   ("note", JStr "disabled_in_config")] ;;
    sleep 60
  else
    interval ← se_lift
      (py_int lib (py_or (py_get cfg "check_interval_seconds") (JInt 300)));
    let interval := Z.max 30 (Z.min interval 3600) in
    s ← se_gets load_seen;
    try_except (call_run_once cfg s) cycle_failed ;;
    sleep interval.

(** [n] turns of the loop, stopped by the first exception that leaves
    it. The loop itself has no exit. *)
Fixpoint main_loop (n : nat) : SE World unit :=
  match n with
  | O => mret tt
  | S k => main_iteration ;; main_loop k
  end.

(** [main()], cut after [n] turns of its loop. *)
Definition main (n : nat) : SE World unit :=
  main_start ;; main_loop n.

End Service.

(* ================================================================= *)
(** ** The log file *)

(** The service model above records the calls of [log] and leaves the
    log file out. This module follows the log file itself: the setup of
    the paths at import time, [rotate_log_if_needed] and [log]. The
    files are the log file and its rotated copy, by path, each with its
    bytes. *)
Module LogFile.

Definition MAX_LOG_BYTES : Z := 1000000.

(** [dir / name] for a path that does not end in a slash. *)
Definition join (dir name : string) : string := dir +:+ "/" +:+ name.

(** The names the setup of the module binds and the log functions read.
    [LOGS_DIR] is bound in one branch of the setup only: it is [None]
    where the name is left unbound. *)
Record Layout := {
  LOGS_DIR : option string;
  LOG_PATH : string;
}.

(** The setup at import time. [home] is the value of the environment
    variable [RESILIENCE_WATCHDOG_HOME], empty when it is not set;
    [resolve] stands for [Path.expanduser] followed by [Path.resolve];
    [os_dir] is the directory above the one of the script. *)
Definition layout (resolve : string -> string) (home os_dir : string) : Layout :=
  let watchdog_home := PyStr.strip home in
  if PyStr.nonempty watchdog_home then
    let base_dir := resolve watchdog_home in
    {| LOGS_DIR := None; LOG_PATH := join base_dir "power_watchdog.log" |}
  else
    let logs_dir := join (join os_dir "logs") "power_watchdog" in
    {| LOGS_DIR := Some logs_dir;
       LOG_PATH := join logs_dir "power_watchdog.log" |}.

(** The steps that can fail; every failure is swallowed by the [except]
    of the function that meets it. *)
Inductive log_op :=
  | LogStat
  | LogUnlink
  | LogRename
  | LogCreate
  | LogAppend.

Abbreviation Fs := (gmap string string).

Section Log.

Variable g : Layout.
(** [fault fs op]: the step [op] raises when tried on the files [fs]. *)
Variable fault : Fs -> log_op -> bool.

(** [rotate_log_if_needed()]. Reading the unbound name [LOGS_DIR]
    raises [NameError], which the [except] of the function swallows as
    it does the errors of the file system. *)
Definition rotate_log_if_needed (fs : Fs) : Fs :=
  match fs !! LOG_PATH g with
  | None => fs
  | Some content =>
      if fault fs LogStat then fs
      else if Z.of_nat (String.length content) >? MAX_LOG_BYTES then
        match LOGS_DIR g with
        | None => fs
        | Some logs_dir =>
            let rotated := join logs_dir "power_watchdog.log.1" in
            let unlinked :=
              match fs !! rotated with
              | Some _ =>
                  if fault fs LogUnlink then None
                  else Some (delete rotated fs)
              | None => Some fs
              end in
            match unlinked with
            | None => fs
            | Some fs1 =>
                if fault fs1 LogRename then fs1
                else match fs1 !! LOG_PATH g with
                     | Some c => <[rotated := c]> (delete (LOG_PATH g) fs1)
                     | None => fs1
                     end
            end
        end
      else fs
  end.

(** The line [log] writes for [msg] at the time [now]. *)
Definition log_line (now msg : string) : string :=
  "[" +:+ now +:+ "] " +:+ msg +:+ String (ascii_of_nat 10) EmptyString.

(** [log(msg)]; [now] is what [now_iso()] returns and [encode] the
    UTF-8 encoder of the file object. *)
Definition log (encode : string -> string) (now msg : string) (fs : Fs) : Fs :=
  let fs1 := rotate_log_if_needed fs in
  let line := log_line now msg in
  let created :=
    match fs1 !! LOG_PATH g with
    | None =>
        if fault fs1 LogCreate then None
        else Some (<[LOG_PATH g := EmptyString]> fs1)
    | Some _ => Some fs1
    end in
  match created with
  | None => fs1
  | Some fs2 =>
      if fault fs2 LogAppend then fs2
      else <[LOG_PATH g := default EmptyString (fs2 !! LOG_PATH g)
                           +:+ encode line]> fs2
  end.

End Log.

End LogFile.

(* ================================================================= *)
(** ** The controller *)

(** [OS/01_SCRIPTS/power_watchdog_ctl.py]: the script that installs the
    service as a launch agent, starts and stops it. *)
Module Ctl.

Definition LABEL : string := "com.resilience-os.power-watchdog".
Definition WATCHDOG_HOME_ENV : string := "RESILIENCE_WATCHDOG_HOME".

(** The property list [install] writes, as the dictionary its text
    encodes. The text is built by interpolation, without escaping; the
    model covers the paths that need none. *)
Record Plist := {
  label : string;
  program_arguments : list string;
  environment_variables : list (string * string);
  run_at_load : bool;
  keep_alive : bool;
  working_directory : string;
  standard_out_path : string;
  standard_error_path : string;
}.

(** The files the controller reads and writes, and the commands it has
    run so far, oldest first. *)
Record Host := {
  service_src : option string;
  config_src : option jfile;
  runtime_script : option string;
  runtime_config : option jfile;
  installed : option Plist;
  commands : list (list string);
}.

(** The steps on files that can fail. *)
Inductive ctl_op :=
  | CtlMkdirRuntime
  | CtlReadService
  | CtlWriteScript
  | CtlReadConfig
  | CtlWriteConfig
  | CtlMkdirAgents
  | CtlWritePlist
  | CtlUnlinkPlist.

(** What the machine decides: the home directory and the root of the
    repository (neither ends in a slash), the outcome of a command (its
    return code with its output, or the exception [subprocess.run]
    raises), and the faults of the file system. The last two may depend
    on the files and on the commands run so far. *)
Record Machine := {
  home : string;
  root : string;
  exec : Host -> list string -> result (Z * string);
  ctl_fault : Host -> ctl_op -> option exn;
}.

Section Controller.

Variable m : Machine.

Definition join (dir name : string) : string := dir +:+ "/" +:+ name.

Definition INSTALLED : string :=
  join (join (join (home m) "Library") "LaunchAgents")
       "com.resilience-os.power-watchdog.plist".
Definition RUNTIME_HOME : string :=
  join (join (join (join (home m) "Library") "Application Support")
             "ResilienceOS") "power_watchdog".
Definition RUNTIME_SCRIPT : string := join RUNTIME_HOME "power_watchdog_service.py".
Definition RUNTIME_STDOUT : string := join RUNTIME_HOME "stdout.log".
Definition RUNTIME_STDERR : string := join RUNTIME_HOME "stderr.log".

Definition ran (cmd : list string) (h : Host) : Host :=
  {| service_src := service_src h; config_src := config_src h;
     runtime_script := runtime_script h; runtime_config := runtime_config h;
     installed := installed h; commands := (commands h ++ [cmd])%list |}.

(** [run(cmd)]. It raises in no case. *)
Definition run (cmd : list string) (h : Host) : (Z * string) * Host :=
  match exec m h cmd with
  | Ok (code, out) => ((code, PyStr.strip out), ran cmd h)
  | Raise e => ((1, exn_msg e), ran cmd h)
  end.

Definition launchctl_list (h : Host) : string * Host :=
  let '((_, out), h') := run ["launchctl"; "list"] h in (out, h').

Definition is_loaded (h : Host) : bool * Host :=
  let '(out, h') := launchctl_list h in (PyStr.contains out LABEL, h').

Definition set_runtime_script (h : Host) (t : string) : Host :=
  {| service_src := service_src h; config_src := config_src h;
     runtime_script := Some t; runtime_config := runtime_config h;
     installed := installed h; commands := commands h |}.

Definition set_runtime_config (h : Host) (c : jfile) : Host :=
  {| service_src := service_src h; config_src := config_src h;
     runtime_script := runtime_script h; runtime_config := Some c;
     installed := installed h; commands := commands h |}.

Definition set_installed (h : Host) (p : option Plist) : Host :=
  {| service_src := service_src h; config_src := config_src h;
     runtime_script := runtime_script h; runtime_config := runtime_config h;
     installed := p; commands := commands h |}.

(** The configuration [install] writes when the repository has none. *)
Definition minimal_config : pydict :=
  [("enabled", JBool true); ("sources", JList [])].

Definition plist : Plist :=
  {| label := LABEL;
     program_arguments := ["/usr/bin/python3"; RUNTIME_SCRIPT];
     environment_variables := [(WATCHDOG_HOME_ENV, RUNTIME_HOME)];
     run_at_load := true;
     keep_alive := true;
     working_directory := RUNTIME_HOME;
     standard_out_path := RUNTIME_STDOUT;
     standard_error_path := RUNTIME_STDERR |}.

(** A step on files under the [try] of [install]. *)
Definition guarded (op : ctl_op) (h : Host) : result unit :=
  match ctl_fault m h op with
  | Some e => Raise e
  | None => Ok tt
  end.

(** The statements under the [try] of [install]: the copy of the
    service and of the configuration into the runtime directory. *)
Definition copy_runtime : SE Host unit :=
  fun h =>
    match guarded CtlMkdirRuntime h, guarded CtlReadService h, service_src h with
    | Raise e, _, _ => (Raise e, h)
    | _, Raise e, _ => (Raise e, h)
    | _, _, None => (Raise (Exn OSError "No such file or directory"), h)
    | Ok _, Ok _, Some text =>
        match guarded CtlWriteScript h with
        | Raise e => (Raise e, h)
        | Ok _ =>
            let h1 := set_runtime_script h text in
            match config_src h1 with
            | Some c =>
                match guarded CtlReadConfig h1 with
                | Raise e => (Raise e, h1)
                | Ok _ =>
                    match guarded CtlWriteConfig h1 with
                    | Raise e => (Raise e, h1)
                    | Ok _ => (Ok tt, set_runtime_config h1 c)
                    end
                end
            | None =>
                match guarded CtlWriteConfig h1 with
                | Raise e => (Raise e, h1)
                | Ok _ =>
                    (Ok tt, set_runtime_config h1 (Holds (JDict minimal_config)))
                end
            end
        end
    end.

(** [install()]. The write of the property list is outside the [try]:
    its failure leaves [install] as an exception. *)
Definition install : SE Host pydict :=
  fun h =>
    match service_src h with
    | None =>
        (Ok [("ok", JBool false); ("error", JStr "missing_service");
             ("path", JStr (join (join (join (root m) "OS") "01_SCRIPTS")
                                 "power_watchdog_service.py"))], h)
    | Some _ =>
        match copy_runtime h with
        | (Raise exc, h1) =>
            (Ok [("ok", JBool false);
                 ("error", JStr ("copy_failed: " +:+ exn_msg exc))], h1)
        | (Ok _, h1) =>
            match guarded CtlMkdirAgents h1, guarded CtlWritePlist h1 with
            | Raise e, _ => (Raise e, h1)
            | _, Raise e => (Raise e, h1)
            | Ok _, Ok _ =>
                (Ok [("ok", JBool true); ("installed", JStr INSTALLED);
                     ("runtime_home", JStr RUNTIME_HOME);
                     ("runtime_script", JStr RUNTIME_SCRIPT)],
                 set_installed h1 (Some plist))
            end
        end
    end.

(** The statements of [start] once the property list is in place. *)
Definition load_agent (h : Host) : pydict * Host :=
  let '(loaded, h1) := is_loaded h in
  let h2 := if loaded : bool
            then (run ["launchctl"; "unload"; INSTALLED] h1).2 else h1 in
  let '((code, out), h3) := run ["launchctl"; "load"; INSTALLED] h2 in
  ([("ok", JBool (code =? 0)); ("action", JStr "start"); ("code", JInt code);
    ("output", JStr out); ("runtime_home", JStr RUNTIME_HOME)], h3).

(** [start()]. *)
Definition start : SE Host pydict :=
  fun h =>
    match installed h with
    | Some _ => let '(r, h') := load_agent h in (Ok r, h')
    | None =>
        match install h with
        | (Raise e, h1) => (Raise e, h1)
        | (Ok res, h1) =>
            if negb (truthy (py_get res "ok")) then (Ok res, h1)
            else let '(r, h') := load_agent h1 in (Ok r, h')
        end
    end.

(** [stop()]. It raises in no case. *)
Definition stop (h : Host) : pydict * Host :=
  match installed h with
  | None => ([("ok", JBool true); ("action", JStr "stop");
              ("note", JStr "not_installed")], h)
  | Some _ =>
      let '((code, out), h') := run ["launchctl"; "unload"; INSTALLED] h in
      ([("ok", JBool (code =? 0)); ("action", JStr "stop");
        ("code", JInt code); ("output", JStr out)], h')
  end.

(** [uninstall()]. It raises in no case. *)
Definition uninstall (h : Host) : pydict * Host :=
  let '(_, h1) := stop h in
  match installed h1 with
  | None => ([("ok", JBool true); ("action", JStr "uninstall");
              ("removed", JStr INSTALLED)], h1)
  | Some _ =>
      match ctl_fault m h1 CtlUnlinkPlist with
      | Some exc => ([("ok", JBool false); ("action", JStr "uninstall");
                      ("error", JStr (exn_msg exc))], h1)
      | None => ([("ok", JBool true); ("action", JStr "uninstall");
                  ("removed", JStr INSTALLED)], set_installed h1 None)
      end
  end.

End Controller.

End Ctl.

(* ================================================================= *)
(** ** The dashboard *)

(** [OS/01_SCRIPTS/dashboard_server.py] shows the end of the log of the
    service. *)
Module Dashboard.

(** [s[n:]] for [n] that is not negative. *)
Fixpoint drop (n : nat) (s : string) : string :=
  match n, s with
  | O, _ => s
  | S _, EmptyString => EmptyString
  | S k, String _ r => drop k r
  end.

(** [data[i:]] for any integer [i]. *)
Definition slice_from (i : Z) (data : string) : string :=
  let len := Z.of_nat (String.length data) in
  let start := if i <? 0 then Z.max 0 (len + i) else Z.min i len in
  drop (Z.to_nat start) data.

(** The bytes [safe_tail] decodes. *)
Definition tail_bytes (data : string) (max_bytes : Z) : string :=
  if Z.of_nat (String.length data) <=? max_bytes then data
  else slice_from (- max_bytes) data.

(** [safe_tail(path, max_bytes)]: [file] is the content of the regular
    file at [path], if there is one, and [unreadable] says that reading
    it raises. *)
Definition safe_tail (lib : Lib) (file : option string) (unreadable : bool)
    (max_bytes : Z) : string :=
  match file with
  | None => EmptyString
  | Some data =>
      if unreadable then EmptyString
      else utf8_decode lib (tail_bytes data max_bytes)
  end.

End Dashboard.

(* ================================================================= *)
(** ** Notions used in the statements *)

(** [k] occurs in [t] when case is ignored: the lowered [k] is a
    contiguous part of the lowered [t]. *)
Definition ci_substring (k t : string) : Prop :=
  ∃ pre post, PyStr.lower t = pre +:+ PyStr.lower k +:+ post.

(** The keywords configured under [key], as [match] reads them, before
    they are lowered. *)
Definition configured (lib : Lib) (logic : json) (key : string)
    : result (list string) :=
  v ← obj_get logic key JNull;
  items ← py_iter (py_or v (JList []));
  mret (map (py_str lib) items).

(** Whether the flag [key] of the match logic is on; it is when absent. *)
Definition required (logic : json) (key : string) : result bool :=
  truthy <$> obj_get logic key (JBool true).

(** The rule of the matcher in the words of the specification: no
    negative keyword occurs in the title, and a location keyword occurs
    if one is required, and a topic keyword occurs if one is required. *)
Definition spec_match (negs locs tops : list string) (req_loc req_topic : bool)
    (t : string) : Prop :=
  (∀ n, n ∈ negs → ¬ ci_substring n t)
  ∧ (req_loc = true → ∃ k, k ∈ locs ∧ ci_substring k t)
  ∧ (req_topic = true → ∃ k, k ∈ tops ∧ ci_substring k t).

(** The same rule with the empty keywords left out. *)
Definition spec_match_nonempty (negs locs tops : list string)
    (req_loc req_topic : bool) (t : string) : Prop :=
  (∀ n, n ∈ negs → n ≠ EmptyString → ¬ ci_substring n t)
  ∧ (req_loc = true → ∃ k, k ∈ locs ∧ k ≠ EmptyString ∧ ci_substring k t)
  ∧ (req_topic = true → ∃ k, k ∈ tops ∧ k ≠ EmptyString ∧ ci_substring k t).

(** The elements named [item], in any namespace or in none, below the
    root, in document order. *)
Definition item_elements (root : Element) : list Element :=
  filter (fun e => Xml.tag_matches "{*}item" (el_tag e) = true)
         (Xml.descendants root).


(** The notifications tried so far: the scripts handed to [osascript]. *)
Definition notifications (w : World) : list string :=
  omap (fun ev => match ev with EvOsascript s _ => Some s | _ => None end)
       (trace w).

(** The sources that count as checked: those with a URL. *)
Definition has_url (lib : Lib) (src : json) : bool :=
  match source_field lib src "url" EmptyString with
  | Ok u => PyStr.nonempty u
  | Raise _ => false
  end.

(** *** Notions about the cycle *)

(** A computation keeps [R] when every run of it, normal or not, ends in
    a state related by [R] to the one it started from. *)
Definition keeps {S A} (R : S → S → Prop) (m : SE S A) : Prop :=
  ∀ s r s', m s = (r, s') → R s s'.

(** The locals of [run_once] that the statements under [try] leave
    alone. *)
Definition same_locals (f f' : Frame) : Prop :=
  checked f' = checked f ∧ last_error f' = last_error f.

(** A source the loop can read: an object, or a value that counts as
    false and is read as the empty object. *)
Definition well_formed_source (src : json) : Prop :=
  ∃ d, py_or src (JDict []) = JDict d.

(** The number of sources with a URL. *)
Fixpoint count_urls (lib : Lib) (srcs : list json) : Z :=
  match srcs with
  | [] => 0
  | s :: r => (if has_url lib s then 1 else 0) + count_urls lib r
  end.

(** The status [update_status] starts from: the object in the status
    file, or the empty one. *)
Definition previous_status (env : Env) (w : World) : pydict :=
  if path_exists w STATUS_PATH then safe_read_json env w STATUS_PATH else [].

(** The world after an [update_status] whose two steps succeed. *)
Definition status_written (env : Env) (kwargs : pydict) (w : World) : World :=
  let tmp := tmp_path STATUS_PATH in
  let merged := dict_update (previous_status env w) kwargs in
  {| files := <[STATUS_PATH := Holds (JDict merged)]>
                (delete tmp (<[tmp := Holds (JDict merged)]> (files w)));
     seen_log := seen_log w;
     trace := (trace w ++ [EvWriteText tmp merged;
                           EvReplace tmp STATUS_PATH])%list |}.

(** The status file can be written, now and later. *)
Definition status_writable (env : Env) : Prop :=
  ∀ w, io_fault env w (OpWriteText (tmp_path STATUS_PATH)) = None
       ∧ io_fault env w (OpReplace (tmp_path STATUS_PATH) STATUS_PATH) = None.

(** *** Relations kept by a cycle *)

(** The text of the seen-log, empty when the file does not exist. *)
Definition log_text (w : World) : string :=
  default EmptyString (seen_log w).

(** The seen-log of [w'] is that of [w] with text added at its end, and
    a log that exists still exists. *)
Definition log_extended (w w' : World) : Prop :=
  (∃ added, log_text w' = log_text w +:+ added)
  ∧ (is_Some (seen_log w) → is_Some (seen_log w')).

(** No file but the status file and its temporary file differs between
    [w] and [w']. *)
Definition other_files_kept (w w' : World) : Prop :=
  ∀ p, p ≠ STATUS_PATH → p ≠ tmp_path STATUS_PATH →
       files w' !! p = files w !! p.

(** The notifications tried between [f] and [f'] are as many as the hits
    counted between them. *)
Definition hits_notified (f f' : Frame) : Prop :=
  Z.of_nat (length (notifications (world f'))) - hits f'
  = Z.of_nat (length (notifications (world f))) - hits f.

(** A relation between worlds, seen from the frames that hold them. *)
Definition on_world (Rw : World → World → Prop) (f f' : Frame) : Prop :=
  Rw (world f) (world f').

(** The events of a cycle: all but the sleep between two cycles. *)
Definition cycle_event (ev : event) : Prop :=
  match ev with EvSleep _ => False | _ => True end.

(** The set of seen uids has lost nothing between [f] and [f']. *)
Definition seen_grows (f f' : Frame) : Prop := seen f ⊆ seen f'.

(** The requests sent so far. *)
Definition fetches (w : World) : list string :=
  omap (fun ev => match ev with EvFetch u _ => Some u | _ => None end)
       (trace w).

(** The sleeps taken so far. *)
Definition sleeps (w : World) : list Z :=
  omap (fun ev => match ev with EvSleep s => Some s | _ => None end)
       (trace w).

(** No sleep was recorded between [w] and [w']. *)
Definition sleeps_kept (w w' : World) : Prop := sleeps w' = sleeps w.

(** No request was recorded between [f] and [f']. *)
Definition fetches_kept (f f' : Frame) : Prop :=
  fetches (world f') = fetches (world f).

(** The URL of a source as the loop reads it, when it has one. *)
Definition source_url (lib : Lib) (src : json) : option string :=
  match source_field lib src "url" EmptyString with
  | Ok u => if PyStr.nonempty u then Some u else None
  | Raise _ => None
  end.

(** The URLs of the sources that have one, in the order of the sources. *)
Definition source_urls (lib : Lib) (srcs : list json) : list string :=
  omap (source_url lib) srcs.

(** The configuration is read as [cfg] in every world whose
    configuration file is the one of [w]. *)
Definition config_stable (env : Env) (w : World) (cfg : pydict) : Prop :=
  ∀ w', files w' !! CONFIG_PATH = files w !! CONFIG_PATH →
        load_config env w' = cfg.

(** The sleep that ends a turn of the loop of [main] under the
    configuration [cfg], whose interval reads as [i]. *)
Definition turn_sleep (cfg : pydict) (i : Z) : Z :=
  if truthy (py_get_default cfg "enabled" (JBool true))
  then Z.max 30 (Z.min i 3600) else 60.

(** *** Notions about the parser *)

(** Every ampersand of [s] starts a numeric or named reference. *)
Fixpoint well_escaped (s : string) : bool :=
  match s with
  | EmptyString => true
  | String c r =>
      (negb (Ascii.eqb c "&"%char) || reference_follows r) && well_escaped r
  end.

(** Text without ampersand and without a control character other than
    tab, line feed and carriage return. *)
Fixpoint plain_text (s : string) : bool :=
  match s with
  | EmptyString => true
  | String c r => keep_char c && negb (Ascii.eqb c "&"%char) && plain_text r
  end.

(** What every entry taken from an HTML page looks like. *)
Definition html_entry_ok (src base_url : string) (e : Entry) : Prop :=
  source e = src ∧ uid e = link e ∧ published e = None
  ∧ (12 ≤ String.length (title e))%nat
  ∧ (PyStr.contains base_url "berlin.de" = true →
     PyStr.contains (link e) "pressemitteilung." = true).

(** The link elements of an Atom entry that [extract_link_atom] takes
    first: those with a link target whose relation is absent, empty or
    [alternate]. *)
Definition alternate_link (el : Element) : bool :=
  PyStr.nonempty (href_of el)
  && (let rel := PyStr.lower (default EmptyString
                                (Xml.attrib_get (el_attrib el) "rel")) in
      String.eqb rel "" || String.eqb rel "alternate").

(** *** Documents and their items *)









(** When the seen-log of [w] ends with a line break, so does the one of
    [w'], and every line [load_seen] reads in [w] it reads in [w']. *)
Definition seen_lines_kept (env : Env) (w w' : World) : Prop :=
  PyStr.closed_text (log_text w) = true →
  PyStr.closed_text (log_text w') = true
  ∧ load_seen env w ⊆ load_seen env w'.

(** *** Two runs side by side *)

(** The environment does not look at the trace: the clock, the network
    and the faults are the same in two worlds with the same files and
    the same seen-log. *)
Definition trace_blind (env : Env) : Prop :=
  ∀ w1 w2, files w1 = files w2 → seen_log w1 = seen_log w2 →
    now_iso env w1 = now_iso env w2
    ∧ (∀ url t, urlopen env w1 url t = urlopen env w2 url t)
    ∧ (∀ op, io_fault env w1 op = io_fault env w2 op).

(** Run from two states related by [R], [m] gives the same result and
    leaves states related by [R]. *)
Definition sim {S A} (R : S → S → Prop) (m : SE S A) : Prop :=
  ∀ s1 s2, R s1 s2 → (m s1).1 = (m s2).1 ∧ R (m s1).2 (m s2).2.

(** Two worlds with the same files, the same seen-log and the same
    notifications tried. *)
Definition same_store (w1 w2 : World) : Prop :=
  files w1 = files w2 ∧ seen_log w1 = seen_log w2
  ∧ notifications w1 = notifications w2.

(** The frame [f1] of a cycle in which a source failed with the error
    [err], beside the frame [f2] of the same cycle without that source,
    which started with [e0] as its last error: the same store, the same
    seen set, hits and latest items; one more source checked in [f1];
    and the same last error, unless no source has failed since, in which
    case [f1] still has [err] and [f2] still has [e0]. *)
Definition alongside (err : string) (e0 : option string) (f1 f2 : Frame)
    : Prop :=
  same_store (world f1) (world f2)
  ∧ seen f1 = seen f2
  ∧ hits f1 = hits f2
  ∧ latest_items f1 = latest_items f2
  ∧ checked f1 = checked f2 + 1
  ∧ (last_error f1 = last_error f2
     ∨ (last_error f1 = Some err ∧ last_error f2 = e0)).

(** The number of occurrences of a character in a string. *)
Fixpoint count_char (a : ascii) (s : string) : nat :=
  match s with
  | EmptyString => O
  | String c r => ((if Ascii.eqb c a then 1 else 0) + count_char a r)%nat
  end.

(* ================================================================= *)
(** ** Scenarios *)

Module Scenario.

(** A library whose XML parser is the table [parse]. *)
Definition lib_with (parse : string -> option Element) : Lib :=
  {| py_repr := fun j => match j with
                         | JStr s => "'" +:+ s +:+ "'"
                         | _ => type_name j
                         end;
     html_unescape := fun s => s;
     name2codepoint := fun _ => None;
     utf8_decode := fun s => s;
     xml_fromstring := parse;
     re_item_blocks := fun _ => [];
     re_tag_body := fun _ _ => None;
     re_anchors := fun _ => [];
     urljoin := fun _ u => Ok u |}.

(** An environment with a fixed clock, the network [net], constant in
    time, and the faults [fault]. *)
Definition env_with (net : string -> result string)
    (fault : World -> io_op -> option exn) : Env :=
  {| now_iso := fun _ => "2024-01-01T00:00:00";
     getpid := 4242;
     urlopen := fun _ url _ => net url;
     io_fault := fault |}.

Definition no_fault : World -> io_op -> option exn := fun _ _ => None.

Definition rss_item (t g : string) : Element :=
  Elem "item" [] None
    [Elem "title" [] (Some t) []; Elem "guid" [] (Some g) []].

Definition rss_doc (items : list Element) : Element :=
  Elem "rss" [("version", "2.0")] None [Elem "channel" [] None items].

Definition source (name url : string) : json :=
  JDict [("name", JStr name); ("url", JStr url)].

Definition berlin_logic : json :=
  JDict [("locations", JList [JStr "Berlin"]);
         ("topics", JList [JStr "Stromausfall"])].

Definition empty_world : World :=
  {| files := ∅; seen_log := None; trace := [] |}.

(** Two feeds, one item each; the second one matches [berlin_logic]. *)
Definition feed_a : Element := rss_doc [rss_item "Wetter morgen" "a-1"].
Definition feed_b : Element :=
  rss_doc [rss_item "Stromausfall Berlin Mitte" "b-1"].

Definition two_feeds_parse (text : string) : option Element :=
  if String.eqb text "<rss>A</rss>" then Some feed_a
  else if String.eqb text "<rss>B</rss>" then Some feed_b
  else None.

Definition two_feeds_net (url : string) : result string :=
  if String.eqb url "http://a.example/feed" then Ok "<rss>A</rss>"
  else if String.eqb url "http://b.example/feed" then Ok "<rss>B</rss>"
  else Raise (Exn URLError "<urlopen error unreachable>").

Definition two_feeds_cfg : pydict :=
  [("enabled", JBool true);
   ("sources", JList [source "a" "http://a.example/feed";
                      source "b" "http://b.example/feed"]);
   ("match_logic", berlin_logic)].

(** A feed whose only item has a line feed inside its guid. *)
Definition broken_guid : string := "b-1" +:+ line_feed +:+ "rev2".
Definition feed_nl : Element :=
  rss_doc [rss_item "Stromausfall Berlin Mitte" broken_guid].

Definition nl_parse (text : string) : option Element :=
  if String.eqb text "<rss>NL</rss>" then Some feed_nl else None.

Definition nl_net (url : string) : result string :=
  if String.eqb url "http://b.example/feed" then Ok "<rss>NL</rss>"
  else Raise (Exn URLError "<urlopen error unreachable>").

Definition one_feed_cfg : pydict :=
  [("enabled", JBool true);
   ("prime_on_first_run", JBool false);
   ("sources", JList [source "b" "http://b.example/feed"]);
   ("match_logic", berlin_logic)].

(** A feed with a matching item followed by another item. *)
Definition feed_two_items : Element :=
  rss_doc [rss_item "Stromausfall Berlin Mitte" "b-1";
           rss_item "Wetter morgen" "b-2"].

Definition two_items_parse (text : string) : option Element :=
  if String.eqb text "<rss>B</rss>" then Some feed_two_items else None.

(** The write of the temporary status file fails when it comes right
    after a notification, as it does in the handling of a hit: the disk
    is full at that moment. *)
Definition full_after_notification (w : World) (op : io_op) : option exn :=
  match op, last (trace w) with
  | OpWriteText path, Some (EvOsascript _ _) =>
      if String.eqb path (tmp_path STATUS_PATH)
      then Some (Exn OSError "[Errno 28] No space left on device")
      else None
  | _, _ => None
  end.

(** A world whose seen-log already holds one line. *)
Definition used_world : World :=
  {| files := ∅; seen_log := Some ("old-1" +:+ line_feed); trace := [] |}.

(** A world whose configuration gives text for the interval. *)
Definition text_interval_world : World :=
  {| files := {[ CONFIG_PATH :=
                   Holds (JDict [("enabled", JBool true);
                                 ("check_interval_seconds", JStr "abc");
                                 ("sources", JList [])]) ]};
     seen_log := None; trace := [] |}.

(** A world whose configuration is [one_feed_cfg]. *)
Definition one_feed_world : World :=
  {| files := {[ CONFIG_PATH := Holds (JDict one_feed_cfg) ]};
     seen_log := Some ("old-1" +:+ line_feed); trace := [] |}.

(** A world whose configuration switches the service off. *)
Definition disabled_world : World :=
  {| files := {[ CONFIG_PATH :=
                   Holds (JDict [("enabled", JBool false);
                                 ("sources",
                                  JList [source "b" "http://b.example/feed"])]) ]};
     seen_log := Some ("old-1" +:+ line_feed); trace := [] |}.

(** A world whose configuration asks for an interval of two hours. *)
Definition long_interval_world : World :=
  {| files := {[ CONFIG_PATH :=
                   Holds (JDict [("enabled", JBool true);
                                 ("check_interval_seconds", JInt 7200);
                                 ("sources", JList [])]) ]};
     seen_log := None; trace := [] |}.

(** The network of [two_feeds_net] with a first feed of 27 bytes. *)
Definition long_feed : string := "<rss>A</rss><!-- padding -->".
Definition long_feed_net (url : string) : result string :=
  if String.eqb url "http://a.example/feed" then Ok long_feed
  else two_feeds_net url.

(** Two feeds and a cap of 12 bytes. *)
Definition capped_cfg : pydict :=
  [("enabled", JBool true);
   ("max_feed_bytes", JInt 12);
   ("sources", JList [source "a" "http://a.example/feed";
                      source "b" "http://b.example/feed"]);
   ("match_logic", berlin_logic)].

(** A parser that knows one document: it reads [text] as the tree
    [doc] and rejects every other text. *)
Definition reads_as (text : string) (doc : Element) (t : string)
    : option Element :=
  if String.eqb t text then Some doc else None.






(** An RSS document with an item of RSS and an element named [item] of
    another vocabulary, and its tree. *)
Definition mixed_feed : string :=
  "<rss version='2.0'><channel>"
  +:+ "<item><title>Stromausfall</title><guid>m-1</guid></item>"
  +:+ "<x:item xmlns:x='urn:example:shop'><x:title>Kerzen</x:title></x:item>"
  +:+ "</channel></rss>".

Definition mixed_tree : Element :=
  Elem "rss" [("version", "2.0")] None
    [Elem "channel" [] None
       [Elem "item" [] None
          [Elem "title" [] (Some "Stromausfall") [];
           Elem "guid" [] (Some "m-1") []];
        Elem "{urn:example:shop}item" [] None
          [Elem "{urn:example:shop}title" [] (Some "Kerzen") []]]].

(** A world whose configuration file holds a list, not an object. *)
Definition list_config_world : World :=
  {| files := {[ CONFIG_PATH := Holds (JList [JInt 1]) ]};
     seen_log := None; trace := [] |}.

End Scenario.

(* ================================================================= *)
(** * Properties *)

(* ================================================================= *)
(** ** Strings *)

Lemma append_nil_l (s : string) : EmptyString +:+ s = s.
Proof. reflexivity. Qed.

Lemma append_cons (c : ascii) (s t : string) :
  String c s +:+ t = String c (s +:+ t).
Proof. reflexivity. Qed.

Lemma startswith_spec (s p : string) :
  PyStr.startswith s p = true ↔ ∃ post, s = p +:+ post.
Proof.
  revert s. induction p as [|c p IH]; intros s; cbn [PyStr.startswith].
  - split; [intros _; by exists s | done].
  - destruct s as [|d s].
    + split; [done | intros [post H]; discriminate].
    + rewrite andb_true_iff, Ascii.eqb_eq, IH. split.
      * intros [-> [post ->]]. by exists post.
      * intros [post H]. rewrite append_cons in H.
        injection H as -> ->. split; [done | by exists post].
Qed.

Lemma contains_spec (s sub : string) :
  PyStr.contains s sub = true ↔ ∃ pre post, s = pre +:+ sub +:+ post.
Proof.
  induction s as [|c s IH]; cbn [PyStr.contains].
  - rewrite orb_false_r, startswith_spec. split.
    + intros [post H]. by exists EmptyString, post.
    + intros (pre & post & H). destruct pre; [by exists post | discriminate].
  - rewrite orb_true_iff, startswith_spec, IH. split.
    + intros [[post H] | (pre & post & H)].
      * by exists EmptyString, post.
      * exists (String c pre), post. by rewrite H.
    + intros (pre & post & H). destruct pre as [|d pre].
      * left. by exists post.
      * right. exists pre, post. rewrite append_cons in H. congruence.
Qed.

Lemma nonempty_true (s : string) : PyStr.nonempty s = true ↔ s ≠ EmptyString.
Proof. destruct s; simpl; split; congruence. Qed.

Lemma nonempty_lower (s : string) :
  PyStr.nonempty (PyStr.lower s) = PyStr.nonempty s.
Proof. by destruct s. Qed.

Lemma str_or_nonempty (a b : string) :
  b ≠ EmptyString → str_or a b ≠ EmptyString.
Proof.
  intros Hb. unfold str_or. destruct (PyStr.nonempty a) eqn:Ha; [|done].
  by apply nonempty_true.
Qed.

(* ================================================================= *)
(** ** Matcher *)

Section MatcherFacts.

Variable lib : Lib.

Lemma keyword_list_configured (logic : json) (key : string) :
  keyword_list lib logic key = map PyStr.lower <$> configured lib logic key.
Proof.
  unfold keyword_list, configured.
  destruct (obj_get logic key JNull) as [v|e]; [|done]. simpl.
  destruct (py_iter (py_or v (JList []))) as [items|e]; [|done]. simpl.
  by rewrite map_map.
Qed.

Lemma any_hit_spec (t : string) (ks : list string) :
  any_hit (PyStr.lower t) (map PyStr.lower ks) = true
  ↔ ∃ k, k ∈ ks ∧ k ≠ EmptyString ∧ ci_substring k t.
Proof.
  unfold any_hit. rewrite existsb_exists. split.
  - intros (kl & Hin & Hhit). apply in_map_iff in Hin as (k & <- & Hin).
    apply andb_true_iff in Hhit as [Hne Hsub].
    rewrite nonempty_lower in Hne. exists k. split; [by apply list_elem_of_In|].
    split; [by apply nonempty_true|]. by apply contains_spec.
  - intros (k & Hin & Hne & Hsub). exists (PyStr.lower k).
    split; [apply in_map; by apply list_elem_of_In|].
    apply andb_true_iff. rewrite nonempty_lower. split.
    + by apply nonempty_true.
    + by apply contains_spec.
Qed.

Lemma any_hit_none (t : string) (ks : list string) :
  any_hit (PyStr.lower t) (map PyStr.lower ks) = false
  ↔ ∀ k, k ∈ ks → k ≠ EmptyString → ¬ ci_substring k t.
Proof.
  rewrite <- not_true_iff_false, any_hit_spec. split.
  - intros H k Hin Hne Hsub. apply H. by exists k.
  - intros H (k & Hin & Hne & Hsub). by apply (H k).
Qed.

(** The empty keywords of a list take no part in [any_hit]. *)
Lemma any_hit_kept (tl : string) (ks : list string) :
  any_hit tl (map PyStr.lower (filter (fun k => PyStr.nonempty k = true) ks))
  = any_hit tl (map PyStr.lower ks).
Proof.
  unfold any_hit. induction ks as [|k ks IH]; [done|].
  rewrite filter_cons.
  destruct (decide (PyStr.nonempty k = true)) as [Hk|Hk]; simpl.
  - by rewrite IH.
  - rewrite IH, nonempty_lower. apply not_true_is_false in Hk. by rewrite Hk.
Qed.

(** What [match] returns once its five readings of the configuration
    have succeeded. *)
Lemma match_reads (t : string) (cfg : pydict)
    (negs locs tops : list string) (req_loc req_topic : bool) :
  let logic := py_or (py_get cfg "match_logic") (JDict []) in
  configured lib logic "negative_keywords" = Ok negs →
  configured lib logic "locations" = Ok locs →
  configured lib logic "topics" = Ok tops →
  required logic "require_one_location" = Ok req_loc →
  required logic "require_one_topic" = Ok req_topic →
  match_ lib t cfg =
    Ok (negb (any_hit (PyStr.lower t) (map PyStr.lower negs))
        && (negb req_loc || any_hit (PyStr.lower t) (map PyStr.lower locs))
        && (negb req_topic || any_hit (PyStr.lower t) (map PyStr.lower tops))).
Proof.
  intros logic Hn Hl Ht Hrl Hrt. unfold match_. fold logic.
  rewrite !keyword_list_configured, Hn, Hl, Ht. simpl.
  unfold required in Hrl, Hrt.
  destruct (obj_get logic "require_one_location" (JBool true)) as [rl|]; [|done].
  destruct (obj_get logic "require_one_topic" (JBool true)) as [rt|]; [|done].
  simpl in Hrl, Hrt. injection Hrl as <-. injection Hrt as <-.
  destruct (any_hit _ (map _ negs)); [done|]. simpl.
  destruct (truthy rl), (any_hit _ (map _ locs)); simpl; try done;
    destruct (truthy rt), (any_hit _ (map _ tops)); done.
Qed.

End MatcherFacts.

Lemma configured_absent (lib : Lib) (d : pydict) (key : string) :
  dict_get d key = None ∨ dict_get d key = Some (JList []) →
  configured lib (JDict d) key = Ok [].
Proof.
  intros H. unfold configured, obj_get, py_get_default.
  by destruct H as [-> | ->].
Qed.

(** C2, amended. For every title and every configuration whose three
    keyword lists and two flags can be read, [match] returns a boolean,
    and it returns true exactly when no non-empty negative keyword occurs
    in the title (case ignored), a non-empty location keyword occurs if
    one is required, and a non-empty topic keyword occurs if one is
    required. Empty keywords count for nothing. *)
Theorem match_iff (lib : Lib) (t : string) (cfg : pydict)
    (negs locs tops : list string) (req_loc req_topic : bool) :
  let logic := py_or (py_get cfg "match_logic") (JDict []) in
  configured lib logic "negative_keywords" = Ok negs →
  configured lib logic "locations" = Ok locs →
  configured lib logic "topics" = Ok tops →
  required logic "require_one_location" = Ok req_loc →
  required logic "require_one_topic" = Ok req_topic →
  ∃ b, match_ lib t cfg = Ok b
       ∧ (b = true ↔ spec_match_nonempty negs locs tops req_loc req_topic t).
Proof.
  intros logic Hn Hl Ht Hrl Hrt.
  rewrite (match_reads lib t cfg negs locs tops req_loc req_topic)
    by assumption.
  eexists. split; [reflexivity|].
  rewrite !andb_true_iff, !orb_true_iff, !negb_true_iff.
  rewrite any_hit_none, !any_hit_spec. unfold spec_match_nonempty.
  split.
  - intros [[Hneg Hloc] Htop]. split; [exact Hneg|]. split.
    + intros ->. by destruct Hloc.
    + intros ->. by destruct Htop.
  - intros (Hneg & Hloc & Htop). split; [split; [exact Hneg|]|].
    + destruct req_loc; [right; by apply Hloc | by left].
    + destruct req_topic; [right; by apply Htop | by left].
Qed.

(** Witness of [match_iff]: the scenario of the specification. *)
Lemma match_iff_witness :
  ∃ b, match_ (Scenario.lib_with (fun _ => None)) "Stromausfall Berlin Mitte"
         [("match_logic", Scenario.berlin_logic)] = Ok b
       ∧ (b = true ↔ spec_match_nonempty [] ["Berlin"] ["Stromausfall"]
                        true true "Stromausfall Berlin Mitte").
Proof.
  apply (match_iff (Scenario.lib_with (fun _ => None))
           "Stromausfall Berlin Mitte" [("match_logic", Scenario.berlin_logic)]);
    reflexivity.
Defined.

(** C2, counterexample. With the empty string as the only location
    keyword, the rule as the specification words it accepts the title
    (the empty string occurs in every title), and [match] rejects it. *)
Lemma match_spec_counterexample :
  let L := Scenario.lib_with (fun _ => None) in
  let cfg := [("match_logic",
               JDict [("locations", JList [JStr ""]);
                      ("topics", JList [JStr "Stromausfall"])])] in
  let logic := py_or (py_get cfg "match_logic") (JDict []) in
  ¬ (∀ negs locs tops req_loc req_topic,
       configured L logic "negative_keywords" = Ok negs →
       configured L logic "locations" = Ok locs →
       configured L logic "topics" = Ok tops →
       required logic "require_one_location" = Ok req_loc →
       required logic "require_one_topic" = Ok req_topic →
       (match_ L "Stromausfall Mitte" cfg = Ok true
        ↔ spec_match negs locs tops req_loc req_topic "Stromausfall Mitte")).
Proof.
  intros L cfg logic H.
  specialize (H [] [""] ["Stromausfall"] true true
                eq_refl eq_refl eq_refl eq_refl eq_refl).
  assert (Hcode : match_ L "Stromausfall Mitte" cfg = Ok false) by reflexivity.
  rewrite Hcode in H. destruct H as [_ H].
  enough (Ok false = Ok true :> result bool) by discriminate.
  apply H. split; [|split].
  - intros n Hn. by apply elem_of_nil in Hn.
  - intros _. exists "". split; [apply list_elem_of_here|].
    by exists "", "stromausfall mitte".
  - intros _. exists "Stromausfall". split; [apply list_elem_of_here|].
    by exists "", " mitte".
Qed.

(** C10. With a location required (the default) and no location
    configured (the list absent or empty), [match] returns false for
    every title, whatever the topics and the negatives; the same with a
    topic required and no topic configured; hence it returns false when
    the match logic is absent or empty. Empty keywords are ignored: two
    configurations whose keyword lists differ by empty strings only give
    the same answer. *)
Theorem match_needs_keywords (lib : Lib) (t : string) (cfg : pydict) :
  let logic := py_or (py_get cfg "match_logic") (JDict []) in
  (∀ d negs tops,
     logic = JDict d →
     dict_get d "locations" = None ∨ dict_get d "locations" = Some (JList []) →
     truthy (py_get_default d "require_one_location" (JBool true)) = true →
     configured lib logic "negative_keywords" = Ok negs →
     configured lib logic "topics" = Ok tops →
     match_ lib t cfg = Ok false)
  ∧ (∀ d negs locs,
       logic = JDict d →
       dict_get d "topics" = None ∨ dict_get d "topics" = Some (JList []) →
       truthy (py_get_default d "require_one_topic" (JBool true)) = true →
       configured lib logic "negative_keywords" = Ok negs →
       configured lib logic "locations" = Ok locs →
       match_ lib t cfg = Ok false)
  ∧ (logic = JDict [] → match_ lib t cfg = Ok false)
  ∧ (∀ cfg' negs locs tops negs' locs' tops' req_loc req_topic,
       let logic' := py_or (py_get cfg' "match_logic") (JDict []) in
       let kept := filter (fun k => PyStr.nonempty k = true) in
       configured lib logic "negative_keywords" = Ok negs →
       configured lib logic "locations" = Ok locs →
       configured lib logic "topics" = Ok tops →
       configured lib logic' "negative_keywords" = Ok negs' →
       configured lib logic' "locations" = Ok locs' →
       configured lib logic' "topics" = Ok tops' →
       required logic "require_one_location" = Ok req_loc →
       required logic "require_one_topic" = Ok req_topic →
       required logic' "require_one_location" = Ok req_loc →
       required logic' "require_one_topic" = Ok req_topic →
       kept negs = kept negs' → kept locs = kept locs' → kept tops = kept tops' →
       match_ lib t cfg = match_ lib t cfg').
Proof.
  intros logic. repeat split.
  - intros d negs tops Hd Hloc Hreq Hn Ht.
    assert (Hl : configured lib logic "locations" = Ok [])
      by (rewrite Hd; by apply configured_absent).
    rewrite (match_reads lib t cfg negs [] tops true
               (truthy (py_get_default d "require_one_topic" (JBool true))));
      try assumption.
    + simpl. by rewrite andb_false_r.
    + fold logic. rewrite Hd. unfold required. simpl. by rewrite Hreq.
    + fold logic. by rewrite Hd.
  - intros d negs locs Hd Htop Hreq Hn Hl.
    assert (Ht : configured lib logic "topics" = Ok [])
      by (rewrite Hd; by apply configured_absent).
    rewrite (match_reads lib t cfg negs locs [] 
               (truthy (py_get_default d "require_one_location" (JBool true)))
               true);
      try assumption.
    + simpl. by rewrite andb_false_r.
    + fold logic. by rewrite Hd.
    + fold logic. rewrite Hd. unfold required. simpl. by rewrite Hreq.
  - intros Hnone. unfold match_. fold logic. by rewrite Hnone.
  - intros cfg' negs locs tops negs' locs' tops' req_loc req_topic logic' kept
      Hn Hl Ht Hn' Hl' Ht' Hrl Hrt Hrl' Hrt' En El Et.
    rewrite (match_reads lib t cfg negs locs tops req_loc req_topic)
      by assumption.
    rewrite (match_reads lib t cfg' negs' locs' tops' req_loc req_topic)
      by assumption.
    assert (Hk : ∀ ks ks', kept ks = kept ks' →
                 any_hit (PyStr.lower t) (map PyStr.lower ks)
                 = any_hit (PyStr.lower t) (map PyStr.lower ks')).
    { intros ks ks' E.
      rewrite <- (any_hit_kept (PyStr.lower t) ks).
      rewrite <- (any_hit_kept (PyStr.lower t) ks').
      unfold kept in E. by rewrite E. }
    by rewrite (Hk _ _ En), (Hk _ _ El), (Hk _ _ Et).
Qed.

(** Witness of [match_needs_keywords]: a configuration with topics and
    no locations rejects a title that holds a topic; with empty match
    logic every title is rejected; an empty negative keyword does not
    reject. *)
Lemma match_needs_keywords_witness :
  let L := Scenario.lib_with (fun _ => None) in
  match_ L "Stromausfall Berlin"
    [("match_logic", JDict [("topics", JList [JStr "Stromausfall"])])] = Ok false
  ∧ match_ L "Stromausfall Berlin" [("enabled", JBool true)] = Ok false
  ∧ match_ L "Stromausfall Berlin"
      [("match_logic", JDict [("locations", JList [JStr "Berlin"; JStr ""]);
                              ("topics", JList [JStr "Stromausfall"]);
                              ("negative_keywords", JList [JStr ""])])]
    = match_ L "Stromausfall Berlin" [("match_logic", Scenario.berlin_logic)].
Proof.
  intros L. split; [|split].
  - eapply (proj1 (match_needs_keywords L "Stromausfall Berlin" _)
              [("topics", JList [JStr "Stromausfall"])] [] ["Stromausfall"]);
      first [reflexivity | by left].
  - apply (proj1 (proj2 (proj2 (match_needs_keywords L "Stromausfall Berlin"
                                  [("enabled", JBool true)])))).
    reflexivity.
  - apply (proj2 (proj2 (proj2 (match_needs_keywords L "Stromausfall Berlin"
             [("match_logic",
               JDict [("locations", JList [JStr "Berlin"; JStr ""]);
                      ("topics", JList [JStr "Stromausfall"]);
                      ("negative_keywords", JList [JStr ""])])])))
             [("match_logic", Scenario.berlin_logic)]
             [""] ["Berlin"; ""] ["Stromausfall"] [] ["Berlin"] ["Stromausfall"]
             true true);
      reflexivity.
Defined.

(* ================================================================= *)
(** ** Dictionaries *)

Lemma dict_get_set_eq (d : pydict) (k : string) (v : json) :
  dict_get (dict_set d k v) k = Some v.
Proof.
  induction d as [|[k' v'] d IH]; simpl.
  - by rewrite String.eqb_refl.
  - destruct (String.eqb k' k) eqn:E; simpl; by rewrite E.
Qed.

Lemma dict_get_set_ne (d : pydict) (k k' : string) (v : json) :
  k ≠ k' → dict_get (dict_set d k v) k' = dict_get d k'.
Proof.
  intros Hne. induction d as [|[k0 v0] d IH]; simpl.
  - destruct (String.eqb k k') eqn:E; [|done].
    apply String.eqb_eq in E. congruence.
  - destruct (String.eqb k0 k) eqn:E; simpl.
    + apply String.eqb_eq in E as ->.
      destruct (String.eqb k k') eqn:E'; [|done].
      apply String.eqb_eq in E'. congruence.
    + by rewrite IH.
Qed.

Lemma dict_get_None_keys (d : pydict) (k : string) :
  dict_get d k = None ↔ k ∉ d.*1.
Proof.
  induction d as [|[k0 v0] d IH]; simpl.
  - split; [intros _; apply not_elem_of_nil | done].
  - rewrite not_elem_of_cons. destruct (String.eqb k0 k) eqn:E.
    + apply String.eqb_eq in E as ->. split; [done | by intros [? _]].
    + apply String.eqb_neq in E. rewrite IH. split; [|by intros [_ ?]].
      intros H. split; [congruence | done].
Qed.

(** A key the update does not mention keeps its value. *)
Lemma dict_update_old (d new : pydict) (k : string) :
  dict_get new k = None → dict_get (dict_update d new) k = dict_get d k.
Proof.
  unfold dict_update. revert d.
  induction new as [|[k0 v0] new IH]; intros d Hnone; simpl in *; [done|].
  destruct (String.eqb k0 k) eqn:E; [done|].
  apply String.eqb_neq in E. rewrite IH by done. by apply dict_get_set_ne.
Qed.

(** A key the update mentions takes the value it gives. *)
Lemma dict_update_new (d new : pydict) (k : string) (v : json) :
  NoDup new.*1 → dict_get new k = Some v →
  dict_get (dict_update d new) k = Some v.
Proof.
  unfold dict_update. revert d.
  induction new as [|[k0 v0] new IH]; intros d Hnd Hget; simpl in *; [done|].
  apply NoDup_cons in Hnd as [Hnotin Hnd].
  destruct (String.eqb k0 k) eqn:E.
  - apply String.eqb_eq in E as ->. injection Hget as ->.
    apply dict_get_None_keys in Hnotin.
    pose proof (dict_update_old (dict_set d k v) new k Hnotin) as H.
    unfold dict_update in H. rewrite H. apply dict_get_set_eq.
  - by apply IH.
Qed.

(* ================================================================= *)
(** ** Configuration and status files *)

Section FileFacts.

Variable env : Env.

(** C8. When the configuration file is absent, or holds text that is no
    JSON, or holds a JSON value that is not an object, or cannot be read,
    [load_config] returns the default configuration, in which [enabled]
    is true and [sources] is the empty list. [load_config] is a total
    function: it raises in no case. *)
Theorem load_config_defaults (w : World) :
  files w !! CONFIG_PATH = None
  ∨ files w !! CONFIG_PATH = Some Corrupt
  ∨ (∃ j, files w !! CONFIG_PATH = Some (Holds j) ∧ ∀ d, j ≠ JDict d)
  ∨ (∃ e, io_fault env w (OpReadText CONFIG_PATH) = Some e) →
  load_config env w = default_config
  ∧ dict_get (load_config env w) "enabled" = Some (JBool true)
  ∧ dict_get (load_config env w) "sources" = Some (JList []).
Proof.
  intros H.
  assert (E : load_config env w = default_config).
  { unfold load_config, path_exists, safe_read_json.
    destruct H as [-> | [-> | [(j & -> & Hj) | [e ->]]]].
    - done.
    - by destruct (io_fault env w (OpReadText CONFIG_PATH)).
    - destruct (io_fault env w (OpReadText CONFIG_PATH)); [done|].
      destruct j; try done. by destruct (Hj d).
    - by destruct (files w !! CONFIG_PATH). }
  rewrite E. done.
Qed.

(** [update_status] when its two steps succeed. *)
Lemma update_status_ok (w : World) (kwargs : pydict) :
  io_fault env w (OpWriteText (tmp_path STATUS_PATH)) = None →
  (∀ w1, io_fault env w1 (OpReplace (tmp_path STATUS_PATH) STATUS_PATH) = None) →
  update_status env kwargs w = (Ok tt, status_written env kwargs w).
Proof.
  intros Hw Hr. unfold update_status, write_json_atomic.
  rewrite Hw, Hr. simpl. rewrite lookup_insert_eq.
  unfold status_written, previous_status, emit, set_files. simpl.
  by rewrite <- app_assoc.
Qed.

(** [update_status] when the temporary file cannot be written: it
    raises and nothing has changed. *)
Lemma update_status_fault (w : World) (kwargs : pydict) (x : exn) :
  io_fault env w (OpWriteText (tmp_path STATUS_PATH)) = Some x →
  update_status env kwargs w = (Raise x, w).
Proof. intros Hw. unfold update_status, write_json_atomic. by rewrite Hw. Qed.

(** C7. When the two steps of the write succeed, [update_status] leaves
    in the status file the previous status merged with the new fields:
    a key of the new fields has its new value, every other key has the
    value it had. The previous status is the object the file held, and
    is empty when the file was absent or unusable. The write goes to the
    temporary path, which is then renamed over the status path; nothing
    else is written. *)
Theorem update_status_merge (w : World) (kwargs : pydict) :
  let tmp := tmp_path STATUS_PATH in
  let old := previous_status env w in
  NoDup kwargs.*1 →
  io_fault env w (OpWriteText tmp) = None →
  (∀ w1, io_fault env w1 (OpReplace tmp STATUS_PATH) = None) →
  (∀ d, files w !! STATUS_PATH = Some (Holds (JDict d)) →
        io_fault env w (OpReadText STATUS_PATH) = None → old = d)
  ∧ (files w !! STATUS_PATH = None → old = [])
  ∧ (files w !! STATUS_PATH = Some Corrupt → old = [])
  ∧ ∃ merged w',
      update_status env kwargs w = (Ok tt, w')
      ∧ files w' !! STATUS_PATH = Some (Holds (JDict merged))
      ∧ (∀ k v, dict_get kwargs k = Some v → dict_get merged k = Some v)
      ∧ (∀ k, dict_get kwargs k = None → dict_get merged k = dict_get old k)
      ∧ trace w' = (trace w ++ [EvWriteText tmp merged;
                                EvReplace tmp STATUS_PATH])%list
      ∧ files w' !! tmp = None
      ∧ (∀ p, p ≠ STATUS_PATH → p ≠ tmp → files w' !! p = files w !! p)
      ∧ seen_log w' = seen_log w.
Proof.
  intros tmp old Hnd Hw Hr. split; [|split; [|split]].
  - intros d Hd Hread. unfold old, previous_status, path_exists, safe_read_json.
    by rewrite Hd, Hread.
  - intros Hnone. unfold old, previous_status, path_exists. by rewrite Hnone.
  - intros Hc. unfold old, previous_status, path_exists, safe_read_json.
    rewrite Hc. by destruct (io_fault env w (OpReadText STATUS_PATH)).
  - exists (dict_update old kwargs), (status_written env kwargs w).
    split; [by apply update_status_ok|]. simpl.
    split; [by rewrite lookup_insert_eq|].
    split; [intros k v; by apply dict_update_new|].
    split; [intros k; by apply dict_update_old|].
    split; [done|].
    split; [|split; [|done]].
    + rewrite lookup_insert_ne by done. by rewrite lookup_delete_eq.
    + intros p Hp Hp'. rewrite lookup_insert_ne by done.
      rewrite lookup_delete_ne by done. by rewrite lookup_insert_ne.
Qed.

End FileFacts.

(** Witness of [load_config_defaults]: a configuration file that holds a
    list. *)
Lemma load_config_defaults_witness :
  load_config (Scenario.env_with Scenario.two_feeds_net Scenario.no_fault)
    Scenario.list_config_world = default_config
  ∧ dict_get (load_config (Scenario.env_with Scenario.two_feeds_net
                             Scenario.no_fault)
                Scenario.list_config_world) "enabled" = Some (JBool true)
  ∧ dict_get (load_config (Scenario.env_with Scenario.two_feeds_net
                             Scenario.no_fault)
                Scenario.list_config_world) "sources" = Some (JList []).
Proof.
  apply load_config_defaults. right. right. left.
  exists (JList [JInt 1]). split; [reflexivity | discriminate].
Defined.

(** Witness of [update_status_merge]: a status file that holds [pid] and
    [ok], updated with a new [ok]. *)
Lemma update_status_merge_witness :
  let env := Scenario.env_with Scenario.two_feeds_net Scenario.no_fault in
  let w := {| files := {[ STATUS_PATH :=
                            Holds (JDict [("pid", JInt 7); ("ok", JBool false)]) ]};
              seen_log := None; trace := [] |} in
  ∃ merged w',
    update_status env [("ok", JBool true)] w = (Ok tt, w')
    ∧ files w' !! STATUS_PATH = Some (Holds (JDict merged))
    ∧ dict_get merged "ok" = Some (JBool true)
    ∧ dict_get merged "pid" = Some (JInt 7).
Proof.
  intros env w.
  destruct (update_status_merge env w [("ok", JBool true)])
    as (Hold & _ & _ & merged & w' & Hrun & Hfile & Hnew & Hkeep & _).
  - apply NoDup_singleton.
  - reflexivity.
  - reflexivity.
  - exists merged, w'. split; [exact Hrun|]. split; [exact Hfile|].
    split; [apply Hnew; reflexivity|].
    rewrite Hkeep by reflexivity.
    rewrite (Hold [("pid", JInt 7); ("ok", JBool false)]); reflexivity.
Defined.

(* ================================================================= *)
(** ** Parser *)

Lemma rss_entry_title (src : string) (it : Element) :
  title (rss_entry src it) ≠ EmptyString.
Proof. by apply str_or_nonempty. Qed.


Lemma plain_item_matches (t : string) :
  Xml.tag_matches "item" t = String.eqb t "item".
Proof. reflexivity. Qed.

Lemma any_item_matches (t : string) :
  Xml.tag_matches "{*}item" t
  = String.eqb t "item" || PyStr.endswith t "}item".
Proof. reflexivity. Qed.

(** The items the RSS branch walks are all the items of an RSS
    document. *)
Lemma rss_items_all (root : Element) :
  Forall (fun e => el_tag e = "item") (item_elements root)
  ∨ Forall (fun e => el_tag e ≠ "item") (item_elements root) →
  rss_items root = item_elements root.
Proof.
  unfold rss_items, item_elements, Xml.findall_below.
  generalize (Xml.descendants root). intros l [Hall | Hnone].
  - assert (E : filter (fun c => Xml.tag_matches "item" (el_tag c) = true) l
                = filter (fun c => Xml.tag_matches "{*}item" (el_tag c) = true) l).
    { induction l as [|x l IH]; [done|].
      rewrite !filter_cons in *.
      destruct (decide (Xml.tag_matches "{*}item" (el_tag x) = true)) as [Hx|Hx].
      - apply Forall_cons in Hall as [Htag Hall].
        rewrite decide_True by (by rewrite Htag). by rewrite IH.
      - rewrite decide_False; [by apply IH|].
        intros Hp. apply Hx. rewrite any_item_matches.
        rewrite plain_item_matches in Hp. by rewrite Hp. }
    rewrite E. by destruct (filter _ l).
  - assert (E : filter (fun c => Xml.tag_matches "item" (el_tag c) = true) l = []).
    { induction l as [|x l IH]; [done|].
      rewrite !filter_cons in *.
      destruct (decide (Xml.tag_matches "{*}item" (el_tag x) = true)) as [Hx|Hx].
      - apply Forall_cons in Hnone as [Htag Hnone].
        rewrite decide_False; [by apply IH|].
        rewrite plain_item_matches. intros Hp. by apply String.eqb_eq in Hp.
      - rewrite decide_False; [by apply IH|].
        intros Hp. apply Hx. rewrite any_item_matches.
        rewrite plain_item_matches in Hp. by rewrite Hp. }
    by rewrite E.
Qed.

(* ================================================================= *)
(** ** Computations that keep a relation between frames *)

Section Keeps.

Context {S : Type} (R : S → S → Prop).
Hypothesis R_refl : ∀ s, R s s.
Hypothesis R_trans : ∀ s1 s2 s3, R s1 s2 → R s2 s3 → R s1 s3.

Lemma keeps_ret {A} (a : A) : keeps R (mret a : SE S A).
Proof. intros s r s' H. injection H as _ <-. apply R_refl. Qed.

Lemma keeps_lift {A} (x : result A) : keeps R (se_lift x : SE S A).
Proof. intros s r s' H. injection H as _ <-. apply R_refl. Qed.

Lemma keeps_gets {A} (g : S → A) : keeps R (se_gets g).
Proof. intros s r s' H. injection H as _ <-. apply R_refl. Qed.

Lemma keeps_modify (g : S → S) : (∀ s, R s (g s)) → keeps R (se_modify g).
Proof. intros Hg s r s' H. injection H as _ <-. apply Hg. Qed.

Lemma keeps_bind {A B} (m : SE S A) (k : A → SE S B) :
  keeps R m → (∀ a, keeps R (k a)) → keeps R (m ≫= k).
Proof.
  intros Hm Hk s r s' H. unfold mbind, se_bind in H.
  destruct (m s) as [[a|e] s1] eqn:Em.
  - eapply R_trans; [by eapply Hm | by eapply Hk].
  - injection H as _ <-. by eapply Hm.
Qed.

Lemma keeps_try {A} (m : SE S A) (h : exn → SE S A) :
  keeps R m → (∀ e, keeps R (h e)) → keeps R (try_except m h).
Proof.
  intros Hm Hh s r s' H. unfold try_except in H.
  destruct (m s) as [[a|e] s1] eqn:Em.
  - injection H as _ <-. by eapply Hm.
  - eapply R_trans; [by eapply Hm | by eapply Hh].
Qed.

Lemma keeps_for_each {A} (body : A → SE S unit) (l : list A) :
  (∀ x, keeps R (body x)) → keeps R (for_each body l).
Proof.
  intros Hb. induction l as [|x l IH]; simpl.
  - apply keeps_ret.
  - apply keeps_bind; [apply Hb | intros _; apply IH].
Qed.

End Keeps.

Lemma for_each_app {S A} (body : A → SE S unit) (l1 l2 : list A) (s : S) :
  for_each body (l1 ++ l2) s
  = match for_each body l1 s with
    | (Ok _, s1) => for_each body l2 s1
    | (Raise e, s1) => (Raise e, s1)
    end.
Proof.
  revert s. induction l1 as [|x l1 IH]; intros s; simpl; [done|].
  unfold mbind, se_bind. destruct (body x s) as [[[]|e] s1]; [apply IH | done].
Qed.

(* ================================================================= *)
(** ** The cycle *)

Section CycleFacts.

Variable lib : Lib.
Variable env : Env.

(** A relation on frames that does not look at the world is kept by
    whatever runs on the world. *)
Lemma keeps_in_world {A} (R : Frame → Frame → Prop) (m : SE World A) :
  (∀ f w, R f (set_world f w)) → keeps R (in_world m).
Proof.
  intros HR f r f' H. unfold in_world in H.
  destruct (m (world f)) as [r0 w]. injection H as _ <-. apply HR.
Qed.

Lemma same_locals_refl (f : Frame) : same_locals f f.
Proof. done. Qed.

Lemma same_locals_trans (f1 f2 f3 : Frame) :
  same_locals f1 f2 → same_locals f2 f3 → same_locals f1 f3.
Proof. unfold same_locals. intros [? ?] [? ?]. split; congruence. Qed.

Lemma source_body_locals (cfg : pydict) (p : Params) (name url : string) :
  keeps same_locals (source_body lib env cfg p name url).
Proof.
  pose proof same_locals_refl as Hrefl. pose proof same_locals_trans as Htrans.
  assert (Hw : ∀ A (m : SE World A), keeps same_locals (in_world m))
    by (intros; by apply keeps_in_world).
  unfold source_body.
  apply keeps_bind; [done | apply Hw | intros data].
  apply keeps_bind; [done | | intros entries].
  { destruct (looks_like_html data); [by apply keeps_lift | by apply keeps_ret]. }
  apply keeps_bind; [done | by apply keeps_modify | intros _].
  apply keeps_bind; [done | by apply keeps_gets | intros fresh].
  destruct (fresh && _).
  - apply keeps_bind; [done | | intros _; apply Hw].
    apply keeps_for_each; [done | done | intros e].
    apply keeps_modify. intros f. by destruct (bool_decide _).
  - apply keeps_for_each; [done | done | intros e]. unfold process_entry.
    apply keeps_bind; [done | by apply keeps_gets | intros known].
    destruct known; [by apply keeps_ret|].
    apply keeps_bind; [done | by apply keeps_lift | intros m].
    apply keeps_bind; [done | | intros _; by apply keeps_modify].
    destruct m; [|by apply keeps_ret]. unfold handle_hit.
    apply keeps_bind; [done | by apply keeps_modify | intros _].
    apply keeps_bind; [done | apply Hw | intros _].
    apply keeps_bind; [done | apply Hw | intros _]. apply Hw.
Qed.

(** What one turn of the loop over the sources does to the locals: a
    source without URL is skipped; a source with a URL is counted, and
    [last_error] changes only if the source fails. The turn itself raises
    only when the source is no object. *)
Lemma process_source_locals (cfg : pydict) (p : Params) (src : json) (f : Frame) :
  well_formed_source src →
  ∃ f', process_source lib env cfg p src f = (Ok tt, f')
        ∧ checked f' = checked f + (if has_url lib src then 1 else 0)
        ∧ (last_error f' = last_error f ∨ is_Some (last_error f')).
Proof.
  intros [d Hd].
  unfold process_source, has_url, source_field, mbind, se_bind, se_lift.
  rewrite Hd. simpl.
  destruct (PyStr.nonempty _); simpl; [|by exists f; auto with lia].
  unfold try_except, se_modify.
  destruct (source_body lib env cfg p _ _ (add_checked f)) as [[[]|e] f1] eqn:E.
  - exists f1. apply source_body_locals in E as [E1 E2]. auto.
  - apply source_body_locals in E as [E1 E2].
    eexists. split; [reflexivity|]. simpl. split; [by rewrite E1 | by right].
Qed.

Lemma run_sources_locals (cfg : pydict) (p : Params) (srcs : list json)
    (f : Frame) :
  Forall well_formed_source srcs →
  ∃ f', run_sources lib env cfg p srcs f = (Ok tt, f')
        ∧ checked f' = checked f + count_urls lib srcs
        ∧ (is_Some (last_error f) → is_Some (last_error f')).
Proof.
  unfold run_sources. intros Hwf. revert f.
  induction Hwf as [|s srcs Hs _ IH]; intros f; simpl.
  - exists f. auto with lia.
  - destruct (process_source_locals cfg p s f Hs) as (f1 & E & Hc & He).
    destruct (IH f1) as (f2 & E2 & Hc2 & He2).
    exists f2. unfold mbind, se_bind. rewrite E.
    split; [done|]. split; [lia|].
    intros Hsome. apply He2. destruct He as [-> | ?]; done.
Qed.

End CycleFacts.

Section Oversized.

Variable lib : Lib.
Variable env : Env.

Lemma notifications_emit (ev : event) (w : World) :
  notifications (emit ev w)
  = (notifications w
     ++ match ev with EvOsascript s _ => [s] | _ => [] end)%list.
Proof. unfold notifications, emit. simpl. rewrite omap_app. by destruct ev. Qed.

Lemma notifications_log (msg : string) (w : World) :
  notifications (log env msg w) = notifications w.
Proof. unfold log. rewrite notifications_emit. apply app_nil_r. Qed.

(** The byte cap among the values [run_once] reads. *)
Lemma read_params_max_bytes (cfg : pydict) (p : Params) :
  read_params lib cfg = Ok p →
  py_int lib (py_or (py_get cfg "max_feed_bytes") (JInt 2000000))
  = Ok (max_bytes p).
Proof.
  unfold read_params.
  destruct (py_int lib (py_or (py_get cfg "request_timeout_seconds") _))
    as [t|]; [|done].
  destruct (py_int lib (py_or (py_get cfg "max_feed_bytes") _)) as [m|]; [|done].
  simpl.
  destruct (obj_get _ "title" JNull); [|done].
  destruct (obj_get _ "sound" JNull); [|done].
  destruct (obj_get _ "show_link_in_body" (JBool true)); [|done].
  simpl. by intros [= <-].
Qed.

End Oversized.

(* ================================================================= *)
(** ** Entries, priming and the guard of the loop *)

Section EntryFacts.

Variable lib : Lib.
Variable env : Env.

Lemma notifications_notify (t b : string) (s : option string) (w : World) :
  notifications (notify env t b s w)
  = (notifications w ++ [notify_script t b])%list.
Proof.
  unfold notify. destruct s; rewrite ?notifications_emit; simpl;
    by rewrite ?app_nil_r.
Qed.

Lemma seen_log_notify (t b : string) (s : option string) (w : World) :
  seen_log (notify env t b s w) = seen_log w.
Proof. unfold notify. by destruct s. Qed.

Lemma notifications_append_seen (u : string) (w : World) :
  notifications (append_seen env u w) = notifications w.
Proof. unfold append_seen. by destruct (io_fault env w OpAppendSeen). Qed.

Lemma notifications_status_written (kwargs : pydict) (w : World) :
  notifications (status_written env kwargs w) = notifications w.
Proof.
  unfold notifications, status_written. simpl. rewrite omap_app. simpl.
  apply app_nil_r.
Qed.

(** An entry whose uid is in the set is skipped: nothing is matched,
    notified or written. *)
Lemma process_entry_known (cfg : pydict) (p : Params) (name : string)
    (e : Entry) (f : Frame) :
  uid e ∈ seen f → process_entry lib env cfg p name e f = (Ok tt, f).
Proof.
  intros Hin. unfold process_entry, mbind, se_bind, se_gets.
  by rewrite bool_decide_eq_true_2.
Qed.

(** An entry that does not match is marked seen and nothing else. *)
Lemma process_entry_miss (cfg : pydict) (p : Params) (name : string)
    (e : Entry) (f : Frame) :
  uid e ∉ seen f →
  match_ lib (title e) cfg = Ok false →
  process_entry lib env cfg p name e f = (Ok tt, mark_seen env (uid e) f).
Proof.
  intros Hnew Hm. unfold process_entry, mbind, se_bind, se_gets, se_lift.
  rewrite bool_decide_eq_false_2 by done. by rewrite Hm.
Qed.

(** A matched entry, when the status file can be written: one
    notification is tried and the uid is marked seen, whether or not the
    notification commands and the write to the seen-log fail. *)
Lemma process_entry_hit (cfg : pydict) (p : Params) (name : string)
    (e : Entry) (f : Frame) :
  status_writable env →
  uid e ∉ seen f →
  match_ lib (title e) cfg = Ok true →
  ∃ f', process_entry lib env cfg p name e f = (Ok tt, f')
        ∧ seen f' = {[uid e]} ∪ seen f
        ∧ hits f' = hits f + 1
        ∧ notifications (world f')
          = (notifications (world f)
             ++ [notify_script (notif_title p) (hit_body p e)])%list.
Proof.
  intros Hst Hnew Hm. eexists.
  unfold process_entry, mbind, se_bind, se_gets, se_lift.
  rewrite bool_decide_eq_false_2 by done. rewrite Hm.
  unfold handle_hit, mbind, se_bind, in_world, se_modify, se_get. simpl.
  rewrite update_status_ok by apply Hst. simpl.
  split; [reflexivity|]. split; [done|]. split; [done|].
  unfold mark_seen, set_world. simpl.
  rewrite notifications_append_seen, notifications_status_written.
  by rewrite notifications_notify, notifications_log.
Qed.

(** A matched entry, when the temporary status file cannot be written:
    the notification is tried, the exception leaves the handling of the
    entry, and the uid is marked seen neither in the set nor in the
    log. *)
Lemma process_entry_status_fault (cfg : pydict) (p : Params) (name : string)
    (e : Entry) (f : Frame) (x : exn) :
  (∀ w, io_fault env w (OpWriteText (tmp_path STATUS_PATH)) = Some x) →
  uid e ∉ seen f →
  match_ lib (title e) cfg = Ok true →
  ∃ f', process_entry lib env cfg p name e f = (Raise x, f')
        ∧ seen f' = seen f
        ∧ seen_log (world f') = seen_log (world f)
        ∧ notifications (world f')
          = (notifications (world f)
             ++ [notify_script (notif_title p) (hit_body p e)])%list.
Proof.
  intros Hst Hnew Hm. eexists.
  unfold process_entry, mbind, se_bind, se_gets, se_lift.
  rewrite bool_decide_eq_false_2 by done. rewrite Hm.
  unfold handle_hit, mbind, se_bind, in_world, se_modify, se_get. simpl.
  rewrite (update_status_fault env _ _ x) by apply Hst. simpl.
  split; [reflexivity|]. split; [done|].
  unfold set_world. simpl.
  split; [by rewrite seen_log_notify|].
  by rewrite notifications_notify, notifications_log.
Qed.

(** [prime_seen] marks the uids of the first 50 entries and notifies
    nothing. *)
Lemma prime_seen_marks (entries : list Entry) (f : Frame) :
  ∃ f', prime_seen env entries f = (Ok tt, f')
        ∧ seen f' = seen f ∪ list_to_set (uid <$> take 50 entries)
        ∧ hits f' = hits f
        ∧ notifications (world f') = notifications (world f).
Proof.
  unfold prime_seen. generalize (take 50 entries). intros l. revert f.
  induction l as [|e l IH]; intros f; simpl.
  - exists f. split; [done|]. split; [set_solver | done].
  - unfold mbind, se_bind, se_modify.
    destruct (decide (uid e ∈ seen f)) as [Hin|Hnew].
    + rewrite bool_decide_eq_true_2 by done.
      destruct (IH f) as (f' & E & Hs & Hh & Hn).
      exists f'. split; [exact E|]. split; [set_solver | done].
    + rewrite bool_decide_eq_false_2 by done.
      destruct (IH (mark_seen env (uid e) f)) as (f' & E & Hs & Hh & Hn).
      exists f'. split; [exact E|]. split; [|split].
      * rewrite Hs. simpl. set_solver.
      * by rewrite Hh.
      * rewrite Hn. simpl. apply notifications_append_seen.
Qed.

(** The statements under [try] for a source fetched and parsed as a
    feed, when the set is empty and priming is on: the first 50 entries
    are marked seen and nothing is notified; the set is no longer empty
    when one entry at least came back. *)
Lemma source_body_primes (cfg : pydict) (p : Params) (name url data : string)
    (f : Frame) :
  seen f = ∅ →
  truthy (py_get_default cfg "prime_on_first_run" (JBool true)) = true →
  fetch env url (timeout_s p) (max_bytes p) (world f)
  = (Ok data, emit (EvFetch url (timeout_s p)) (world f)) →
  looks_like_html data = false →
  ∃ f', source_body lib env cfg p name url f = (Ok tt, f')
        ∧ seen f' = list_to_set (uid <$> take 50 (parse_feed lib data name))
        ∧ hits f' = hits f
        ∧ notifications (world f') = notifications (world f).
Proof.
  intros Hempty Hprime Hfetch Hhtml.
  unfold source_body, mbind, se_bind, in_world. rewrite Hfetch, Hhtml. simpl.
  unfold se_gets. simpl. rewrite Hempty, bool_decide_eq_true_2 by done.
  rewrite Hprime. simpl.
  destruct (prime_seen_marks (parse_feed lib data name)
              (set_latest name
                 (JList (map as_public_item (take 10 (parse_feed lib data name))))
                 (set_world f (emit (EvFetch url (timeout_s p)) (world f)))))
    as (f1 & E & Hs & Hh & Hn).
  rewrite E. eexists. split; [reflexivity|]. simpl.
  split; [rewrite Hs; simpl; rewrite Hempty; set_solver|].
  split; [by rewrite Hh|].
  rewrite notifications_log, Hn. unfold set_latest, set_world. simpl.
  by rewrite notifications_emit, app_nil_r.
Qed.

(** The same source when the set holds something: it is not primed, its
    first 80 entries go through [process_entry]. *)
Lemma source_body_not_primed (cfg : pydict) (p : Params) (name url data : string)
    (f : Frame) :
  seen f ≠ ∅ →
  fetch env url (timeout_s p) (max_bytes p) (world f)
  = (Ok data, emit (EvFetch url (timeout_s p)) (world f)) →
  looks_like_html data = false →
  source_body lib env cfg p name url f
  = for_each (process_entry lib env cfg p name)
      (take 80 (parse_feed lib data name))
      (set_latest name
         (JList (map as_public_item (take 10 (parse_feed lib data name))))
         (set_world f (emit (EvFetch url (timeout_s p)) (world f)))).
Proof.
  intros Hfull Hfetch Hhtml.
  unfold source_body, mbind, se_bind, in_world. rewrite Hfetch, Hhtml. simpl.
  unfold se_gets. simpl. by rewrite bool_decide_eq_false_2.
Qed.

(** The guard of the loop of [main]: an exception raised by [run_once]
    is caught, and when the status file can be written the status says
    [ok = false] with the message of the exception. *)
Lemma cycle_guard (cfg : pydict) (s : gset string) (w w1 : World) (x : exn) :
  status_writable env →
  call_run_once lib env cfg s w = (Raise x, w1) →
  ∃ w2, try_except (call_run_once lib env cfg s) (cycle_failed env) w
        = (Ok tt, w2)
        ∧ ∃ st, files w2 !! STATUS_PATH = Some (Holds (JDict st))
                ∧ dict_get st "ok" = Some (JBool false)
                ∧ dict_get st "last_error" = Some (JStr (exn_msg x)).
Proof.
  intros Hst Hrun. unfold try_except. rewrite Hrun.
  unfold cycle_failed, mbind, se_bind, se_modify, se_get.
  rewrite update_status_ok by apply Hst.
  eexists. split; [reflexivity|]. eexists. simpl.
  split; [by rewrite lookup_insert_eq|].
  split.
  - rewrite !dict_get_set_ne by done. apply dict_get_set_eq.
  - apply dict_get_set_eq.
Qed.

End EntryFacts.

(* ================================================================= *)
(** ** The seen-log *)

Lemma append_nil_r (s : string) : s +:+ EmptyString = s.
Proof. induction s as [|c s IH]; [done|]. by rewrite append_cons, IH. Qed.

Lemma append_assoc (a b c : string) : (a +:+ b) +:+ c = a +:+ (b +:+ c).
Proof. induction a as [|x a IH]; [done|]. by rewrite !append_cons, IH. Qed.

Lemma is_cr_linebreak (c : ascii) :
  PyStr.is_cr c = true → PyStr.is_linebreak c = true.
Proof.
  unfold PyStr.is_cr, PyStr.is_linebreak. intros H.
  apply N.eqb_eq in H. by rewrite H.
Qed.

Lemma is_lf_linebreak (c : ascii) :
  PyStr.is_lf c = true → PyStr.is_linebreak c = true.
Proof.
  unfold PyStr.is_lf, PyStr.is_linebreak. intros H.
  apply N.eqb_eq in H. by rewrite H.
Qed.

Lemma is_lf_not_cr (c : ascii) :
  PyStr.is_lf c = true → PyStr.is_cr c = false.
Proof.
  unfold PyStr.is_lf, PyStr.is_cr. intros H.
  apply N.eqb_eq in H. by rewrite H.
Qed.

(** The steps of [splitlines_from]. *)
Lemma splitlines_cr_lf (cur : string) (c c2 : ascii) (r : string) :
  PyStr.is_cr c = true → PyStr.is_lf c2 = true →
  PyStr.splitlines_from cur (String c (String c2 r))
  = cur :: PyStr.splitlines_from EmptyString r.
Proof.
  intros H1 H2.
  change (PyStr.splitlines_from cur (String c (String c2 r)))
    with (if PyStr.is_cr c
          then if PyStr.is_lf c2
               then cur :: PyStr.splitlines_from EmptyString r
               else cur :: PyStr.splitlines_from EmptyString (String c2 r)
          else if PyStr.is_linebreak c
               then cur :: PyStr.splitlines_from EmptyString (String c2 r)
               else PyStr.splitlines_from (cur +:+ String c EmptyString)
                      (String c2 r)).
  by rewrite H1, H2.
Qed.

Lemma splitlines_cr (cur : string) (c c2 : ascii) (r : string) :
  PyStr.is_cr c = true → PyStr.is_lf c2 = false →
  PyStr.splitlines_from cur (String c (String c2 r))
  = cur :: PyStr.splitlines_from EmptyString (String c2 r).
Proof.
  intros H1 H2.
  change (PyStr.splitlines_from cur (String c (String c2 r)))
    with (if PyStr.is_cr c
          then if PyStr.is_lf c2
               then cur :: PyStr.splitlines_from EmptyString r
               else cur :: PyStr.splitlines_from EmptyString (String c2 r)
          else if PyStr.is_linebreak c
               then cur :: PyStr.splitlines_from EmptyString (String c2 r)
               else PyStr.splitlines_from (cur +:+ String c EmptyString)
                      (String c2 r)).
  by rewrite H1, H2.
Qed.

Lemma splitlines_break (cur : string) (c : ascii) (r : string) :
  PyStr.is_cr c = false → PyStr.is_linebreak c = true →
  PyStr.splitlines_from cur (String c r)
  = cur :: PyStr.splitlines_from EmptyString r.
Proof.
  intros H1 H2.
  change (PyStr.splitlines_from cur (String c r))
    with (if PyStr.is_cr c
          then match r with
               | String c2 r2 =>
                   if PyStr.is_lf c2
                   then cur :: PyStr.splitlines_from EmptyString r2
                   else cur :: PyStr.splitlines_from EmptyString r
               | EmptyString => [cur]
               end
          else if PyStr.is_linebreak c
               then cur :: PyStr.splitlines_from EmptyString r
               else PyStr.splitlines_from (cur +:+ String c EmptyString) r).
  by rewrite H1, H2.
Qed.

Lemma splitlines_char (cur : string) (c : ascii) (r : string) :
  PyStr.is_linebreak c = false →
  PyStr.splitlines_from cur (String c r)
  = PyStr.splitlines_from (cur +:+ String c EmptyString) r.
Proof.
  intros H2.
  assert (H1 : PyStr.is_cr c = false).
  { destruct (PyStr.is_cr c) eqn:E; [|done].
    apply is_cr_linebreak in E. congruence. }
  change (PyStr.splitlines_from cur (String c r))
    with (if PyStr.is_cr c
          then match r with
               | String c2 r2 =>
                   if PyStr.is_lf c2
                   then cur :: PyStr.splitlines_from EmptyString r2
                   else cur :: PyStr.splitlines_from EmptyString r
               | EmptyString => [cur]
               end
          else if PyStr.is_linebreak c
               then cur :: PyStr.splitlines_from EmptyString r
               else PyStr.splitlines_from (cur +:+ String c EmptyString) r).
  by rewrite H1, H2.
Qed.

(** A line without boundary, closed by a line feed, is read back as
    that line. *)
Lemma splitlines_line (u cur : string) :
  PyStr.line_free u = true →
  PyStr.splitlines_from cur (u +:+ line_feed) = [cur +:+ u].
Proof.
  revert cur. induction u as [|c u IH]; intros cur Hfree.
  - by rewrite append_nil_r.
  - cbn [PyStr.line_free] in Hfree.
    apply andb_true_iff in Hfree as [Hc Hu]. apply negb_true_iff in Hc.
    rewrite append_cons, splitlines_char, IH by done.
    by rewrite append_assoc.
Qed.

(** What follows a text that ends in a line feed is read as lines of
    its own. *)
Lemma splitlines_closed (n : nat) (t cur rest : string) :
  (String.length t ≤ n)%nat →
  PyStr.closed_text t = true →
  (t = EmptyString → cur = EmptyString) →
  PyStr.splitlines_from cur (t +:+ rest)
  = (PyStr.splitlines_from cur t ++ PyStr.splitlines_from EmptyString rest)%list.
Proof.
  revert t cur. induction n as [|n IH]; intros t cur Hlen Hclosed Hcur.
  - destruct t; [|simpl in Hlen; lia]. by rewrite (Hcur eq_refl).
  - destruct t as [|c r]; [by rewrite (Hcur eq_refl)|].
    simpl in Hlen. rewrite append_cons.
    destruct r as [|c2 r2].
    + cbn [PyStr.closed_text] in Hclosed. rewrite append_nil_l.
      rewrite !splitlines_break
        by (by apply is_lf_not_cr || by apply is_lf_linebreak).
      done.
    + assert (Hr : PyStr.closed_text (String c2 r2) = true) by exact Hclosed.
      assert (Hlen2 : (String.length (String c2 r2) ≤ n)%nat) by lia.
      destruct (PyStr.is_cr c) eqn:Hcr.
      * rewrite append_cons. destruct (PyStr.is_lf c2) eqn:Hlf.
        -- rewrite !splitlines_cr_lf by done. rewrite <- app_comm_cons. f_equal.
           destruct r2 as [|c3 r3]; [done|].
           apply IH; [simpl in *; lia | exact Hr | done].
        -- rewrite !splitlines_cr by done. rewrite <- app_comm_cons. f_equal.
           rewrite <- append_cons. by apply IH.
      * destruct (PyStr.is_linebreak c) eqn:Hbr.
        -- rewrite !splitlines_break by done. rewrite <- app_comm_cons. f_equal. by apply IH.
        -- rewrite !splitlines_char by done. by apply IH.
Qed.

Lemma closed_text_append (t u : string) :
  PyStr.closed_text (t +:+ u +:+ line_feed) = true.
Proof.
  rewrite <- append_assoc. generalize (t +:+ u). intros s.
  induction s as [|c s IH]; [done|].
  rewrite append_cons. cbn [PyStr.closed_text].
  destruct (s +:+ line_feed) eqn:E; [|exact IH].
  destruct s; discriminate.
Qed.

Section SeenLog.

Variable env : Env.

(** In a seen-log that is empty or ends in a line feed, a uid without
    line boundary that is appended is read back, next to what was there:
    the seen-log then is the set kept in memory. *)
Lemma load_seen_append (u : string) (w : World) :
  (∀ w', io_fault env w' OpReadSeen = None) →
  io_fault env w OpAppendSeen = None →
  PyStr.closed_text (default EmptyString (seen_log w)) = true →
  PyStr.line_free u = true →
  load_seen env (append_seen env u w) = {[u]} ∪ load_seen env w
  ∧ PyStr.closed_text (default EmptyString (seen_log (append_seen env u w)))
    = true.
Proof.
  intros Hread Happ Hclosed Hfree. unfold load_seen, append_seen.
  rewrite !Hread, Happ. cbn [seen_log set_seen_log default].
  change (String (ascii_of_nat 10) EmptyString) with line_feed.
  split; [|apply closed_text_append].
  unfold PyStr.splitlines.
  rewrite (splitlines_closed _ _ EmptyString (u +:+ line_feed) (le_n _) Hclosed)
    by done.
  rewrite (splitlines_line u EmptyString Hfree), list_to_set_app_L.
  destruct (seen_log w); simpl; set_solver.
Qed.

(** Whatever is appended, the uids read before are still read. *)
Lemma load_seen_grows (u : string) (w : World) :
  (∀ w', io_fault env w' OpReadSeen = None) →
  PyStr.closed_text (default EmptyString (seen_log w)) = true →
  load_seen env w ⊆ load_seen env (append_seen env u w).
Proof.
  intros Hread Hclosed. unfold load_seen, append_seen. rewrite !Hread.
  destruct (io_fault env w OpAppendSeen); [done|].
  cbn [seen_log set_seen_log default].
  change (String (ascii_of_nat 10) EmptyString) with line_feed.
  unfold PyStr.splitlines.
  rewrite (splitlines_closed _ _ EmptyString (u +:+ line_feed) (le_n _) Hclosed)
    by done.
  rewrite list_to_set_app_L. destruct (seen_log w); simpl; set_solver.
Qed.

(** An entry that is processed when nothing fails and whose uid holds no
    line boundary is in the set read from the seen-log afterwards, so
    that a later cycle skips it ([process_entry_known]). *)
Lemma entry_persisted (lib : Lib) (cfg : pydict) (p : Params) (name : string)
    (e : Entry) (f : Frame) (b : bool) :
  (∀ w op, io_fault env w op = None) →
  PyStr.closed_text (default EmptyString (seen_log (world f))) = true →
  PyStr.line_free (uid e) = true →
  uid e ∉ seen f →
  match_ lib (title e) cfg = Ok b →
  ∃ f', process_entry lib env cfg p name e f = (Ok tt, f')
        ∧ uid e ∈ seen f'
        ∧ uid e ∈ load_seen env (world f')
        ∧ PyStr.closed_text (default EmptyString (seen_log (world f'))) = true.
Proof.
  intros Hok Hclosed Hfree Hnew Hm.
  assert (Hmark : ∀ g, seen_log (world g) = seen_log (world f) →
            uid e ∈ seen (mark_seen env (uid e) g)
            ∧ uid e ∈ load_seen env (world (mark_seen env (uid e) g))
            ∧ PyStr.closed_text
                (default EmptyString
                   (seen_log (world (mark_seen env (uid e) g)))) = true).
  { intros g Hg. unfold mark_seen. cbn [seen world].
    destruct (load_seen_append (uid e) (world g)) as [E C]; try done.
    - by rewrite Hg.
    - rewrite E. split; [set_solver|]. split; [set_solver | exact C]. }
  destruct b.
  - eexists. unfold process_entry, mbind, se_bind, se_gets, se_lift.
    rewrite bool_decide_eq_false_2 by done. rewrite Hm.
    unfold handle_hit, mbind, se_bind, in_world, se_modify, se_get. simpl.
    rewrite update_status_ok by (intros; apply Hok). simpl.
    split; [reflexivity|]. apply Hmark.
    unfold set_world. simpl. by rewrite seen_log_notify.
  - exists (mark_seen env (uid e) f).
    split; [by apply process_entry_miss|]. by apply Hmark.
Qed.

End SeenLog.

(* ================================================================= *)
(** ** Where the service departs from its documentation *)

(** A text that [int] rejects, given as [check_interval_seconds], ends
    the turn of the loop with a [ValueError]: the conversion stands
    before the [try] of the loop. *)
Lemma main_iteration_text_interval (lib : Lib) (env : Env) (w : World)
    (s : string) :
  truthy (py_get_default (load_config env w) "enabled" (JBool true)) = true →
  dict_get (load_config env w) "check_interval_seconds" = Some (JStr s) →
  s ≠ EmptyString →
  PyStr.int_of_str s = None →
  ∃ e, main_iteration lib env w = (Raise e, w) ∧ exn_cls e = ValueError.
Proof.
  intros Hen Hint Hs Hbad. eexists.
  unfold main_iteration, mbind, se_bind, se_gets, se_lift.
  rewrite Hen. simpl. unfold py_get. rewrite Hint. simpl.
  unfold py_or. simpl. rewrite (proj2 (nonempty_true s) Hs). simpl.
  rewrite Hbad. split; reflexivity.
Qed.

(** C1, at the failing input. With the text [abc] as
    [check_interval_seconds] in the configuration file, [main] ends with
    an uncaught [ValueError] in the first turn of its loop, however many
    turns it is given. *)
Theorem main_exits_on_text_interval (n : nat) :
  fst (main (Scenario.lib_with Scenario.two_feeds_parse)
            (Scenario.env_with Scenario.two_feeds_net Scenario.no_fault)
            (S n) Scenario.text_interval_world)
  = Raise (Exn ValueError "invalid literal for int() with base 10: 'abc'").
Proof. reflexivity. Qed.

(** C3, at the failing input. Two sources, an empty seen set, priming
    left at its default: the first source is primed, which fills the
    set, so the second source is not primed and its matching item is
    notified in the very first cycle. *)
Theorem priming_misses_second_source :
  let r := run_once (Scenario.lib_with Scenario.two_feeds_parse)
             (Scenario.env_with Scenario.two_feeds_net Scenario.no_fault)
             Scenario.two_feeds_cfg (enter Scenario.empty_world ∅) in
  truthy (py_get_default Scenario.two_feeds_cfg "prime_on_first_run"
            (JBool true)) = true
  ∧ fst r = Ok (2, 1)
  ∧ notifications (world (snd r))
    = [notify_script default_notif_title "Stromausfall Berlin Mitte"].
Proof. vm_compute. repeat split. Qed.

(** C4, at the failing input. A uid with a line feed inside is written
    to the seen-log as two lines and read back as two uids, neither of
    them the uid: the same entry is notified in two consecutive cycles,
    and is still not in the set read from the log after them. *)
Theorem line_break_uid_notified_twice :
  let lib := Scenario.lib_with Scenario.nl_parse in
  let env := Scenario.env_with Scenario.nl_net Scenario.no_fault in
  let r := main_loop lib env 2 Scenario.one_feed_world in
  map uid (parse_feed lib "<rss>NL</rss>" "b") = [Scenario.broken_guid]
  ∧ fst r = Ok tt
  ∧ notifications (snd r)
    = [notify_script default_notif_title "Stromausfall Berlin Mitte";
       notify_script default_notif_title "Stromausfall Berlin Mitte"]
  ∧ Scenario.broken_guid ∉ load_seen env (snd r).
Proof.
  intros lib env r. split; [reflexivity|]. split; [reflexivity|].
  split; [by vm_compute|].
  apply (bool_decide_eq_false_1 _). by vm_compute.
Qed.

(** C6, at the failing input. The write of the status file fails while
    a hit is handled: the exception leaves the loop over the entries, so
    the uid of the matched entry is not marked seen, in memory or in the
    log, and the entry that follows it is not processed; the cycle ends
    normally with the failure in [last_error]. In the next cycle the
    entry is notified again. *)
Theorem status_fault_leaves_uid_unseen :
  let lib := Scenario.lib_with Scenario.two_items_parse in
  let env := Scenario.env_with Scenario.two_feeds_net
               Scenario.full_after_notification in
  let r := run_once lib env Scenario.one_feed_cfg
             (enter Scenario.used_world {["old-1"]}) in
  map uid (parse_feed lib "<rss>B</rss>" "b") = ["b-1"; "b-2"]
  ∧ fst r = Ok (1, 1)
  ∧ length (notifications (world (snd r))) = 1%nat
  ∧ ("b-1" ∉ seen (snd r))
  ∧ ("b-2" ∉ seen (snd r))
  ∧ seen_log (world (snd r)) = Some ("old-1" +:+ line_feed)
  ∧ last_error (snd r) = Some "b: [Errno 28] No space left on device"
  ∧ length (notifications (snd (main_loop lib env 2 Scenario.one_feed_world)))
    = 2%nat.
Proof.
  intros lib env r. split; [reflexivity|]. split; [by vm_compute|].
  split; [by vm_compute|].
  split; [apply (bool_decide_eq_false_1 _); by vm_compute|].
  split; [apply (bool_decide_eq_false_1 _); by vm_compute|].
  split; [by vm_compute|]. split; by vm_compute.
Qed.

(* ================================================================= *)
(** ** What a cycle keeps *)

Section CycleKeeps.

Variable lib : Lib.
Variable env : Env.

(** A relation between frames is kept by a whole cycle as soon as it is
    kept by each of the steps a cycle is made of. *)
Section Generic.

Variable R : Frame → Frame → Prop.
Hypothesis R_refl : ∀ f, R f f.
Hypothesis R_trans : ∀ f1 f2 f3, R f1 f2 → R f2 f3 → R f1 f3.
Hypothesis R_fetch : ∀ f url t m r w,
  fetch env url t m (world f) = (r, w) → R f (set_world f w).
Hypothesis R_status : ∀ f kw r w,
  update_status env kw (world f) = (r, w) → R f (set_world f w).
Hypothesis R_log : ∀ f msg, R f (set_world f (log env msg (world f))).
Hypothesis R_latest : ∀ f name items, R f (set_latest name items f).
Hypothesis R_mark : ∀ f u, R f (mark_seen env u f).
Hypothesis R_hit : ∀ p name e, keeps R (handle_hit env p name e).
Hypothesis R_checked : ∀ f, R f (add_checked f).
Hypothesis R_error : ∀ f msg, R f (set_last_error msg f).

Lemma in_world_log_keeps (msg : string) :
  keeps R (in_world (se_modify (log env msg))).
Proof. intros f r f' H. injection H as _ <-. apply R_log. Qed.

Lemma prime_seen_keeps (entries : list Entry) :
  keeps R (prime_seen env entries).
Proof.
  apply keeps_for_each; [done | done | intros e].
  apply keeps_modify. intros f. destruct (bool_decide _); [apply R_refl|].
  apply R_mark.
Qed.

Lemma process_entry_keeps (cfg : pydict) (p : Params) (name : string)
    (e : Entry) :
  keeps R (process_entry lib env cfg p name e).
Proof.
  unfold process_entry.
  apply keeps_bind; [done | by apply keeps_gets | intros known].
  destruct known; [by apply keeps_ret|].
  apply keeps_bind; [done | by apply keeps_lift | intros m].
  apply keeps_bind; [done | | intros _; by apply keeps_modify].
  destruct m; [apply R_hit | by apply keeps_ret].
Qed.

(** The statements of [source_body] after the request keep [R]. *)
Lemma source_body_fetched (cfg : pydict) (p : Params) (name url : string)
    (f f' : Frame) (r : result unit) :
  source_body lib env cfg p name url f = (r, f') →
  ∃ r0 w1, fetch env url (timeout_s p) (max_bytes p) (world f) = (r0, w1)
           ∧ R (set_world f w1) f'.
Proof.
  unfold source_body. intros H.
  match type of H with
  | (?m ≫= ?k) _ = _ =>
      assert (K : ∀ data, keeps R (k data));
      [ | change (match m f with
                  | (Ok a, s') => k a s'
                  | (Raise e, s') => (Raise e, s')
                  end = (r, f')) in H ]
  end.
  { intros data.
    apply keeps_bind; [done | | intros entries].
    { destruct (looks_like_html data); [by apply keeps_lift | by apply keeps_ret]. }
    apply keeps_bind; [done | by apply keeps_modify | intros _].
    apply keeps_bind; [done | by apply keeps_gets | intros fresh].
    destruct (fresh && _).
    - apply keeps_bind; [done | apply prime_seen_keeps | intros _].
      apply in_world_log_keeps.
    - apply keeps_for_each; [done | done | intros e]. apply process_entry_keeps. }
  unfold in_world in H.
  destruct (fetch env url (timeout_s p) (max_bytes p) (world f))
    as [[data|x] w1] eqn:E.
  - exists (Ok data), w1. split; [done|]. by apply K in H.
  - injection H as _ <-. exists (Raise x), w1. split; [done|]. apply R_refl.
Qed.

Lemma source_body_keeps (cfg : pydict) (p : Params) (name url : string) :
  keeps R (source_body lib env cfg p name url).
Proof.
  intros f r f' H. apply source_body_fetched in H as (r0 & w1 & E & H).
  eapply R_trans; [|exact H]. by eapply R_fetch.
Qed.

Lemma process_source_keeps (cfg : pydict) (p : Params) (src : json) :
  keeps R (process_source lib env cfg p src).
Proof.
  unfold process_source.
  apply keeps_bind; [done | by apply keeps_lift | intros name].
  apply keeps_bind; [done | by apply keeps_lift | intros url].
  destruct (negb _); [by apply keeps_ret|].
  apply keeps_bind; [done | by apply keeps_modify | intros _].
  apply keeps_try; [done | apply source_body_keeps | intros x].
  unfold source_failed.
  apply keeps_bind; [done | by apply keeps_modify | intros _].
  apply in_world_log_keeps.
Qed.

Lemma finish_keeps : keeps R (finish env).
Proof.
  intros f r f' H. unfold finish in H.
  destruct (update_status env (final_status env f) (world f)) as [[[]|x] w] eqn:E;
    injection H as _ <-; by eapply R_status.
Qed.

Lemma run_once_keeps (cfg : pydict) : keeps R (run_once lib env cfg).
Proof.
  unfold run_once.
  apply keeps_bind; [done | by apply keeps_lift | intros p].
  apply keeps_bind; [done | by apply keeps_lift | intros srcs].
  apply keeps_bind; [done | | intros _; apply finish_keeps].
  apply keeps_for_each; [done | done | intros src].
  apply process_source_keeps.
Qed.

End Generic.

(** The same for a relation between worlds, up to the loop of [main]. *)
Section GenericWorld.

Variable Rw : World → World → Prop.
Hypothesis Rw_refl : ∀ w, Rw w w.
Hypothesis Rw_trans : ∀ w1 w2 w3, Rw w1 w2 → Rw w2 w3 → Rw w1 w3.
Hypothesis Rw_emit : ∀ w ev, cycle_event ev → Rw w (emit ev w).
Hypothesis Rw_append : ∀ w u, Rw w (append_seen env u w).
Hypothesis Rw_status : ∀ w kw r w',
  update_status env kw w = (r, w') → Rw w w'.

Lemma Rw_log (w : World) (msg : string) : Rw w (log env msg w).
Proof. by apply Rw_emit. Qed.

Lemma Rw_notify (w : World) (t b : string) (s : option string) :
  Rw w (notify env t b s w).
Proof.
  unfold notify. destruct s; [|by apply Rw_emit].
  eapply Rw_trans; by apply Rw_emit.
Qed.

Lemma Rw_fetch (w w' : World) (url : string) (t m : Z) (r : result string) :
  fetch env url t m w = (r, w') → Rw w w'.
Proof.
  unfold fetch. intros H.
  destruct (urlopen env w url t) as [body|x].
  - destruct (_ >? _); injection H as _ <-; by apply Rw_emit.
  - injection H as _ <-. by apply Rw_emit.
Qed.

Lemma handle_hit_on_world (p : Params) (name : string) (e : Entry) :
  keeps (on_world Rw) (handle_hit env p name e).
Proof.
  intros f r f' H.
  unfold handle_hit, mbind, se_bind, in_world, se_modify, se_get in H.
  simpl in H.
  match type of H with
  | context [update_status env ?kw ?w] =>
      destruct (update_status env kw w) as [[[]|x] w1] eqn:E
  end; injection H as _ <-; unfold on_world; simpl;
    (eapply Rw_trans; [apply Rw_log|]);
    (eapply Rw_trans; [apply Rw_notify|]); by eapply Rw_status.
Qed.

Lemma run_once_on_world (cfg : pydict) :
  keeps (on_world Rw) (run_once lib env cfg).
Proof.
  apply run_once_keeps; unfold on_world.
  - intros f. apply Rw_refl.
  - intros f1 f2 f3. apply Rw_trans.
  - intros f url t m r w H. simpl. by eapply Rw_fetch.
  - intros f kw r w H. simpl. by eapply Rw_status.
  - intros f msg. simpl. apply Rw_log.
  - intros f name items. apply Rw_refl.
  - intros f u. simpl. apply Rw_append.
  - apply handle_hit_on_world.
  - intros f. apply Rw_refl.
  - intros f msg. apply Rw_refl.
Qed.

Lemma call_run_once_keeps (cfg : pydict) (s : gset string) :
  keeps Rw (call_run_once lib env cfg s).
Proof.
  intros w r w' H. unfold call_run_once in H.
  destruct (run_once lib env cfg (enter w s)) as [[v|x] f] eqn:E;
    injection H as _ <-; by apply (run_once_on_world cfg) in E.
Qed.

Lemma guarded_cycle_keeps (cfg : pydict) (s : gset string) :
  keeps Rw (try_except (call_run_once lib env cfg s) (cycle_failed env)).
Proof.
  apply keeps_try; [done | apply call_run_once_keeps | intros x].
  unfold cycle_failed.
  apply keeps_bind; [done | | intros _].
  - apply keeps_modify. intros w. apply Rw_log.
  - apply keeps_bind; [done | by apply keeps_gets | intros w0].
    intros w r w' H. by eapply Rw_status.
Qed.

Hypothesis Rw_sleep : ∀ w s, Rw w (emit (EvSleep s) w).

Lemma main_iteration_keeps : keeps Rw (main_iteration lib env).
Proof.
  unfold main_iteration.
  apply keeps_bind; [done | by apply keeps_gets | intros cfg].
  destruct (negb _).
  - apply keeps_bind; [done | by apply keeps_gets | intros w0].
    apply keeps_bind; [done | | intros _].
    + intros w r w' H. by eapply Rw_status.
    + apply keeps_modify. intros w. apply Rw_sleep.
  - apply keeps_bind; [done | by apply keeps_lift | intros interval].
    apply keeps_bind; [done | by apply keeps_gets | intros s].
    apply keeps_bind; [done | apply guarded_cycle_keeps | intros _].
    apply keeps_modify. intros w. apply Rw_sleep.
Qed.

Lemma main_loop_keeps (n : nat) : keeps Rw (main_loop lib env n).
Proof.
  induction n as [|n IH]; simpl.
  - by apply keeps_ret.
  - apply keeps_bind; [done | apply main_iteration_keeps | intros _; apply IH].
Qed.

Lemma main_keeps (n : nat) : keeps Rw (main lib env n).
Proof.
  unfold main. apply keeps_bind; [done | | intros _; apply main_loop_keeps].
  unfold main_start.
  apply keeps_bind; [done | | intros _].
  - apply keeps_modify. intros w. apply Rw_log.
  - apply keeps_bind; [done | by apply keeps_gets | intros w0].
    intros w r w' H. by eapply Rw_status.
Qed.

End GenericWorld.

End CycleKeeps.

(* ================================================================= *)
(** ** Invariants of the cycle and of the loop *)

Section Invariants.

Variable lib : Lib.
Variable env : Env.

Lemma fetches_emit (ev : event) (w : World) :
  fetches (emit ev w)
  = (fetches w ++ match ev with EvFetch u _ => [u] | _ => [] end)%list.
Proof. unfold fetches, emit. simpl. rewrite omap_app. by destruct ev. Qed.

Lemma sleeps_emit (ev : event) (w : World) :
  sleeps (emit ev w)
  = (sleeps w ++ match ev with EvSleep s => [s] | _ => [] end)%list.
Proof. unfold sleeps, emit. simpl. rewrite omap_app. by destruct ev. Qed.

(** Closes an equation between the records of two worlds whose traces
    differ by events of another kind. *)
Ltac same_records :=
  unfold notifications, fetches, sleeps, emit, set_files; simpl;
  rewrite ?omap_app; simpl; rewrite ?app_nil_r; reflexivity.

(** Every outcome of [update_status]: the seen-log, the files other than
    the status file and its temporary file, and the notifications,
    requests and sleeps recorded are as before; when it raises, the
    status file is as before too. *)
Lemma update_status_outcome (kw : pydict) (w w' : World) (r : result unit) :
  update_status env kw w = (r, w') →
  seen_log w' = seen_log w
  ∧ other_files_kept w w'
  ∧ notifications w' = notifications w
  ∧ fetches w' = fetches w
  ∧ sleeps w' = sleeps w
  ∧ (∀ x, r = Raise x → files w' !! STATUS_PATH = files w !! STATUS_PATH).
Proof.
  unfold update_status, write_json_atomic. intros H.
  destruct (io_fault env w (OpWriteText (tmp_path STATUS_PATH))) as [x|].
  { injection H as <- <-. by repeat split. }
  match type of H with
  | context [io_fault env ?w1 (OpReplace _ _)] =>
      destruct (io_fault env w1 (OpReplace (tmp_path STATUS_PATH) STATUS_PATH))
        as [x|]
  end.
  - injection H as <- <-.
    split; [done|]. split.
    { intros p _ Hp. simpl. by rewrite lookup_insert_ne. }
    split; [same_records|].
    split; [same_records|].
    split; [same_records|].
    intros _ _. simpl. by rewrite lookup_insert_ne.
  - simpl in H. rewrite lookup_insert_eq in H. injection H as <- <-.
    split; [done|]. split.
    { intros p Hp Hp'. simpl. rewrite lookup_insert_ne by done.
      rewrite lookup_delete_ne by done. by rewrite lookup_insert_ne. }
    split; [same_records|].
    split; [same_records|].
    split; [same_records|].
    by intros x.
Qed.

(** *** The seen-log is only extended *)

Lemma log_extended_refl (w : World) : log_extended w w.
Proof. split; [|done]. exists EmptyString. by rewrite append_nil_r. Qed.

Lemma log_extended_trans (w1 w2 w3 : World) :
  log_extended w1 w2 → log_extended w2 w3 → log_extended w1 w3.
Proof.
  intros [[a Ha] Hs] [[b Hb] Hs']. split; [|auto].
  exists (a +:+ b). by rewrite Hb, Ha, append_assoc.
Qed.

Lemma log_extended_same (w w' : World) :
  seen_log w' = seen_log w → log_extended w w'.
Proof.
  intros H. unfold log_extended, log_text. rewrite H.
  split; [|done]. exists EmptyString. by rewrite append_nil_r.
Qed.

Lemma log_extended_append (w : World) (u : string) :
  log_extended w (append_seen env u w).
Proof.
  unfold append_seen. destruct (io_fault env w OpAppendSeen).
  - apply log_extended_refl.
  - split; [|by eexists]. unfold log_text. simpl. by eexists.
Qed.

Lemma main_extends_log (n : nat) : keeps log_extended (main lib env n).
Proof.
  apply main_keeps.
  - apply log_extended_refl.
  - apply log_extended_trans.
  - intros w ev _. by apply log_extended_same.
  - apply log_extended_append.
  - intros w kw r w' H. apply log_extended_same.
    by apply update_status_outcome in H as (? & _).
  - intros w s. by apply log_extended_same.
Qed.

(** *** Only the status file is written *)

Lemma other_files_kept_refl (w : World) : other_files_kept w w.
Proof. by intros p _ _. Qed.

Lemma other_files_kept_trans (w1 w2 w3 : World) :
  other_files_kept w1 w2 → other_files_kept w2 w3 → other_files_kept w1 w3.
Proof. intros H1 H2 p Hp Hp'. by rewrite H2, H1. Qed.

Lemma other_files_kept_same (w w' : World) :
  files w' = files w → other_files_kept w w'.
Proof. intros H p _ _. by rewrite H. Qed.

Lemma main_keeps_other_files (n : nat) :
  keeps other_files_kept (main lib env n).
Proof.
  apply main_keeps.
  - apply other_files_kept_refl.
  - apply other_files_kept_trans.
  - intros w ev _. by apply other_files_kept_same.
  - intros w u. apply other_files_kept_same. unfold append_seen.
    by destruct (io_fault env w OpAppendSeen).
  - intros w kw r w' H. by apply update_status_outcome in H as (_ & ? & _).
  - intros w s. by apply other_files_kept_same.
Qed.

(** *** Hits and notifications *)

Lemma hits_notified_same (f f' : Frame) :
  notifications (world f') = notifications (world f) → hits f' = hits f →
  hits_notified f f'.
Proof. intros H1 H2. unfold hits_notified. by rewrite H1, H2. Qed.

Lemma handle_hit_notified (p : Params) (name : string) (e : Entry) :
  keeps hits_notified (handle_hit env p name e).
Proof.
  intros f r f' H.
  unfold handle_hit, mbind, se_bind, in_world, se_modify, se_get in H.
  simpl in H.
  match type of H with
  | context [update_status env ?kw ?w] =>
      destruct (update_status env kw w) as [[[]|x] w1] eqn:E
  end; injection H as _ <-;
    apply update_status_outcome in E as (_ & _ & En & _);
    unfold hits_notified; simpl; rewrite En, notifications_notify,
      notifications_log, length_app; simpl; lia.
Qed.

Lemma run_once_hits_notified (cfg : pydict) :
  keeps hits_notified (run_once lib env cfg).
Proof.
  apply run_once_keeps.
  - by intros f.
  - unfold hits_notified. intros f1 f2 f3 H1 H2. congruence.
  - intros f url t m r w H. apply hits_notified_same; [|done]. simpl.
    unfold fetch in H. destruct (urlopen env (world f) url t).
    + destruct (_ >? _); injection H as _ <-;
        by rewrite notifications_emit, app_nil_r.
    + injection H as _ <-. by rewrite notifications_emit, app_nil_r.
  - intros f kw r w H. apply hits_notified_same; [|done]. simpl.
    by apply update_status_outcome in H as (_ & _ & ? & _).
  - intros f msg. apply hits_notified_same; [|done]. simpl.
    apply notifications_log.
  - intros f name items. by apply hits_notified_same.
  - intros f u. apply hits_notified_same; [|done]. simpl.
    apply notifications_append_seen.
  - apply handle_hit_notified.
  - intros f. by apply hits_notified_same.
  - intros f msg. by apply hits_notified_same.
Qed.

End Invariants.

(* ================================================================= *)
(** ** What the service never does *)

Section ServiceInvariants.

Variable lib : Lib.
Variable env : Env.

(** X1. Whatever happens in [main] and in the cycles it runs, faults
    included, the seen-log is only extended: its text at any later moment
    is its text at the start followed by what was appended, and a log
    that exists is never removed. *)
Theorem seen_log_only_extended (n : nat) (w : World) :
  log_extended w (main lib env n w).2.
Proof.
  destruct (main lib env n w) as [r w'] eqn:E.
  by apply main_extends_log in E.
Qed.

(** X2. The only files [main] and its cycles write are the status file
    and its temporary file: every other file, the configuration file
    among them, is at every later moment what it was at the start. *)
Theorem only_status_files_written (n : nat) (w : World) :
  other_files_kept w (main lib env n w).2
  ∧ files (main lib env n w).2 !! CONFIG_PATH = files w !! CONFIG_PATH.
Proof.
  destruct (main lib env n w) as [r w'] eqn:E.
  apply main_keeps_other_files in E. split; [done|]. by apply E.
Qed.

(** What [run_once] returns is what its frame holds at the end. *)
Lemma run_once_returns (cfg : pydict) (f f' : Frame) (c h : Z) :
  run_once lib env cfg f = (Ok (c, h), f') → c = checked f' ∧ h = hits f'.
Proof.
  unfold run_once, mbind, se_bind, se_lift. intros H.
  destruct (read_params lib cfg) as [p|x]; [|done].
  destruct (py_iter _) as [srcs|x]; [|done].
  destruct (run_sources lib env cfg p srcs f) as [[[]|x] f1]; [|done].
  unfold finish in H.
  destruct (update_status env (final_status env f1) (world f1)) as [[[]|x] w1];
    [|done].
  by injection H as <- <- <-.
Qed.

(** X3. The second number [run_once] returns is the number of
    notifications tried during the call: one per hit, none otherwise. *)
Theorem hits_count_notifications (cfg : pydict) (w : World) (s : gset string)
    (c h : Z) (f' : Frame) :
  run_once lib env cfg (enter w s) = (Ok (c, h), f') →
  Z.of_nat (length (notifications (world f')))
  = Z.of_nat (length (notifications w)) + h.
Proof.
  intros H. pose proof (run_once_returns _ _ _ _ _ H) as [_ ->].
  apply run_once_hits_notified in H. unfold hits_notified in H. simpl in H.
  lia.
Qed.

Lemma run_once_seen_grows (cfg : pydict) :
  keeps seen_grows (run_once lib env cfg).
Proof.
  apply run_once_keeps; unfold seen_grows;
    try (intros; simpl; set_solver).
  intros p name e f r f' H.
  unfold handle_hit, mbind, se_bind, in_world, se_modify, se_get in H.
  simpl in H.
  match type of H with
  | context [update_status env ?kw ?w] =>
      destruct (update_status env kw w) as [[[]|x] w1]
  end; by injection H as _ <-.
Qed.

(** A cycle never forgets a uid: the set bound to [seen] at the end
    of [run_once], however it ends, holds every uid it held at the
    start. *)
Lemma seen_never_shrinks (cfg : pydict) (f : Frame) :
  seen f ⊆ seen (run_once lib env cfg f).2.
Proof.
  destruct (run_once lib env cfg f) as [r f'] eqn:E.
  by apply run_once_seen_grows in E.
Qed.

End ServiceInvariants.

(** X3, at a cycle with one hit. *)
Lemma hits_count_notifications_witness :
  let lib := Scenario.lib_with Scenario.two_feeds_parse in
  let env := Scenario.env_with Scenario.two_feeds_net Scenario.no_fault in
  let r := run_once lib env Scenario.one_feed_cfg
             (enter Scenario.used_world {["old-1"]}) in
  Z.of_nat (length (notifications (world r.2)))
  = Z.of_nat (length (notifications Scenario.used_world)) + 1.
Proof.
  apply (hits_count_notifications
           (Scenario.lib_with Scenario.two_feeds_parse)
           (Scenario.env_with Scenario.two_feeds_net Scenario.no_fault)
           Scenario.one_feed_cfg Scenario.used_world {["old-1"]} 1 1).
  vm_compute. reflexivity.
Defined.

(* ================================================================= *)
(** ** The turns of the loop *)

Section Turns.

Variable lib : Lib.
Variable env : Env.

Lemma append_seen_trace (u : string) (w : World) :
  trace (append_seen env u w) = trace w.
Proof. unfold append_seen. by destruct (io_fault env w OpAppendSeen). Qed.

Lemma sleeps_cycle_event (ev : event) (w : World) :
  cycle_event ev → sleeps (emit ev w) = sleeps w.
Proof. intros H. rewrite sleeps_emit. destruct ev; try apply app_nil_r. done. Qed.

Lemma guarded_cycle_sleeps (cfg : pydict) (s : gset string) :
  keeps sleeps_kept
    (try_except (call_run_once lib env cfg s) (cycle_failed env)).
Proof.
  apply guarded_cycle_keeps; unfold sleeps_kept.
  - done.
  - intros w1 w2 w3 H1 H2. congruence.
  - intros w ev. apply sleeps_cycle_event.
  - intros w u. unfold sleeps. by rewrite append_seen_trace.
  - intros w kw r w' H. by apply update_status_outcome in H as (_ & _ & _ & _ & ? & _).
Qed.

(** The sleeps of one turn of the loop: one when the turn ends normally,
    of 60 seconds under a configuration that switches the service off
    and of the configured interval, clamped, otherwise; none when the
    turn raises. *)
Lemma main_iteration_sleeps (w w' : World) (r : result unit) :
  main_iteration lib env w = (r, w') →
  let cfg := load_config env w in
  match r with
  | Ok _ =>
      ∃ s, sleeps w' = (sleeps w ++ [s])%list ∧ 30 ≤ s ≤ 3600
           ∧ (truthy (py_get_default cfg "enabled" (JBool true)) = false →
              s = 60)
           ∧ (truthy (py_get_default cfg "enabled" (JBool true)) = true →
              ∃ i, py_int lib (py_or (py_get cfg "check_interval_seconds")
                                     (JInt 300)) = Ok i
                   ∧ s = Z.max 30 (Z.min i 3600))
  | Raise _ => sleeps w' = sleeps w
  end.
Proof.
  unfold main_iteration, mbind, se_bind, se_gets, se_get, se_lift, sleep,
    se_modify.
  intros H. set (cfg := load_config env w) in *.
  destruct (truthy (py_get_default cfg "enabled" (JBool true))) eqn:Een;
    [change (negb true) with false in H | change (negb false) with true in H];
    cbv beta iota in H.
  - destruct (py_int lib _) as [i|x] eqn:Ei; [|by injection H as <- <-].
    match type of H with
    | context [try_except ?m ?h ?w0] =>
        destruct (try_except m h w0) as [[[]|x] w1] eqn:E
    end; apply guarded_cycle_sleeps in E; injection H as <- <-; [|done].
    exists (Z.max 30 (Z.min i 3600)). rewrite sleeps_emit, E.
    split; [done|]. split; [lia|]. split; [done|].
    intros _. by exists i.
  - match type of H with
    | context [update_status env ?kw ?w0] =>
        destruct (update_status env kw w0) as [[[]|x] w1] eqn:E
    end; apply update_status_outcome in E as (_ & _ & _ & _ & E & _);
      injection H as <- <-; [|done].
    exists 60. rewrite sleeps_emit, E. split; [done|]. split; [lia|].
    split; [done | done].
Qed.

(** X4. A turn of the loop of [main] that ends normally has slept
    exactly once, for no less than 30 and no more than 3600 seconds:
    for 60 seconds when the configuration switches the service off, and
    otherwise for the configured interval, 300 seconds when none is
    given, raised to 30 or lowered to 3600 when it lies outside. *)
Theorem turn_ends_with_one_sleep (w w' : World) :
  main_iteration lib env w = (Ok tt, w') →
  let cfg := load_config env w in
  ∃ s, sleeps w' = (sleeps w ++ [s])%list ∧ 30 ≤ s ≤ 3600
       ∧ (truthy (py_get_default cfg "enabled" (JBool true)) = false →
          s = 60)
       ∧ (truthy (py_get_default cfg "enabled" (JBool true)) = true →
          ∃ i, py_int lib (py_or (py_get cfg "check_interval_seconds")
                                 (JInt 300)) = Ok i
               ∧ s = Z.max 30 (Z.min i 3600)).
Proof. intros H. by apply main_iteration_sleeps in H. Qed.

End Turns.

(** X4, at a configuration that asks for 7200 seconds: the turn sleeps
    3600. *)
Lemma turn_ends_with_one_sleep_witness :
  let lib := Scenario.lib_with Scenario.nl_parse in
  let env := Scenario.env_with Scenario.nl_net Scenario.no_fault in
  let w := Scenario.long_interval_world in
  sleeps (main_iteration lib env w).2 = (sleeps w ++ [3600])%list.
Proof.
  intros lib env w.
  destruct (turn_ends_with_one_sleep lib env w (main_iteration lib env w).2)
    as (s & Hs & _ & _ & Hon).
  - vm_compute. reflexivity.
  - destruct (Hon eq_refl) as (i & Hi & ->).
    injection Hi as <-. exact Hs.
Defined.

Section QuietTurns.

Variable lib : Lib.
Variable env : Env.

(** What a successful [update_status] leaves in the status file. *)
Lemma update_status_file (kw : pydict) (w w' : World) :
  update_status env kw w = (Ok tt, w') →
  files w' !! STATUS_PATH
  = Some (Holds (JDict (dict_update (previous_status env w) kw))).
Proof.
  unfold update_status, write_json_atomic, previous_status. intros H.
  destruct (io_fault env w (OpWriteText (tmp_path STATUS_PATH))); [done|].
  match type of H with
  | context [io_fault env ?w1 (OpReplace _ _)] =>
      destruct (io_fault env w1 (OpReplace (tmp_path STATUS_PATH) STATUS_PATH))
  end; [done|].
  simpl in H. rewrite lookup_insert_eq in H. injection H as <-.
  simpl. by rewrite lookup_insert_eq.
Qed.

(** X5. A turn of the loop under a configuration that switches the
    service off sends no request, tries no notification, and leaves the
    seen-log and every file but the status file as they were; when it
    ends normally it has slept 60 seconds and the status file carries
    the note [disabled_in_config]. *)
Theorem disabled_turn_is_idle (w w' : World) (r : result unit) :
  truthy (py_get_default (load_config env w) "enabled" (JBool true)) = false →
  main_iteration lib env w = (r, w') →
  fetches w' = fetches w
  ∧ notifications w' = notifications w
  ∧ seen_log w' = seen_log w
  ∧ other_files_kept w w'
  ∧ (r = Ok tt →
     sleeps w' = (sleeps w ++ [60])%list
     ∧ ∃ st, files w' !! STATUS_PATH = Some (Holds (JDict st))
             ∧ dict_get st "note" = Some (JStr "disabled_in_config")).
Proof.
  intros Hoff.
  unfold main_iteration, mbind, se_bind, se_gets, se_get, se_lift, sleep,
    se_modify.
  rewrite Hoff. intros H.
  change (negb false) with true in H. cbv beta iota in H.
  match type of H with
  | context [update_status env ?kw ?w0] =>
      destruct (update_status env kw w0) as [[[]|x] w1] eqn:E
  end; pose proof (update_status_outcome _ _ _ _ _ E)
         as (Hlog & Hfiles & Hnot & Hfet & Hsl & _);
    injection H as <- <-.
  - rewrite fetches_emit, notifications_emit, sleeps_emit, !app_nil_r.
    repeat split; try done. { by rewrite Hsl. }
    eexists. split; [by apply update_status_file in E|].
    apply dict_update_new; [|done].
    apply (bool_decide_eq_true_1 _). by vm_compute.
  - by repeat split.
Qed.

End QuietTurns.

(** X5, at a configuration with [enabled] false and one source. *)
Lemma disabled_turn_is_idle_witness :
  let lib := Scenario.lib_with Scenario.nl_parse in
  let env := Scenario.env_with Scenario.nl_net Scenario.no_fault in
  let w := Scenario.disabled_world in
  let r := main_iteration lib env w in
  fetches r.2 = fetches w
  ∧ notifications r.2 = notifications w
  ∧ seen_log r.2 = seen_log w
  ∧ other_files_kept w r.2
  ∧ (r.1 = Ok tt →
     sleeps r.2 = (sleeps w ++ [60])%list
     ∧ ∃ st, files r.2 !! STATUS_PATH = Some (Holds (JDict st))
             ∧ dict_get st "note" = Some (JStr "disabled_in_config")).
Proof.
  apply (disabled_turn_is_idle
           (Scenario.lib_with Scenario.nl_parse)
           (Scenario.env_with Scenario.nl_net Scenario.no_fault)
           Scenario.disabled_world).
  - vm_compute. reflexivity.
  - vm_compute. reflexivity.
Defined.

(* ================================================================= *)
(** ** The requests of a cycle *)

Section Requests.

Variable lib : Lib.
Variable env : Env.

(** [fetch] records one request, whatever comes of it. *)
Lemma fetch_requests (url : string) (t m : Z) (w w' : World)
    (r : result string) :
  fetch env url t m w = (r, w') → fetches w' = (fetches w ++ [url])%list.
Proof.
  unfold fetch. intros H.
  destruct (urlopen env w url t) as [body|x].
  - destruct (_ >? _); injection H as _ <-; by rewrite fetches_emit.
  - injection H as _ <-. by rewrite fetches_emit.
Qed.

Lemma fetches_log (msg : string) (w : World) :
  fetches (log env msg w) = fetches w.
Proof. unfold log. rewrite fetches_emit. apply app_nil_r. Qed.

Lemma fetches_notify (t b : string) (s : option string) (w : World) :
  fetches (notify env t b s w) = fetches w.
Proof.
  unfold notify. destruct s; rewrite !fetches_emit, ?app_nil_r; done.
Qed.

Lemma handle_hit_fetches (p : Params) (name : string) (e : Entry) :
  keeps fetches_kept (handle_hit env p name e).
Proof.
  intros f r f' H.
  unfold handle_hit, mbind, se_bind, in_world, se_modify, se_get in H.
  simpl in H.
  match type of H with
  | context [update_status env ?kw ?w] =>
      destruct (update_status env kw w) as [[[]|x] w1] eqn:E
  end; injection H as _ <-;
    apply update_status_outcome in E as (_ & _ & _ & E & _);
    unfold fetches_kept; simpl; by rewrite E, fetches_notify, fetches_log.
Qed.

(** The statements under [try] send one request, the first thing they
    do, and no other. *)
Lemma source_body_requests (cfg : pydict) (p : Params) (name url : string)
    (f f' : Frame) (r : result unit) :
  source_body lib env cfg p name url f = (r, f') →
  fetches (world f') = (fetches (world f) ++ [url])%list.
Proof.
  intros H.
  apply (source_body_fetched lib env fetches_kept) in H
    as (r0 & w1 & E & H); unfold fetches_kept in *.
  - rewrite H. simpl. by apply fetch_requests in E.
  - done.
  - intros f1 f2 f3 H1 H2. congruence.
  - intros f0 msg. apply fetches_log.
  - done.
  - intros f0 u. simpl. unfold fetches. by rewrite append_seen_trace.
  - apply handle_hit_fetches.
Qed.

Lemma process_source_requests (cfg : pydict) (p : Params) (src : json)
    (f f' : Frame) (r : result unit) :
  well_formed_source src →
  process_source lib env cfg p src f = (r, f') →
  fetches (world f')
  = (fetches (world f) ++ option_list (source_url lib src))%list.
Proof.
  intros [d Hd].
  unfold process_source, source_url, source_field, mbind, se_bind, se_lift.
  rewrite Hd. simpl.
  destruct (PyStr.nonempty _); simpl.
  2:{ intros H. injection H as _ <-. by rewrite app_nil_r. }
  unfold try_except, se_modify.
  destruct (source_body lib env cfg p _ _ (add_checked f)) as [[[]|e] f1] eqn:E;
    apply source_body_requests in E; intros H; injection H as _ <-; [done|].
  simpl. by rewrite fetches_log.
Qed.

Lemma run_sources_requests (cfg : pydict) (p : Params) (srcs : list json)
    (f f' : Frame) (r : result unit) :
  Forall well_formed_source srcs →
  run_sources lib env cfg p srcs f = (r, f') →
  fetches (world f') = (fetches (world f) ++ source_urls lib srcs)%list.
Proof.
  unfold run_sources, source_urls. intros Hwf. revert f.
  induction Hwf as [|s srcs Hs _ IH]; intros f; simpl.
  - intros H. injection H as _ <-. by rewrite app_nil_r.
  - unfold mbind, se_bind.
    destruct (process_source lib env cfg p s f) as [[[]|x] f1] eqn:E;
      pose proof (process_source_requests _ _ _ _ _ _ Hs E) as E1.
    + intros H. apply IH in H. rewrite H, E1, <- app_assoc. f_equal.
      by destruct (source_url lib s).
    + destruct (process_source_locals lib env cfg p s f Hs) as (f2 & E2 & _).
      congruence.
Qed.

(** X6. In a cycle over sources that are objects, every source with a
    URL is requested exactly once, in the order of the configuration,
    and nothing else is requested: no failure of a source, be it of the
    network, the parser, the matcher or the status file, keeps a later
    source from being polled or makes one polled twice. *)
Theorem each_source_requested_once (cfg : pydict) (p : Params)
    (srcs : list json) (w : World) (s : gset string) :
  read_params lib cfg = Ok p →
  py_iter (py_or (py_get cfg "sources") (JList [])) = Ok srcs →
  Forall well_formed_source srcs →
  fetches (world (run_once lib env cfg (enter w s)).2)
  = (fetches w ++ source_urls lib srcs)%list.
Proof.
  intros Hp Hs Hwf. unfold run_once, mbind, se_bind, se_lift.
  rewrite Hp, Hs.
  destruct (run_sources lib env cfg p srcs (enter w s)) as [[[]|x] f1] eqn:E;
    apply run_sources_requests in E; try done.
  unfold finish.
  destruct (update_status env (final_status env f1) (world f1))
    as [[[]|x] w1] eqn:E1;
    apply update_status_outcome in E1 as (_ & _ & _ & E1 & _);
    simpl; by rewrite E1, E.
Qed.

(** X7. When the parameters can be read, the sources are objects and
    the status file can be written, [run_once] ends normally whatever
    the sources do: it returns the number of sources with a URL and the
    number of hits, and the status file then says [ok], with these two
    numbers under [checked_sources] and [hits]. *)
Theorem cycle_completes (cfg : pydict) (p : Params) (srcs : list json)
    (w : World) (s : gset string) :
  read_params lib cfg = Ok p →
  py_iter (py_or (py_get cfg "sources") (JList [])) = Ok srcs →
  Forall well_formed_source srcs →
  status_writable env →
  ∃ h f',
    run_once lib env cfg (enter w s) = (Ok (count_urls lib srcs, h), f')
    ∧ ∃ st, files (world f') !! STATUS_PATH = Some (Holds (JDict st))
            ∧ dict_get st "ok" = Some (JBool true)
            ∧ dict_get st "checked_sources" = Some (JInt (count_urls lib srcs))
            ∧ dict_get st "hits" = Some (JInt h).
Proof.
  intros Hp Hs Hwf Hst. unfold run_once, mbind, se_bind, se_lift.
  rewrite Hp, Hs.
  destruct (run_sources_locals lib env cfg p srcs (enter w s) Hwf)
    as (f1 & E & Hc & _).
  rewrite E. unfold finish.
  rewrite update_status_ok; [|apply Hst | intros w1; apply Hst].
  assert (Hc' : checked f1 = count_urls lib srcs) by (simpl in Hc; lia).
  rewrite <- Hc'. exists (hits f1). eexists. split; [done|].
  exists (dict_update (previous_status env (world f1)) (final_status env f1)).
  split; [unfold status_written; simpl; by rewrite lookup_insert_eq|].
  assert (Hnd : NoDup (final_status env f1).*1).
  { apply (bool_decide_eq_true_1 _). by vm_compute. }
  split; [|split]; by apply dict_update_new.
Qed.

End Requests.

(** X6, at a configuration with two feeds. *)
Lemma each_source_requested_once_witness :
  let lib := Scenario.lib_with Scenario.two_feeds_parse in
  let env := Scenario.env_with Scenario.two_feeds_net Scenario.no_fault in
  fetches (world (run_once lib env Scenario.two_feeds_cfg
                    (enter Scenario.empty_world ∅)).2)
  = (fetches Scenario.empty_world
     ++ source_urls lib [Scenario.source "a" "http://a.example/feed";
                         Scenario.source "b" "http://b.example/feed"])%list.
Proof.
  apply (each_source_requested_once
           (Scenario.lib_with Scenario.two_feeds_parse)
           (Scenario.env_with Scenario.two_feeds_net Scenario.no_fault)
           Scenario.two_feeds_cfg
           {| timeout_s := 10; max_bytes := 2000000;
              notif_title := default_notif_title; sound := None;
              show_link := true |}).
  - reflexivity.
  - reflexivity.
  - repeat constructor; by eexists.
Defined.

(** X7, at the same configuration. *)
Lemma cycle_completes_witness :
  let lib := Scenario.lib_with Scenario.two_feeds_parse in
  let env := Scenario.env_with Scenario.two_feeds_net Scenario.no_fault in
  let srcs := [Scenario.source "a" "http://a.example/feed";
               Scenario.source "b" "http://b.example/feed"] in
  ∃ h f',
    run_once lib env Scenario.two_feeds_cfg (enter Scenario.empty_world ∅)
    = (Ok (count_urls lib srcs, h), f')
    ∧ ∃ st, files (world f') !! STATUS_PATH = Some (Holds (JDict st))
            ∧ dict_get st "ok" = Some (JBool true)
            ∧ dict_get st "checked_sources" = Some (JInt (count_urls lib srcs))
            ∧ dict_get st "hits" = Some (JInt h).
Proof.
  apply (cycle_completes
           (Scenario.lib_with Scenario.two_feeds_parse)
           (Scenario.env_with Scenario.two_feeds_net Scenario.no_fault)
           Scenario.two_feeds_cfg
           {| timeout_s := 10; max_bytes := 2000000;
              notif_title := default_notif_title; sound := None;
              show_link := true |}).
  - reflexivity.
  - reflexivity.
  - repeat constructor; by eexists.
  - intros w. split; reflexivity.
Defined.

(* ================================================================= *)
(** ** Turns that end normally *)

Section Liveness.

Variable lib : Lib.
Variable env : Env.

Lemma main_iteration_other_files :
  keeps other_files_kept (main_iteration lib env).
Proof.
  apply main_iteration_keeps.
  - apply other_files_kept_refl.
  - apply other_files_kept_trans.
  - intros w ev _. by apply other_files_kept_same.
  - intros w u. apply other_files_kept_same. unfold append_seen.
    by destruct (io_fault env w OpAppendSeen).
  - intros w kw r w' H. by apply update_status_outcome in H as (_ & ? & _).
  - intros w s. by apply other_files_kept_same.
Qed.

Lemma config_file_kept (w w' : World) :
  other_files_kept w w' → files w' !! CONFIG_PATH = files w !! CONFIG_PATH.
Proof. intros H. by apply H. Qed.

(** A turn of the loop ends normally when the interval can be read and
    the status file can be written. *)
Lemma turn_completes (w : World) (i : Z) :
  status_writable env →
  py_int lib (py_or (py_get (load_config env w) "check_interval_seconds")
                    (JInt 300)) = Ok i →
  ∃ w', main_iteration lib env w = (Ok tt, w')
        ∧ sleeps w' = (sleeps w ++ [turn_sleep (load_config env w) i])%list.
Proof.
  intros Hst Hi.
  unfold main_iteration, turn_sleep, mbind, se_bind, se_gets, se_get, se_lift,
    sleep, se_modify.
  destruct (truthy (py_get_default (load_config env w) "enabled" (JBool true)));
    [change (negb true) with false | change (negb false) with true];
    cbv iota beta.
  - rewrite Hi.
    match goal with
    | |- context [try_except ?m ?h w] =>
        destruct (try_except m h w) as [[[]|x] w1] eqn:E
    end.
    + eexists. split; [done|]. apply guarded_cycle_sleeps in E.
      by rewrite sleeps_emit, E.
    + exfalso. unfold try_except in E.
      destruct (call_run_once lib env _ _ w) as [[[]|y] w2] eqn:E2; [done|].
      destruct (cycle_guard lib env _ _ _ _ _ Hst E2) as (w3 & E3 & _).
      unfold try_except in E3. rewrite E2 in E3. congruence.
  - rewrite update_status_ok; [|apply Hst | intros w1; apply Hst].
    eexists. split; [done|]. rewrite sleeps_emit. f_equal.
    unfold sleeps, status_written. simpl. rewrite omap_app. simpl.
    apply app_nil_r.
Qed.

Lemma main_loop_completes (cfg : pydict) (i : Z) (w : World) :
  status_writable env →
  config_stable env w cfg →
  py_int lib (py_or (py_get cfg "check_interval_seconds") (JInt 300)) = Ok i →
  ∀ n w0,
    files w0 !! CONFIG_PATH = files w !! CONFIG_PATH →
    ∃ w', main_loop lib env n w0 = (Ok tt, w')
          ∧ sleeps w' = (sleeps w0 ++ replicate n (turn_sleep cfg i))%list.
Proof.
  intros Hst Hcfg Hi. induction n as [|n IH]; intros w0 Hw0; simpl.
  - exists w0. by rewrite app_nil_r.
  - pose proof (Hcfg w0 Hw0) as Hc.
    destruct (turn_completes w0 i Hst) as (w1 & E1 & Hs1); [by rewrite Hc|].
    destruct (IH w1) as (w2 & E2 & Hs2).
    { apply main_iteration_other_files in E1.
      by rewrite (config_file_kept _ _ E1). }
    exists w2. unfold mbind, se_bind. rewrite E1. split; [done|].
    by rewrite Hs2, Hs1, Hc, <- app_assoc.
Qed.

(** X8. When the status file can be written and the configuration file,
    which the service never writes, gives an interval that reads as a
    number, [main] never leaves its loop: after any number [n] of turns
    it is still running and has slept [n] times, each time for the
    interval clamped to 30..3600 seconds, or for 60 seconds when the
    configuration switches the service off. *)
Theorem main_keeps_running (cfg : pydict) (i : Z) (n : nat) (w : World) :
  status_writable env →
  config_stable env w cfg →
  py_int lib (py_or (py_get cfg "check_interval_seconds") (JInt 300)) = Ok i →
  ∃ w', main lib env n w = (Ok tt, w')
        ∧ sleeps w' = (sleeps w ++ replicate n (turn_sleep cfg i))%list.
Proof.
  intros Hst Hcfg Hi.
  unfold main, main_start, mbind at 1, se_bind at 1.
  unfold mbind, se_bind, se_modify, se_get.
  rewrite update_status_ok; [|apply Hst | intros w1; apply Hst].
  match goal with
  | |- context [main_loop lib env n ?w0] =>
      destruct (main_loop_completes cfg i w Hst Hcfg Hi n w0)
        as (w' & E & Hs)
  end.
  { unfold status_written. simpl.
    rewrite lookup_insert_ne by done. rewrite lookup_delete_ne by done.
    by rewrite lookup_insert_ne. }
  exists w'. split; [done|]. rewrite Hs. f_equal.
  unfold sleeps, status_written, log, emit. simpl.
  rewrite !omap_app. simpl. by rewrite !app_nil_r.
Qed.

(** A turn under a configuration without sources. *)
Lemma empty_cycle_turn (w : World) (cfg : pydict) (p : Params) (i : Z) :
  load_config env w = cfg →
  truthy (py_get_default cfg "enabled" (JBool true)) = true →
  py_int lib (py_or (py_get cfg "check_interval_seconds") (JInt 300)) = Ok i →
  read_params lib cfg = Ok p →
  py_iter (py_or (py_get cfg "sources") (JList [])) = Ok [] →
  status_writable env →
  ∃ w', main_iteration lib env w = (Ok tt, w')
        ∧ fetches w' = fetches w
        ∧ notifications w' = notifications w
        ∧ seen_log w' = seen_log w
        ∧ sleeps w' = (sleeps w ++ [Z.max 30 (Z.min i 3600)])%list
        ∧ ∃ st, files w' !! STATUS_PATH = Some (Holds (JDict st))
                ∧ dict_get st "ok" = Some (JBool true)
                ∧ dict_get st "checked_sources" = Some (JInt 0)
                ∧ dict_get st "hits" = Some (JInt 0).
Proof.
  intros Hcfg Hen Hi Hp Hs Hst.
  unfold main_iteration, mbind, se_bind, se_gets, se_get, se_lift, sleep,
    se_modify.
  rewrite Hcfg, Hen. change (negb true) with false. cbv iota beta.
  rewrite Hi.
  unfold try_except, call_run_once, run_once, mbind, se_bind, se_lift.
  rewrite Hp, Hs. unfold run_sources, for_each, mret, se_ret, finish.
  rewrite update_status_ok; [|apply Hst | intros w1; apply Hst].
  eexists. split; [reflexivity|].
  unfold fetches, notifications, sleeps, status_written, emit; simpl.
  rewrite !omap_app. simpl. rewrite !app_nil_r.
  repeat split; try done.
  eexists. split; [by rewrite lookup_insert_eq|].
  split; [|split]; rewrite ?dict_get_set_ne by done; apply dict_get_set_eq.
Qed.

(** X9. A turn of the loop when there is no configuration file and the
    status file can be written: the defaults are used, so the turn sends
    no request, tries no notification, leaves the seen-log alone, writes
    a status that says [ok] with no source checked and no hit, and
    sleeps 300 seconds. *)
Theorem turn_without_config (w : World) :
  files w !! CONFIG_PATH = None →
  status_writable env →
  ∃ w', main_iteration lib env w = (Ok tt, w')
        ∧ fetches w' = fetches w
        ∧ notifications w' = notifications w
        ∧ seen_log w' = seen_log w
        ∧ sleeps w' = (sleeps w ++ [300])%list
        ∧ ∃ st, files w' !! STATUS_PATH = Some (Holds (JDict st))
                ∧ dict_get st "ok" = Some (JBool true)
                ∧ dict_get st "checked_sources" = Some (JInt 0)
                ∧ dict_get st "hits" = Some (JInt 0).
Proof.
  intros Hno Hst.
  assert (Hcfg : load_config env w = default_config).
  { unfold load_config, path_exists. by rewrite Hno. }
  by apply (empty_cycle_turn w default_config
              {| timeout_s := 10; max_bytes := 2000000;
                 notif_title := default_notif_title; sound := None;
                 show_link := true |} 300).
Qed.

End Liveness.

(** X8, at a configuration with one feed, for two turns. *)
Lemma main_keeps_running_witness :
  let lib := Scenario.lib_with Scenario.nl_parse in
  let env := Scenario.env_with Scenario.nl_net Scenario.no_fault in
  ∃ w', main lib env 2 Scenario.one_feed_world = (Ok tt, w')
        ∧ sleeps w'
          = (sleeps Scenario.one_feed_world
             ++ replicate 2 (turn_sleep Scenario.one_feed_cfg 300))%list.
Proof.
  apply (main_keeps_running
           (Scenario.lib_with Scenario.nl_parse)
           (Scenario.env_with Scenario.nl_net Scenario.no_fault)
           Scenario.one_feed_cfg 300 2 Scenario.one_feed_world).
  - intros w. split; reflexivity.
  - intros w' H. unfold load_config, path_exists, safe_read_json.
    rewrite H. reflexivity.
  - reflexivity.
Defined.

(** X9, at the empty world. *)
Lemma turn_without_config_witness :
  let lib := Scenario.lib_with Scenario.nl_parse in
  let env := Scenario.env_with Scenario.nl_net Scenario.no_fault in
  let w := Scenario.empty_world in
  ∃ w', main_iteration lib env w = (Ok tt, w')
        ∧ fetches w' = fetches w
        ∧ notifications w' = notifications w
        ∧ seen_log w' = seen_log w
        ∧ sleeps w' = (sleeps w ++ [300])%list
        ∧ ∃ st, files w' !! STATUS_PATH = Some (Holds (JDict st))
                ∧ dict_get st "ok" = Some (JBool true)
                ∧ dict_get st "checked_sources" = Some (JInt 0)
                ∧ dict_get st "hits" = Some (JInt 0).
Proof.
  apply (turn_without_config
           (Scenario.lib_with Scenario.nl_parse)
           (Scenario.env_with Scenario.nl_net Scenario.no_fault)
           Scenario.empty_world).
  - reflexivity.
  - intros w. split; reflexivity.
Defined.

(* ================================================================= *)
(** ** Files and notifications *)

Lemma length_append (s t : string) :
  String.length (s +:+ t) = (String.length s + String.length t)%nat.
Proof. induction s as [|c s IH]; [done|]. rewrite append_cons. simpl. by rewrite IH. Qed.

Lemma tmp_path_ne (path : string) : tmp_path path ≠ path.
Proof.
  unfold tmp_path. intros H. apply (f_equal String.length) in H.
  rewrite length_append in H. simpl in H. lia.
Qed.

Section Files.

Variable env : Env.

(** X10. [write_json_atomic] that raises leaves the file at [path] as it
    was, and the seen-log too. When the write of the temporary file
    went through and the rename failed, the temporary file stays
    behind, holding the new data. *)
Theorem failed_write_keeps_file (path : string) (data : pydict)
    (w w' : World) (x : exn) :
  write_json_atomic env path data w = (Raise x, w') →
  files w' !! path = files w !! path
  ∧ seen_log w' = seen_log w
  ∧ (io_fault env w (OpWriteText (tmp_path path)) = None →
     files w' !! tmp_path path = Some (Holds (JDict data))).
Proof.
  unfold write_json_atomic. intros H.
  destruct (io_fault env w (OpWriteText (tmp_path path))) as [y|].
  { injection H as _ <-. by repeat split. }
  match type of H with
  | context [io_fault env ?w1 (OpReplace _ _)] =>
      destruct (io_fault env w1 (OpReplace (tmp_path path) path)) as [y|]
  end.
  - injection H as _ <-. simpl.
    rewrite lookup_insert_ne by apply tmp_path_ne.
    by rewrite lookup_insert_eq.
  - simpl in H. by rewrite lookup_insert_eq in H.
Qed.

(** X11. After a [write_json_atomic] that returns, the file at [path]
    holds the data, no temporary file is left, and [safe_read_json]
    reads the data back unless the read itself fails. *)
Theorem write_then_read (path : string) (data : pydict) (w w' : World) :
  write_json_atomic env path data w = (Ok tt, w') →
  files w' !! path = Some (Holds (JDict data))
  ∧ files w' !! tmp_path path = None
  ∧ (io_fault env w' (OpReadText path) = None →
     safe_read_json env w' path = data).
Proof.
  unfold write_json_atomic. intros H.
  destruct (io_fault env w (OpWriteText (tmp_path path))) as [y|]; [done|].
  match type of H with
  | context [io_fault env ?w1 (OpReplace _ _)] =>
      destruct (io_fault env w1 (OpReplace (tmp_path path) path)) as [y|]
  end; [done|].
  simpl in H. rewrite lookup_insert_eq in H. injection H as <-.
  unfold safe_read_json. simpl. rewrite lookup_insert_eq.
  split; [done|]. split.
  - rewrite lookup_insert_ne by (intros E; symmetry in E; by apply tmp_path_ne in E).
    apply lookup_delete_eq.
  - by intros ->.
Qed.

End Files.

(** X10, at a rename that fails. *)
Lemma failed_write_keeps_file_witness :
  let env := Scenario.env_with Scenario.two_feeds_net
               (fun _ op => match op with
                            | OpReplace _ _ =>
                                Some (Exn OSError "[Errno 13] Permission denied")
                            | _ => None
                            end) in
  let w := Scenario.empty_world in
  let w' := (write_json_atomic env STATUS_PATH [("ok", JBool true)] w).2 in
  files w' !! STATUS_PATH = files w !! STATUS_PATH
  ∧ seen_log w' = seen_log w
  ∧ (io_fault env w (OpWriteText (tmp_path STATUS_PATH)) = None →
     files w' !! tmp_path STATUS_PATH
     = Some (Holds (JDict [("ok", JBool true)]))).
Proof.
  apply (failed_write_keeps_file _ STATUS_PATH [("ok", JBool true)]
           Scenario.empty_world _
           (Exn OSError "[Errno 13] Permission denied")).
  vm_compute. reflexivity.
Defined.

(** X11, at a write without fault. *)
Lemma write_then_read_witness :
  let env := Scenario.env_with Scenario.two_feeds_net Scenario.no_fault in
  let w' := (write_json_atomic env STATUS_PATH [("ok", JBool true)]
               Scenario.empty_world).2 in
  files w' !! STATUS_PATH = Some (Holds (JDict [("ok", JBool true)]))
  ∧ files w' !! tmp_path STATUS_PATH = None
  ∧ (io_fault env w' (OpReadText STATUS_PATH) = None →
     safe_read_json env w' STATUS_PATH = [("ok", JBool true)]).
Proof.
  apply (write_then_read
           (Scenario.env_with Scenario.two_feeds_net Scenario.no_fault)
           STATUS_PATH [("ok", JBool true)] Scenario.empty_world).
  vm_compute. reflexivity.
Defined.

(* ================================================================= *)
(** ** The notification script *)

Lemma count_char_append (a : ascii) (s t : string) :
  count_char a (s +:+ t) = (count_char a s + count_char a t)%nat.
Proof.
  induction s as [|c s IH]; [done|]. rewrite append_cons. simpl.
  rewrite IH. lia.
Qed.

Lemma count_char_replaced (a b : ascii) (s : string) :
  a ≠ b → count_char a (PyStr.replace_char a b s) = 0%nat.
Proof.
  intros Hab. induction s as [|c s IH]; [done|]. simpl.
  destruct (Ascii.eqb c a) eqn:E; simpl.
  - rewrite IH. destruct (Ascii.eqb b a) eqn:E2; [|done].
    apply Ascii.eqb_eq in E2. congruence.
  - by rewrite E, IH.
Qed.

(** X12. The script [notify] hands to [osascript] holds exactly four
    double quotes, those that delimit the body and the title: no title
    and no body, whatever quotes they hold, can close a delimiter. *)
Theorem notify_script_quotes (ntitle body : string) :
  count_char double_quote (notify_script ntitle body) = 4%nat.
Proof.
  unfold notify_script. rewrite !count_char_append.
  rewrite !count_char_replaced by done. reflexivity.
Qed.

(* ================================================================= *)
(** ** The sanitiser *)

Lemma escape_other (c : ascii) (r : string) :
  Ascii.eqb c "&"%char = false →
  escape_stray_ampersands (String c r) = String c (escape_stray_ampersands r).
Proof. intros H. simpl. by rewrite H. Qed.

Lemma lstrip_escape (p : ascii → bool) (r : string) :
  p "&"%char = false → p ";"%char = false →
  closes_reference (Some (PyStr.lstrip_with p r)) = true →
  closes_reference (Some (PyStr.lstrip_with p (escape_stray_ampersands r)))
  = true.
Proof.
  intros Hp Hs. induction r as [|d r IH]; [done|].
  cbn [PyStr.lstrip_with]. destruct (p d) eqn:Ed.
  - intros H. rewrite escape_other.
    + cbn [PyStr.lstrip_with]. rewrite Ed. by apply IH.
    + destruct (Ascii.eqb_spec d "&"%char); [congruence | done].
  - cbn [closes_reference]. intros H. apply Ascii.eqb_eq in H. subst d.
    rewrite escape_other by done. cbn [PyStr.lstrip_with]. by rewrite Hs.
Qed.

Lemma after_run_escape (p : ascii → bool) (r : string) :
  p "&"%char = false → p ";"%char = false →
  closes_reference (after_run p r) = true →
  closes_reference (after_run p (escape_stray_ampersands r)) = true.
Proof.
  intros Hp Hs. destruct r as [|c r]; [done|].
  unfold after_run at 1. destruct (p c) eqn:Ec; [|done].
  intros H. rewrite escape_other.
  - unfold after_run. rewrite Ec. by apply lstrip_escape.
  - destruct (Ascii.eqb_spec c "&"%char); [congruence | done].
Qed.

(** A reference that follows an ampersand still follows it after the
    rest of the text was escaped. *)
Lemma reference_follows_escape (r : string) :
  reference_follows r = true →
  reference_follows (escape_stray_ampersands r) = true.
Proof.
  destruct r as [|c r1]; [done|]. unfold reference_follows at 1.
  destruct (Ascii.eqb c "#"%char) eqn:Ec.
  - apply Ascii.eqb_eq in Ec. subst c. rewrite escape_other by done.
    unfold reference_follows. change (Ascii.eqb "#" "#") with true. cbv iota.
    intros H. apply orb_true_iff in H as [H|H].
    + apply orb_true_iff. left. by apply after_run_escape.
    + apply orb_true_iff. right. destruct r1 as [|x r2]; [done|].
      apply andb_true_iff in H as [Hx H]. apply Ascii.eqb_eq in Hx. subst x.
      rewrite escape_other by done.
      apply andb_true_iff. split; [done|]. by apply after_run_escape.
  - intros H. apply andb_true_iff in H as [Ha H].
    rewrite escape_other.
    + unfold reference_follows. rewrite Ec, Ha. by apply after_run_escape.
    + destruct (Ascii.eqb_spec c "&"%char); [by subst | done].
Qed.

Lemma well_escaped_escape (s : string) :
  well_escaped (escape_stray_ampersands s) = true.
Proof.
  induction s as [|c s IH]; [done|]. cbn [escape_stray_ampersands].
  destruct (Ascii.eqb c "&"%char) eqn:Ec; simpl andb.
  - destruct (reference_follows s) eqn:Er; simpl negb; cbv iota.
    + cbn [well_escaped]. rewrite Ec, IH.
      by rewrite (reference_follows_escape _ Er).
    + change ("&amp;" +:+ escape_stray_ampersands s)
        with (String "&" (String "a" (String "m" (String "p" (String ";"
                (escape_stray_ampersands s)))))).
      cbn. exact IH.
  - cbn [well_escaped]. by rewrite Ec, IH.
Qed.

Lemma escape_well_escaped (s : string) :
  well_escaped s = true → escape_stray_ampersands s = s.
Proof.
  induction s as [|c s IH]; [done|]. cbn [well_escaped escape_stray_ampersands].
  intros H. apply andb_true_iff in H as [H1 H2].
  destruct (Ascii.eqb c "&"%char); simpl in H1.
  - rewrite H1. simpl. by rewrite IH.
  - simpl. by rewrite IH.
Qed.

(** X13. In the text [parse_feed] hands to the XML parser every
    ampersand starts a numeric or named reference, whatever the payload
    was; and the escaping that ensures it changes nothing when applied
    to its own result. *)
Theorem sanitized_ampersands (lib : Lib) (data : string) :
  well_escaped (sanitize lib data) = true
  ∧ escape_stray_ampersands (sanitize lib data) = sanitize lib data.
Proof.
  assert (H : well_escaped (sanitize lib data) = true)
    by apply well_escaped_escape.
  split; [done | by apply escape_well_escaped].
Qed.

Lemma plain_text_controls (s : string) :
  plain_text s = true → strip_controls s = s.
Proof.
  induction s as [|c s IH]; [done|]. simpl. intros H.
  apply andb_true_iff in H as [H H2]. apply andb_true_iff in H as [H0 H1].
  by rewrite H0, IH.
Qed.

Lemma plain_text_entities (lib : Lib) (s : string) :
  plain_text s = true → fix_entities lib None s = s.
Proof.
  induction s as [|c s IH]; [done|]. simpl. intros H.
  apply andb_true_iff in H as [H H2]. apply andb_true_iff in H as [H0 H1].
  apply negb_true_iff in H1. by rewrite H1, IH.
Qed.

Lemma plain_text_escape (s : string) :
  plain_text s = true → escape_stray_ampersands s = s.
Proof.
  induction s as [|c s IH]; [done|]. simpl. intros H.
  apply andb_true_iff in H as [H H2]. apply andb_true_iff in H as [H0 H1].
  apply negb_true_iff in H1. rewrite H1. simpl. by rewrite IH.
Qed.

(** X14. A payload whose decoded text holds no ampersand and no control
    character other than tab, line feed and carriage return reaches the
    XML parser unchanged. *)
Theorem sanitize_plain_text (lib : Lib) (data : string) :
  plain_text (utf8_decode lib data) = true →
  sanitize lib data = utf8_decode lib data.
Proof.
  intros H. unfold sanitize.
  by rewrite (plain_text_controls _ H), (plain_text_entities lib _ H),
    (plain_text_escape _ H).
Qed.

(** X14, at a small document. *)
Lemma sanitize_plain_text_witness :
  sanitize (Scenario.lib_with (fun _ => None)) "<rss><title>Strom</title></rss>"
  = utf8_decode (Scenario.lib_with (fun _ => None))
      "<rss><title>Strom</title></rss>".
Proof.
  apply (sanitize_plain_text (Scenario.lib_with (fun _ => None))
           "<rss><title>Strom</title></rss>").
  vm_compute. reflexivity.
Defined.

(* ================================================================= *)
(** ** The three branches of the feed parser *)

Lemma filter_all_kept {A} (P : A → Prop) `{∀ x, Decision (P x)} (l : list A) :
  Forall P l → filter P l = l.
Proof.
  induction 1 as [|x l Hx _ IH]; [done|].
  rewrite filter_cons, decide_True by done. by rewrite IH.
Qed.

Lemma filter_first {A} (P : A → Prop) `{∀ x, Decision (P x)} (l r : list A)
    (x : A) :
  filter P l = x :: r → x ∈ l ∧ P x.
Proof.
  intros E. assert (Hx : x ∈ filter P l) by (rewrite E; left).
  apply list_elem_of_filter in Hx. tauto.
Qed.

Lemma filter_none {A} (P : A → Prop) `{∀ x, Decision (P x)} (l : list A) :
  filter P l = [] → ∀ x, x ∈ l → ¬ P x.
Proof.
  intros E x Hx HP.
  assert (Hin : x ∈ filter P l) by (apply list_elem_of_filter; done).
  rewrite E in Hin. by apply elem_of_nil in Hin.
Qed.

Lemma atom_entry_title (src : string) (en : Element) :
  title (atom_entry src en) ≠ EmptyString.
Proof. by apply str_or_nonempty. Qed.

Lemma atom_entry_uid (src : string) (en : Element) :
  uid (atom_entry src en) ≠ EmptyString.
Proof. apply str_or_nonempty, str_or_nonempty, (atom_entry_title src en). Qed.

Lemma fallback_entry_title (lib : Lib) (src raw : string) :
  title (fallback_entry lib src raw) ≠ EmptyString.
Proof. by apply str_or_nonempty. Qed.

(** X15. Whatever the payload and whichever branch reads it (the item
    elements of the tree, its Atom entries, or the item blocks found by
    pattern when the strict parse fails), every entry [parse_feed]
    returns carries the name of the source it was asked for and a title
    that is not empty. *)
Theorem parse_feed_entries_titled (lib : Lib) (data src : string) :
  Forall (fun e => source e = src ∧ title e ≠ EmptyString)
         (parse_feed lib data src).
Proof.
  unfold parse_feed. destruct (xml_fromstring lib _) as [root|].
  - unfold parse_tree. destruct (rss_items root) as [|it its].
    + apply List.Forall_map, Forall_forall. intros en _.
      split; [done | apply atom_entry_title].
    + apply List.Forall_map, Forall_forall. intros en _.
      split; [done | apply rss_entry_title].
  - unfold parse_fallback. apply Forall_forall. intros e He.
    apply list_elem_of_filter in He as [_ He].
    apply list_elem_of_In, in_map_iff in He as (raw & <- & _).
    split; [done | apply fallback_entry_title].
Qed.

Lemma no_items_no_rss_items (root : Element) :
  item_elements root = [] → rss_items root = [].
Proof. intros H. rewrite rss_items_all; [done|]. left. by rewrite H. Qed.

(** X16. When the strict parse gives a tree without item elements,
    [parse_feed] returns one entry per Atom entry element, in document
    order, each with a title and a uid that are not empty; the link is
    the one [extract_link_atom] chooses, and the uid falls back from the
    id to the link and then to the title. *)
Theorem parse_feed_atom (lib : Lib) (data src : string) (root : Element) :
  xml_fromstring lib (sanitize lib data) = Some root →
  item_elements root = [] →
  parse_feed lib data src
  = map (atom_entry src) (Xml.findall_below root "{*}entry")
  ∧ Forall (fun e => title e ≠ EmptyString ∧ uid e ≠ EmptyString
                     ∧ source e = src)
           (parse_feed lib data src)
  ∧ ∀ i en, Xml.findall_below root "{*}entry" !! i = Some en →
      ∃ e, parse_feed lib data src !! i = Some e
           ∧ link e = extract_link_atom en
           ∧ uid e = str_or (find_first_text en ["{*}id"])
                            (str_or (link e) (title e)).
Proof.
  intros Hroot Hno. unfold parse_feed. rewrite Hroot. unfold parse_tree.
  rewrite (no_items_no_rss_items _ Hno).
  split; [done|]. split.
  - apply List.Forall_map, Forall_forall. intros en _.
    split; [apply atom_entry_title|]. split; [apply atom_entry_uid | done].
  - intros i en Hi. exists (atom_entry src en). split; [|done].
    change (map (atom_entry src)) with (fmap (M:=list) (atom_entry src)).
    by rewrite list_lookup_fmap, Hi.
Qed.

(** X17. When the strict parse fails, [parse_feed] returns one entry per
    item block found by pattern, up to 200 of them: the test on the
    title drops none, since a block without title gets the placeholder.
    Such an entry may have an empty uid: a block without guid, link and
    title gives one. *)
Theorem parse_feed_fallback (lib : Lib) (data src : string) :
  xml_fromstring lib (sanitize lib data) = None →
  parse_feed lib data src
  = map (fallback_entry lib src)
        (take 200 (re_item_blocks lib (sanitize lib data)))
  ∧ length (parse_feed lib data src)
    = (200 `min` length (re_item_blocks lib (sanitize lib data)))%nat
  ∧ ∀ raw, field_text lib raw "guid" = EmptyString →
           field_text lib raw "link" = EmptyString →
           field_text lib raw "title" = EmptyString →
           title (fallback_entry lib src raw) = "(no title)"
           ∧ uid (fallback_entry lib src raw) = EmptyString.
Proof.
  intros Hroot. unfold parse_feed. rewrite Hroot. unfold parse_fallback.
  rewrite filter_all_kept.
  2:{ apply List.Forall_map, Forall_forall. intros raw _.
      apply nonempty_true, fallback_entry_title. }
  split; [done|]. split.
  - by rewrite length_map, length_take.
  - intros raw Hg Hl Ht. unfold fallback_entry. simpl.
    by rewrite Hg, Hl, Ht.
Qed.

(* ================================================================= *)
(** ** Links and texts of an element *)

Lemma extract_link_atom_unfold (entry : Element) :
  extract_link_atom entry
  = match filter (fun el => alternate_link el = true)
                 (Xml.findall entry "{*}link") with
    | el :: _ => href_of el
    | [] =>
        match filter (fun el => PyStr.nonempty (href_of el) = true)
                     (Xml.findall entry "{*}link") with
        | el :: _ => href_of el
        | [] => EmptyString
        end
    end.
Proof. reflexivity. Qed.

(** X18. The link [extract_link_atom] returns for an Atom entry is the
    target of one of its link elements, or empty; it is empty only when
    no link element has a target; and when some link element with a
    target has the relation [alternate], or none, the link returned is
    the target of such an element, wherever the other links stand. *)
Theorem extract_link_atom_choice (entry : Element) :
  let links := Xml.findall entry "{*}link" in
  (extract_link_atom entry ≠ EmptyString →
   ∃ el, el ∈ links ∧ extract_link_atom entry = href_of el)
  ∧ (extract_link_atom entry = EmptyString →
     ∀ el, el ∈ links → href_of el = EmptyString)
  ∧ (∀ el, el ∈ links → alternate_link el = true →
     ∃ el', el' ∈ links ∧ alternate_link el' = true
            ∧ extract_link_atom entry = href_of el').
Proof.
  intros links. rewrite extract_link_atom_unfold. fold links.
  destruct (filter (fun el => alternate_link el = true) links)
    as [|a r] eqn:Ea.
  - destruct (filter (fun el => PyStr.nonempty (href_of el) = true) links)
      as [|b r'] eqn:Eb.
    + split; [done|]. split.
      * intros _ el Hel. pose proof (filter_none _ _ Eb el Hel) as Hn.
        simpl in Hn. by destruct (href_of el).
      * intros el Hel Hal. by destruct (filter_none _ _ Ea el Hel).
    + apply filter_first in Eb as [Hb Hb']. split; [by exists b|]. split.
      * intros E. by rewrite E in Hb'.
      * intros el Hel Hal. by destruct (filter_none _ _ Ea el Hel).
  - apply filter_first in Ea as [Ha Ha']. split; [by exists a|]. split.
    + intros E. unfold alternate_link in Ha'. by rewrite E in Ha'.
    + intros el Hel Hal. by exists a.
Qed.

(** [find_first_text] returns the text of the first of the tags
    whose first element under [parent] has a text that is not empty
    once stripped, and the empty string when no tag has one. *)
Lemma find_first_text_first (parent : Element) (tags : list string) :
  (find_first_text parent tags = EmptyString
   ∧ Forall (fun t => text_of (Xml.find parent t) = EmptyString) tags)
  ∨ (∃ before t after,
       tags = (before ++ t :: after)%list
       ∧ Forall (fun t' => text_of (Xml.find parent t') = EmptyString) before
       ∧ text_of (Xml.find parent t) ≠ EmptyString
       ∧ find_first_text parent tags = text_of (Xml.find parent t)).
Proof.
  induction tags as [|t tags IH]; simpl.
  - left. by split.
  - destruct (PyStr.nonempty (text_of (Xml.find parent t))) eqn:E.
    + right. exists [], t, tags. repeat split; [done|]. by apply nonempty_true.
    + assert (E0 : text_of (Xml.find parent t) = EmptyString)
        by (by destruct (text_of (Xml.find parent t))).
      destruct IH as [[H1 H2] | (before & t' & after & -> & H1 & H2 & H3)].
      * left. split; [done|]. by constructor.
      * right. exists (t :: before), t', after.
        repeat split; [by constructor | done | done].
Qed.

(** X16, at an Atom feed with one entry. *)
Lemma parse_feed_atom_witness :
  let ns := "{http://www.w3.org/2005/Atom}" in
  let doc := Elem (ns +:+ "feed") [] None
               [Elem (ns +:+ "title") [] (Some "Netz") [];
                Elem (ns +:+ "entry") [] None
                  [Elem (ns +:+ "title") [] (Some " Stromausfall Mitte ") [];
                   Elem (ns +:+ "link")
                     [("rel", "self"); ("href", "http://a/self")] None [];
                   Elem (ns +:+ "link")
                     [("rel", "Alternate"); ("href", "http://a/1")] None []]] in
  let lib := Scenario.lib_with (fun _ => Some doc) in
  map title (parse_feed lib "<feed/>" "a") = ["Stromausfall Mitte"]
  ∧ map link (parse_feed lib "<feed/>" "a") = ["http://a/1"]
  ∧ map uid (parse_feed lib "<feed/>" "a") = ["http://a/1"].
Proof.
  intros ns doc lib.
  destruct (parse_feed_atom lib "<feed/>" "a" doc) as (E & _).
  - reflexivity.
  - reflexivity.
  - rewrite E. repeat split; reflexivity.
Defined.

(** X17, at a payload the strict parser rejects, with two item blocks,
    the second one empty. *)
Lemma parse_feed_fallback_witness :
  let lib := {| py_repr := type_name;
                html_unescape := fun s => s;
                name2codepoint := fun _ => None;
                utf8_decode := fun s => s;
                xml_fromstring := fun _ => None;
                re_item_blocks := fun _ => ["<title>Stromausfall</title>"; EmptyString];
                re_tag_body := fun tag raw =>
                  if String.eqb tag "title" && PyStr.nonempty raw
                  then Some "Stromausfall" else None;
                re_anchors := fun _ => [];
                urljoin := fun _ u => Ok u |} in
  map title (parse_feed lib "<rss><item>" "b") = ["Stromausfall"; "(no title)"]
  ∧ map uid (parse_feed lib "<rss><item>" "b") = ["Stromausfall"; EmptyString].
Proof.
  intros lib.
  destruct (parse_feed_fallback lib "<rss><item>" "b") as (E & _).
  - reflexivity.
  - rewrite E. split; reflexivity.
Defined.

(* ================================================================= *)
(** ** Pages *)

Section Pages.

Variable lib : Lib.

Lemma html_links_loop_shape (src base_url : string)
    (anchors : list (string * string)) :
  ∀ out es,
    (length out < 80)%nat →
    Forall (html_entry_ok src base_url) out →
    html_links_loop lib src base_url anchors out = Ok es →
    (length es ≤ 80)%nat ∧ Forall (html_entry_ok src base_url) es.
Proof.
  induction anchors as [|[href label] rest IH]; intros out es Hlen Hout;
    cbn [html_links_loop]; cbv zeta.
  - intros H. injection H as <-. split; [lia | done].
  - destruct (negb _ || PyStr.startswith _ "#"); [by apply IH|].
    destruct (negb (_ || _ || PyStr.startswith _ "/")); [by apply IH|].
    destruct (if PyStr.startswith _ "/" then _ else _) as [h|x]; [|done].
    destruct (PyStr.contains base_url "berlin.de"
              && negb (PyStr.contains h "pressemitteilung.")) eqn:Eb;
      [by apply IH|].
    destruct (negb (PyStr.nonempty (anchor_title lib label))
              || (String.length (anchor_title lib label) <? 12)%nat) eqn:Et;
      [by apply IH|].
    assert (Hok : Forall (html_entry_ok src base_url)
                    (out ++ [{| source := src; title := anchor_title lib label;
                                link := h; uid := h; published := None |}])).
    { apply Forall_app. split; [done|]. constructor; [|done].
      unfold html_entry_ok. simpl. repeat split.
      - apply orb_false_iff in Et as [_ Et]. apply Nat.ltb_ge in Et. lia.
      - intros Hb. rewrite Hb in Eb. simpl in Eb.
        by apply negb_false_iff in Eb. }
    destruct (80 <=? length _)%nat eqn:E80.
    + intros H. injection H as <-. split; [|done].
      rewrite length_app. simpl. lia.
    + apply IH; [|done]. by apply Nat.leb_gt in E80.
Qed.

(** X19. When [parse_html_links] returns, it returns at most 80
    entries; each carries the name of the source, has its link as uid,
    no date, and a title of 12 characters or more; and when the address
    of the page holds [berlin.de], every link holds
    [pressemitteilung.]. *)
Theorem parse_html_links_shape (data src base_url : string)
    (es : list Entry) :
  parse_html_links lib data src base_url = Ok es →
  (length es ≤ 80)%nat ∧ Forall (html_entry_ok src base_url) es.
Proof.
  unfold parse_html_links. apply html_links_loop_shape; [simpl; lia | done].
Qed.

End Pages.

(** X19, at a page of the Berlin press office with three anchors. *)
Lemma parse_html_links_shape_witness :
  let lib := {| py_repr := type_name;
                html_unescape := fun s => s;
                name2codepoint := fun _ => None;
                utf8_decode := fun s => s;
                xml_fromstring := fun _ => None;
                re_item_blocks := fun _ => [];
                re_tag_body := fun _ _ => None;
                re_anchors := fun _ =>
                  [("/presse/pressemitteilung.1.php",
                    "<b>Stromausfall</b> in  Mitte");
                   ("/kontakt", "Kontakt zur Pressestelle");
                   ("#top", "Zum Seitenanfang springen")];
                urljoin := fun b u => Ok ("https://www.berlin.de" +:+ u) |} in
  ∃ es, parse_html_links lib "<html>" "berlin" "https://www.berlin.de/presse/"
        = Ok es
        ∧ map link es = ["https://www.berlin.de/presse/pressemitteilung.1.php"]
        ∧ map title es = ["Stromausfall in Mitte"]
        ∧ (length es ≤ 80)%nat
        ∧ Forall (html_entry_ok "berlin" "https://www.berlin.de/presse/") es.
Proof.
  intros lib. eexists. split; [reflexivity|].
  split; [reflexivity|]. split; [reflexivity|].
  apply (parse_html_links_shape lib "<html>"). reflexivity.
Defined.

Lemma startswith_contains (s p : string) :
  PyStr.startswith s p = true → PyStr.contains s p = true.
Proof. intros H. destruct s; simpl; by rewrite H. Qed.

(** X20. [looks_like_html] holds exactly when the first 600 bytes of the
    payload, leading white space dropped and letters lowered, start with
    a document type declaration for HTML or hold an opening [html] tag
    anywhere, be it inside a feed. *)
Theorem looks_like_html_iff (data : string) :
  let head := PyStr.lower_bytes
                (PyStr.lstrip_with PyStr.isspace_byte (PyStr.take 600 data)) in
  looks_like_html data
  = PyStr.startswith head "<!doctype html" || PyStr.contains head "<html".
Proof.
  intros head. unfold looks_like_html. fold head.
  destruct (PyStr.startswith head "<html") eqn:E.
  - rewrite (startswith_contains _ _ E). by rewrite !orb_true_r.
  - by rewrite orb_false_r.
Qed.

(* ================================================================= *)
(** ** Configurations of the wrong shape *)

Section Shapes.

Variable lib : Lib.
Variable env : Env.

Lemma chars_map (s : string) :
  chars s = map (fun c => JStr (String c EmptyString)) (list_ascii_of_string s).
Proof. induction s as [|c s IH]; [done|]. simpl. by rewrite IH. Qed.

(** X21. A keyword list given as a string, not as a list of strings, is
    read one character at a time: each character of the string is a
    keyword of its own. *)
Theorem string_keywords_by_character (d : pydict) (key s : string) :
  dict_get d key = Some (JStr s) →
  keyword_list lib (JDict d) key
  = Ok (map (fun c => PyStr.lower (String c EmptyString))
            (list_ascii_of_string s)).
Proof.
  intros H. unfold keyword_list, obj_get, py_get_default, py_or.
  rewrite H. simpl. destruct s as [|c s]; [done|]. simpl.
  rewrite chars_map, map_map. done.
Qed.

(** X22. A source that is not an object and does not count as false, a
    URL given as a string for one, ends the loop over the sources with
    an [AttributeError]: it is raised before the [try] of the loop, so
    the sources that follow are not requested. *)
Theorem malformed_source_ends_loop (cfg : pydict) (p : Params)
    (pre post : list json) (src : json) (f : Frame) :
  truthy src = true →
  (∀ d, src ≠ JDict d) →
  Forall well_formed_source pre →
  ∃ f', run_sources lib env cfg p (pre ++ src :: post) f
        = (Raise (no_attribute src "get"), f')
        ∧ fetches (world f') = (fetches (world f) ++ source_urls lib pre)%list.
Proof.
  intros Ht Hd Hpre. unfold run_sources. rewrite for_each_app.
  destruct (run_sources_locals lib env cfg p pre f Hpre) as (f1 & E & _).
  unfold run_sources in E. rewrite E. exists f1. split.
  - simpl. unfold mbind, se_bind, process_source, mbind, se_bind, se_lift,
      source_field, py_or. rewrite Ht.
    destruct src; try done. by destruct (Hd d).
  - by apply (run_sources_requests lib env cfg p pre f f1 (Ok tt)).
Qed.

End Shapes.

(** X21, at the keyword list [ab]. *)
Lemma string_keywords_by_character_witness :
  keyword_list (Scenario.lib_with (fun _ => None))
    (JDict [("locations", JStr "Ab")]) "locations"
  = Ok ["a"; "b"].
Proof.
  apply (string_keywords_by_character (Scenario.lib_with (fun _ => None))
           [("locations", JStr "Ab")] "locations" "Ab").
  reflexivity.
Defined.

(** X22, at a list of sources whose second one is a string. *)
Lemma malformed_source_ends_loop_witness :
  let lib := Scenario.lib_with Scenario.two_feeds_parse in
  let env := Scenario.env_with Scenario.two_feeds_net Scenario.no_fault in
  let p := {| timeout_s := 10; max_bytes := 2000000;
              notif_title := default_notif_title; sound := None;
              show_link := true |} in
  let f := enter Scenario.used_world {["old-1"]} in
  ∃ f', run_sources lib env Scenario.two_feeds_cfg p
          ([Scenario.source "a" "http://a.example/feed"]
           ++ JStr "http://b.example/feed"
           :: [Scenario.source "b" "http://b.example/feed"]) f
        = (Raise (no_attribute (JStr "http://b.example/feed") "get"), f')
        ∧ fetches (world f')
          = (fetches (world f)
             ++ source_urls lib [Scenario.source "a" "http://a.example/feed"])%list.
Proof.
  intros lib env p f.
  apply (malformed_source_ends_loop lib env Scenario.two_feeds_cfg p
           [Scenario.source "a" "http://a.example/feed"]
           [Scenario.source "b" "http://b.example/feed"]
           (JStr "http://b.example/feed") f).
  - reflexivity.
  - discriminate.
  - repeat constructor. by eexists.
Defined.

(* ================================================================= *)
(** ** The log file *)

Section LogRotation.

Variable resolve : string → string.
Variable os_dir : string.

Lemma layout_relocated (home : string) :
  PyStr.nonempty (PyStr.strip home) = true →
  LogFile.LOGS_DIR (LogFile.layout resolve home os_dir) = None.
Proof. intros H. unfold LogFile.layout. by rewrite H. Qed.

(** Reading the unbound name ends the rotation before it starts. *)
Lemma rotate_unbound (g : LogFile.Layout)
    (fault : LogFile.Fs → LogFile.log_op → bool) (fs : LogFile.Fs) :
  LogFile.LOGS_DIR g = None → LogFile.rotate_log_if_needed g fault fs = fs.
Proof.
  intros Hg. unfold LogFile.rotate_log_if_needed. rewrite Hg.
  destruct (fs !! LogFile.LOG_PATH g); [|done].
  destruct (fault fs LogFile.LogStat); [done|]. by destruct (_ >? _).
Qed.

(** X23. When [RESILIENCE_WATCHDOG_HOME] is set to more than white
    space, the setup leaves [LOGS_DIR] unbound, and
    [rotate_log_if_needed] changes nothing, whatever the size of the log
    and whatever the file system does; [log] then only ever appends to
    the log file. *)
Theorem relocated_log_never_rotated (home : string)
    (fault : LogFile.Fs → LogFile.log_op → bool) (fs : LogFile.Fs) :
  PyStr.nonempty (PyStr.strip home) = true →
  let g := LogFile.layout resolve home os_dir in
  LogFile.LOGS_DIR g = None
  ∧ LogFile.rotate_log_if_needed g fault fs = fs
  ∧ ∀ encode now msg c,
      fs !! LogFile.LOG_PATH g = Some c →
      fault fs LogFile.LogAppend = false →
      LogFile.log g fault encode now msg fs !! LogFile.LOG_PATH g
      = Some (c +:+ encode (LogFile.log_line now msg)).
Proof.
  intros Hhome g.
  pose proof (layout_relocated home Hhome) as Hg. fold g in Hg.
  split; [done|]. split; [by apply rotate_unbound|].
  intros encode now msg c Hc Hf. unfold LogFile.log.
  rewrite (rotate_unbound g fault fs Hg). cbv zeta. rewrite Hc. cbv beta iota.
  rewrite Hf, Hc. by rewrite lookup_insert_eq.
Qed.

Lemma join_ne (dir a b : string) :
  String.length a ≠ String.length b → LogFile.join dir a ≠ LogFile.join dir b.
Proof.
  unfold LogFile.join. intros Hl E. apply (f_equal String.length) in E.
  rewrite !length_append in E. simpl in E. lia.
Qed.

(** X24. When [RESILIENCE_WATCHDOG_HOME] is not set, or blank, and the
    file system does not fail, the log file after [log] holds at most
    [MAX_LOG_BYTES] bytes before the line just written: a log that had
    grown beyond was moved to the rotated file, in place of the one
    rotated before, and the new log starts with the line. *)
Theorem in_tree_log_rotates (home : string) (encode : string → string)
    (now msg : string) (fs : LogFile.Fs) :
  PyStr.nonempty (PyStr.strip home) = false →
  let g := LogFile.layout resolve home os_dir in
  let line := encode (LogFile.log_line now msg) in
  let fs' := LogFile.log g (fun _ _ => false) encode now msg fs in
  ∃ kept rotated,
    LogFile.LOGS_DIR g
    = Some (LogFile.join (LogFile.join os_dir "logs") "power_watchdog")
    ∧ rotated = LogFile.join (LogFile.join (LogFile.join os_dir "logs")
                                "power_watchdog") "power_watchdog.log.1"
    ∧ fs' !! LogFile.LOG_PATH g = Some (kept +:+ line)
    ∧ Z.of_nat (String.length kept) ≤ LogFile.MAX_LOG_BYTES
    ∧ ∀ c, fs !! LogFile.LOG_PATH g = Some c →
           (Z.of_nat (String.length c) ≤ LogFile.MAX_LOG_BYTES →
            kept = c ∧ fs' !! rotated = fs !! rotated)
           ∧ (Z.of_nat (String.length c) > LogFile.MAX_LOG_BYTES →
              kept = EmptyString ∧ fs' !! rotated = Some c).
Proof.
  intros Hhome g line fs'.
  set (logs_dir := LogFile.join (LogFile.join os_dir "logs") "power_watchdog").
  set (rotated := LogFile.join logs_dir "power_watchdog.log.1").
  assert (Hdir : LogFile.LOGS_DIR g = Some logs_dir).
  { unfold g, LogFile.layout. by rewrite Hhome. }
  assert (Hpath : LogFile.LOG_PATH g = LogFile.join logs_dir "power_watchdog.log").
  { unfold g, LogFile.layout. by rewrite Hhome. }
  assert (Hne : rotated ≠ LogFile.LOG_PATH g).
  { rewrite Hpath. by apply join_ne. }
  unfold fs', LogFile.log, LogFile.rotate_log_if_needed. rewrite Hdir.
  fold logs_dir. fold rotated.
  destruct (fs !! LogFile.LOG_PATH g) as [c|] eqn:Ec.
  - destruct (Z.of_nat (String.length c) >? LogFile.MAX_LOG_BYTES) eqn:Esize.
    + apply Z.gtb_lt in Esize.
      set (fs1 := match fs !! rotated with
                  | Some _ => Some (delete rotated fs)
                  | None => Some fs
                  end).
      assert (∃ fs0, fs1 = Some fs0 ∧ fs0 !! LogFile.LOG_PATH g = Some c)
        as (fs0 & E1 & E0).
      { unfold fs1. destruct (fs !! rotated).
        - eexists. split; [done|]. by rewrite lookup_delete_ne.
        - by eexists. }
      cbv zeta. fold fs1. rewrite E1. cbv beta iota. rewrite E0.
      rewrite lookup_insert_ne by done. rewrite lookup_delete_eq.
      exists EmptyString, rotated. cbv beta iota.
      rewrite !lookup_insert_eq.
      split_and!; try done.
      intros c' Hc'. injection Hc' as <-. split; [lia|]. intros _.
      split; [done|].
      rewrite !lookup_insert_ne by done. by rewrite lookup_insert_eq.
    + cbv beta iota. rewrite Ec. cbv beta iota. rewrite Ec.
      exists c, rotated. rewrite lookup_insert_eq.
      assert (Hsize : Z.of_nat (String.length c) ≤ LogFile.MAX_LOG_BYTES).
      { destruct (Z.gtb_spec (Z.of_nat (String.length c))
                    LogFile.MAX_LOG_BYTES); [done | lia]. }
      split_and!; try done.
      intros c' Hc'. injection Hc' as <-. split; [|lia]. intros _.
      split; [done|]. by rewrite lookup_insert_ne.
  - cbv beta iota. rewrite Ec. cbv beta iota.
    rewrite !lookup_insert_eq. exists EmptyString, rotated.
    split_and!; done.
Qed.

End LogRotation.

(** X23, at the runtime directory of a user. *)
Lemma relocated_log_never_rotated_witness :
  let home := "/Users/a/Library/Application Support/ResilienceOS/power_watchdog" in
  let g := LogFile.layout (fun p => p) home "/repo/OS" in
  let fs : LogFile.Fs := {[ LogFile.LOG_PATH g := "old" ]} in
  LogFile.LOGS_DIR g = None
  ∧ LogFile.rotate_log_if_needed g (fun _ _ => false) fs = fs.
Proof.
  intros home g fs.
  destruct (relocated_log_never_rotated (fun p => p) "/repo/OS" home
              (fun _ _ => false) fs) as (H1 & H2 & _).
  - reflexivity.
  - split; [exact H1 | exact H2].
Defined.

(** X24, at a log in the tree of the repository. *)
Lemma in_tree_log_rotates_witness :
  let g := LogFile.layout (fun p => p) EmptyString "/repo/OS" in
  let fs : LogFile.Fs := {[ LogFile.LOG_PATH g := "old" ]} in
  ∃ kept,
    LogFile.log g (fun _ _ => false) (fun s => s) "2024-01-01T00:00:00"
      "service starting" fs !! LogFile.LOG_PATH g
    = Some (kept +:+ LogFile.log_line "2024-01-01T00:00:00" "service starting")
    ∧ Z.of_nat (String.length kept) ≤ LogFile.MAX_LOG_BYTES.
Proof.
  intros g fs.
  destruct (in_tree_log_rotates (fun p => p) "/repo/OS" EmptyString
              (fun s => s) "2024-01-01T00:00:00" "service starting" fs)
    as (kept & rotated & _ & _ & E & Hk & _).
  - reflexivity.
  - exists kept. split; [exact E | exact Hk].
Defined.

(* ================================================================= *)
(** ** The controller *)

Lemma lstrip_keeps_ink (sp : ascii → bool) (c : ascii) (pre post : string) :
  sp c = false →
  ∃ pre', PyStr.lstrip_with sp (pre +:+ String c post) = pre' +:+ String c post.
Proof.
  intros Hc. induction pre as [|a pre IH].
  - exists EmptyString. rewrite !append_nil_l. simpl. by rewrite Hc.
  - rewrite append_cons. simpl. destruct (sp a); [done|].
    exists (String a pre). by rewrite append_cons.
Qed.

Lemma rstrip_keeps_ink (sp : ascii → bool) (c : ascii) (pre post : string) :
  sp c = false →
  PyStr.nonempty (PyStr.rstrip_with sp (pre +:+ String c post)) = true.
Proof.
  intros Hc. induction pre as [|a pre IH].
  - rewrite append_nil_l. simpl. destruct (PyStr.rstrip_with sp post); [|done].
    by rewrite Hc.
  - rewrite append_cons. simpl.
    by destruct (PyStr.rstrip_with sp (pre +:+ String c post)).
Qed.

(** A string with a character that is no white space is not blank. *)
Lemma strip_keeps_ink (c : ascii) (pre post : string) :
  PyStr.isspace c = false →
  PyStr.nonempty (PyStr.strip (pre +:+ String c post)) = true.
Proof.
  intros Hc. unfold PyStr.strip.
  destruct (lstrip_keeps_ink PyStr.isspace c pre post Hc) as [pre' ->].
  by apply rstrip_keeps_ink.
Qed.

Section Controller.

Variable m : Ctl.Machine.

Lemma runtime_home_not_blank :
  PyStr.nonempty (PyStr.strip (Ctl.RUNTIME_HOME m)) = true.
Proof.
  unfold Ctl.RUNTIME_HOME. unfold Ctl.join at 1.
  by apply strip_keeps_ink.
Qed.

Lemma run_keeps_files (cmd : list string) (h : Ctl.Host) :
  Ctl.installed (Ctl.run m cmd h).2 = Ctl.installed h
  ∧ Ctl.runtime_script (Ctl.run m cmd h).2 = Ctl.runtime_script h
  ∧ Ctl.runtime_config (Ctl.run m cmd h).2 = Ctl.runtime_config h
  ∧ Ctl.commands (Ctl.run m cmd h).2 = (Ctl.commands h ++ [cmd])%list.
Proof. unfold Ctl.run. by destruct (Ctl.exec m h cmd) as [[code out]|e]. Qed.


(** X25. [uninstall] removes the property list whatever [launchctl]
    answers to the unload, and reports success, provided the removal of
    the file does not fail; the copies of the service and of the
    configuration in the runtime directory stay where they are. The
    only command it may run is the unload. *)
Theorem uninstall_removes_plist (h : Ctl.Host) :
  (∀ h', Ctl.ctl_fault m h' Ctl.CtlUnlinkPlist = None) →
  Ctl.installed (Ctl.uninstall m h).2 = None
  ∧ dict_get (Ctl.uninstall m h).1 "ok" = Some (JBool true)
  ∧ Ctl.runtime_script (Ctl.uninstall m h).2 = Ctl.runtime_script h
  ∧ Ctl.runtime_config (Ctl.uninstall m h).2 = Ctl.runtime_config h
  ∧ (Ctl.commands (Ctl.uninstall m h).2 = Ctl.commands h
     ∨ Ctl.commands (Ctl.uninstall m h).2
       = (Ctl.commands h ++ [["launchctl"; "unload"; Ctl.INSTALLED m]])%list).
Proof.
  intros Hf. unfold Ctl.uninstall, Ctl.stop.
  destruct (Ctl.installed h) as [pl|] eqn:Ei.
  - pose proof (run_keeps_files ["launchctl"; "unload"; Ctl.INSTALLED m] h)
      as (H1 & H2 & H3 & H4).
    destruct (Ctl.run m _ h) as [[code out] h1]. simpl in *.
    rewrite H1, Ei, Hf. simpl. rewrite H2, H3, H4. split_and!; auto.
  - simpl. rewrite Ei. simpl. split_and!; auto.
Qed.


End Controller.

(** X25, at a host whose [launchctl] fails. *)
Lemma uninstall_removes_plist_witness :
  let m := {| Ctl.home := "/Users/a"; Ctl.root := "/repo";
              Ctl.exec := fun _ _ => Ok (1, "Could not find specified service");
              Ctl.ctl_fault := fun _ _ => None |} in
  let h := {| Ctl.service_src := Some "service"; Ctl.config_src := None;
              Ctl.runtime_script := Some "service";
              Ctl.runtime_config := Some (Holds (JDict Ctl.minimal_config));
              Ctl.installed := Some (Ctl.plist m); Ctl.commands := [] |} in
  Ctl.installed (Ctl.uninstall m h).2 = None
  ∧ dict_get (Ctl.uninstall m h).1 "ok" = Some (JBool true)
  ∧ dict_get (Ctl.stop m h).1 "ok" = Some (JBool false).
Proof.
  intros m h.
  destruct (uninstall_removes_plist m h) as (H1 & H2 & _).
  - reflexivity.
  - split; [exact H1|]. split; [exact H2 | reflexivity].
Defined.


(* ================================================================= *)
(** ** The service as the controller installs it *)

Section Installed.

Variable m : Ctl.Machine.

(** What a successful copy leaves in the runtime directory. *)
Lemma copy_runtime_ok (h h1 : Ctl.Host) :
  Ctl.copy_runtime m h = (Ok tt, h1) →
  Ctl.runtime_script h1 = Ctl.service_src h
  ∧ Ctl.runtime_config h1
    = Some (default (Holds (JDict Ctl.minimal_config)) (Ctl.config_src h)).
Proof.
  unfold Ctl.copy_runtime. intros Ec.
  destruct (Ctl.guarded m Ctl.CtlMkdirRuntime h) as [[]|?]; [|done].
  destruct (Ctl.guarded m Ctl.CtlReadService h) as [[]|?]; [|done].
  destruct (Ctl.service_src h) as [text|]; [|done].
  destruct (Ctl.guarded m Ctl.CtlWriteScript h) as [[]|?]; [|done].
  simpl in Ec. destruct (Ctl.config_src h) as [c|].
  - destruct (Ctl.guarded m Ctl.CtlReadConfig _) as [[]|?]; [|done].
    destruct (Ctl.guarded m Ctl.CtlWriteConfig _) as [[]|?]; [|done].
    by injection Ec as <-.
  - destruct (Ctl.guarded m Ctl.CtlWriteConfig _) as [[]|?]; [|done].
    by injection Ec as <-.
Qed.

(** What a successful [install] leaves on the host. *)
Lemma install_ok (h h' : Ctl.Host) (res : pydict) :
  Ctl.install m h = (Ok res, h') →
  truthy (py_get res "ok") = true →
  Ctl.installed h' = Some (Ctl.plist m)
  ∧ Ctl.runtime_script h' = Ctl.service_src h
  ∧ Ctl.runtime_config h'
    = Some (default (Holds (JDict Ctl.minimal_config)) (Ctl.config_src h)).
Proof.
  unfold Ctl.install. destruct (Ctl.service_src h) as [text|] eqn:Es.
  2:{ intros H. by injection H as <- <-. }
  destruct (Ctl.copy_runtime m h) as [[[]|exc] h1] eqn:Ec.
  2:{ intros H. by injection H as <- <-. }
  destruct (Ctl.guarded m Ctl.CtlMkdirAgents h1); [|done].
  destruct (Ctl.guarded m Ctl.CtlWritePlist h1); [|done].
  intros H _. injection H as <- <-. simpl.
  apply copy_runtime_ok in Ec as [E1 E2]. by rewrite E1, E2, Es.
Qed.

(** X27. A service installed by the controller never rotates its log.
    The property list a successful [install] writes runs the copy of the
    service with [RESILIENCE_WATCHDOG_HOME] set to the runtime
    directory, which is not blank; with that value the setup of the
    service leaves [LOGS_DIR] unbound, and [rotate_log_if_needed]
    changes nothing, whatever the size of the log. *)
Theorem installed_service_never_rotates (h h' : Ctl.Host) (res : pydict)
    (resolve : string → string) (os_dir : string)
    (fault : LogFile.Fs → LogFile.log_op → bool) (fs : LogFile.Fs) :
  Ctl.install m h = (Ok res, h') →
  truthy (py_get res "ok") = true →
  ∃ pl v,
    Ctl.installed h' = Some pl
    ∧ Ctl.program_arguments pl = ["/usr/bin/python3"; Ctl.RUNTIME_SCRIPT m]
    ∧ Ctl.runtime_script h' = Ctl.service_src h
    ∧ Ctl.environment_variables pl = [(Ctl.WATCHDOG_HOME_ENV, v)]
    ∧ LogFile.LOGS_DIR (LogFile.layout resolve v os_dir) = None
    ∧ LogFile.rotate_log_if_needed (LogFile.layout resolve v os_dir) fault fs
      = fs.
Proof.
  intros Hi Hok. destruct (install_ok h h' res Hi Hok) as (E1 & E2 & _).
  exists (Ctl.plist m), (Ctl.RUNTIME_HOME m).
  pose proof (layout_relocated resolve os_dir _ (runtime_home_not_blank m))
    as Hg.
  split_and!; try done. by apply rotate_unbound.
Qed.

(** X28. A service installed by the controller from a repository
    without configuration file polls nothing. [install] then writes a
    configuration that enables the service and lists no source; a turn
    of the loop of the service over that file, with a status file that
    can be written, sends no request, tries no notification, reports no
    source checked, and sleeps 300 seconds. *)
Theorem installed_defaults_poll_nothing (h h' : Ctl.Host) (res : pydict)
    (lib : Lib) (env : Env) (w : World) :
  Ctl.config_src h = None →
  Ctl.install m h = (Ok res, h') →
  truthy (py_get res "ok") = true →
  files w !! CONFIG_PATH = Ctl.runtime_config h' →
  io_fault env w (OpReadText CONFIG_PATH) = None →
  status_writable env →
  load_config env w = Ctl.minimal_config
  ∧ ∃ w', main_iteration lib env w = (Ok tt, w')
          ∧ fetches w' = fetches w
          ∧ notifications w' = notifications w
          ∧ seen_log w' = seen_log w
          ∧ sleeps w' = (sleeps w ++ [300])%list
          ∧ ∃ st, files w' !! STATUS_PATH = Some (Holds (JDict st))
                  ∧ dict_get st "ok" = Some (JBool true)
                  ∧ dict_get st "checked_sources" = Some (JInt 0)
                  ∧ dict_get st "hits" = Some (JInt 0).
Proof.
  intros Hno Hi Hok Hw Hr Hst.
  destruct (install_ok h h' res Hi Hok) as (_ & _ & E3).
  rewrite Hno in E3. simpl in E3. rewrite E3 in Hw.
  assert (Hcfg : load_config env w = Ctl.minimal_config).
  { unfold load_config, path_exists, safe_read_json. by rewrite Hw, Hr. }
  split; [done|].
  by apply (empty_cycle_turn lib env w Ctl.minimal_config
              {| timeout_s := 10; max_bytes := 2000000;
                 notif_title := default_notif_title; sound := None;
                 show_link := true |} 300).
Qed.

End Installed.

(* ================================================================= *)
(** ** The end of the log on the dashboard *)

Lemma drop_split (n : nat) (s : string) :
  s = PyStr.take n s +:+ Dashboard.drop n s.
Proof.
  revert s. induction n as [|n IH]; intros [|c s]; simpl; try done.
  rewrite append_cons. by rewrite <- IH.
Qed.

Lemma length_drop (n : nat) (s : string) :
  String.length (Dashboard.drop n s) = (String.length s - n)%nat.
Proof.
  revert s. induction n as [|n IH]; intros [|c s]; simpl; done.
Qed.

(** X29. For a positive bound, the bytes [safe_tail] decodes are the
    last bytes of the file, as many as the bound allows or the whole
    file when it is shorter. With the bound 0 they are not the empty
    tail: the slice then starts at the first byte, and the whole file
    is shown. *)
Theorem safe_tail_last_bytes (data : string) (max_bytes : Z) :
  0 < max_bytes →
  (∃ before, data = before +:+ Dashboard.tail_bytes data max_bytes)
  ∧ Z.of_nat (String.length (Dashboard.tail_bytes data max_bytes))
    = Z.min (Z.of_nat (String.length data)) max_bytes
  ∧ Dashboard.tail_bytes data 0 = data.
Proof.
  intros Hpos. unfold Dashboard.tail_bytes, Dashboard.slice_from.
  split_and!.
  - destruct (_ <=? max_bytes); [by exists EmptyString|].
    eexists. apply drop_split.
  - destruct (Z.leb_spec (Z.of_nat (String.length data)) max_bytes); [lia|].
    replace (- max_bytes <? 0) with true by (symmetry; apply Z.ltb_lt; lia).
    rewrite length_drop. lia.
  - destruct (Z.leb_spec (Z.of_nat (String.length data)) 0); [done|].
    simpl. replace (Z.to_nat _) with 0%nat by lia. done.
Qed.

(** X29, at a file of ten bytes with the bound 4. *)
Lemma safe_tail_last_bytes_witness :
  Dashboard.safe_tail (Scenario.lib_with (fun _ => None))
    (Some "0123456789") false 4 = "6789"
  ∧ Dashboard.safe_tail (Scenario.lib_with (fun _ => None))
      (Some "0123456789") false 0 = "0123456789"
  ∧ Z.of_nat (String.length (Dashboard.tail_bytes "0123456789" 4))
    = Z.min (Z.of_nat (String.length "0123456789")) 4.
Proof.
  destruct (safe_tail_last_bytes "0123456789" 4) as (_ & H & _).
  - reflexivity.
  - split; [reflexivity|]. split; [reflexivity | exact H].
Defined.

(** X27, at a host with the service in its repository. *)
Lemma installed_service_never_rotates_witness :
  let m := {| Ctl.home := "/Users/a"; Ctl.root := "/repo";
              Ctl.exec := fun _ _ => Ok (0, EmptyString);
              Ctl.ctl_fault := fun _ _ => None |} in
  let h := {| Ctl.service_src := Some "service"; Ctl.config_src := None;
              Ctl.runtime_script := None; Ctl.runtime_config := None;
              Ctl.installed := None; Ctl.commands := [] |} in
  let fs : LogFile.Fs :=
    {[ "/Users/a/Library/Application Support/ResilienceOS/power_watchdog/power_watchdog.log"
       := "old" ]} in
  ∃ pl v,
    Ctl.installed (Ctl.install m h).2 = Some pl
    ∧ Ctl.environment_variables pl = [(Ctl.WATCHDOG_HOME_ENV, v)]
    ∧ LogFile.rotate_log_if_needed
        (LogFile.layout (fun p => p) v "/repo/OS") (fun _ _ => false) fs
      = fs.
Proof.
  intros m h fs.
  destruct (installed_service_never_rotates m h (Ctl.install m h).2
              [("ok", JBool true); ("installed", JStr (Ctl.INSTALLED m));
               ("runtime_home", JStr (Ctl.RUNTIME_HOME m));
               ("runtime_script", JStr (Ctl.RUNTIME_SCRIPT m))]
              (fun p => p) "/repo/OS" (fun _ _ => false) fs)
    as (pl & v & H1 & _ & _ & H2 & _ & H3).
  - reflexivity.
  - reflexivity.
  - exists pl, v. split; [exact H1|]. split; [exact H2 | exact H3].
Defined.

(** X28, at the same host and a service that finds the file written. *)
Lemma installed_defaults_poll_nothing_witness :
  let m := {| Ctl.home := "/Users/a"; Ctl.root := "/repo";
              Ctl.exec := fun _ _ => Ok (0, EmptyString);
              Ctl.ctl_fault := fun _ _ => None |} in
  let h := {| Ctl.service_src := Some "service"; Ctl.config_src := None;
              Ctl.runtime_script := None; Ctl.runtime_config := None;
              Ctl.installed := None; Ctl.commands := [] |} in
  let lib := Scenario.lib_with Scenario.nl_parse in
  let env := Scenario.env_with Scenario.nl_net Scenario.no_fault in
  let w := {| files := {[ CONFIG_PATH := Holds (JDict Ctl.minimal_config) ]};
              seen_log := None; trace := [] |} in
  load_config env w = Ctl.minimal_config
  ∧ ∃ w', main_iteration lib env w = (Ok tt, w')
          ∧ fetches w' = fetches w
          ∧ notifications w' = notifications w
          ∧ seen_log w' = seen_log w
          ∧ sleeps w' = (sleeps w ++ [300])%list
          ∧ ∃ st, files w' !! STATUS_PATH = Some (Holds (JDict st))
                  ∧ dict_get st "ok" = Some (JBool true)
                  ∧ dict_get st "checked_sources" = Some (JInt 0)
                  ∧ dict_get st "hits" = Some (JInt 0).
Proof.
  intros m h lib env w.
  apply (installed_defaults_poll_nothing m h (Ctl.install m h).2
           [("ok", JBool true); ("installed", JStr (Ctl.INSTALLED m));
            ("runtime_home", JStr (Ctl.RUNTIME_HOME m));
            ("runtime_script", JStr (Ctl.RUNTIME_SCRIPT m))]
           lib env w).
  - reflexivity.
  - reflexivity.
  - reflexivity.
  - reflexivity.
  - reflexivity.
  - intros w0. split; reflexivity.
Defined.

(* ================================================================= *)
(** ** Alerts are not repeated *)

Section Dedup.

Variable lib : Lib.
Variable env : Env.
Hypothesis readable : ∀ w, io_fault env w OpReadSeen = None.

Lemma seen_lines_kept_same (w w' : World) :
  seen_log w' = seen_log w → seen_lines_kept env w w'.
Proof.
  intros H Hc. unfold log_text, load_seen. rewrite !readable, H.
  split; [exact Hc | done].
Qed.

(** The lines [load_seen] reads from a seen-log that ends with a line
    break are read at every later moment of the loop of [main]. *)
Lemma seen_lines_never_lost (n : nat) :
  keeps (seen_lines_kept env) (main_loop lib env n).
Proof.
  apply main_loop_keeps.
  - intros w Hc. by split.
  - intros w1 w2 w3 H1 H2 Hc. destruct (H1 Hc) as [Hc2 Hs2].
    destruct (H2 Hc2) as [Hc3 Hs3]. split; [done | set_solver].
  - intros w ev _. by apply seen_lines_kept_same.
  - intros w u Hc. split; [|by apply load_seen_grows].
    unfold append_seen, log_text.
    destruct (io_fault env w OpAppendSeen); [done|]. simpl.
    apply closed_text_append.
  - intros w kw r w' H. apply seen_lines_kept_same.
    by apply update_status_outcome in H as (? & _).
  - intros w s. by apply seen_lines_kept_same.
Qed.

End Dedup.

(** X30. An entry whose uid holds no line break, processed when nothing
    fails and the seen-log ends with a line break, is never alerted on
    again: at every later turn of the loop its uid is in the set
    [load_seen] returns, and processing the entry from that set does
    nothing, whatever the configuration has become. *)
Theorem seen_entry_stays_silent (lib : Lib) (env : Env) (cfg : pydict)
    (p : Params) (name : string) (e : Entry) (f : Frame) (b : bool) (n : nat) :
  (∀ w op, io_fault env w op = None) →
  PyStr.closed_text (log_text (world f)) = true →
  PyStr.line_free (uid e) = true →
  uid e ∉ seen f →
  match_ lib (title e) cfg = Ok b →
  ∃ f', process_entry lib env cfg p name e f = (Ok tt, f')
        ∧ let later := (main_loop lib env n (world f')).2 in
          uid e ∈ load_seen env later
          ∧ ∀ cfg' p' name',
              process_entry lib env cfg' p' name' e
                (enter later (load_seen env later))
              = (Ok tt, enter later (load_seen env later)).
Proof.
  intros Hnf Hc Hu Hnew Hm.
  destruct (entry_persisted env lib cfg p name e f b Hnf Hc Hu Hnew Hm)
    as (f' & E & _ & Hin & Hc').
  exists f'. split; [done|]. intros later.
  assert (Hlater : uid e ∈ load_seen env later).
  { unfold later.
    destruct (main_loop lib env n (world f')) as [r w2] eqn:E2.
    apply (seen_lines_never_lost lib env (fun w => Hnf w OpReadSeen)) in E2.
    destruct (E2 Hc') as [_ Hsub]. simpl. set_solver. }
  split; [done|]. intros cfg' p' name'. by apply process_entry_known.
Qed.

(** X30, at a matching entry and two later turns. *)
Lemma seen_entry_stays_silent_witness :
  let lib := Scenario.lib_with Scenario.two_items_parse in
  let env := Scenario.env_with Scenario.two_feeds_net Scenario.no_fault in
  let e := {| source := "b"; title := "Stromausfall Berlin Mitte";
              link := EmptyString; uid := "b-1"; published := None |} in
  let p := {| timeout_s := 10; max_bytes := 2000000;
              notif_title := default_notif_title; sound := None;
              show_link := true |} in
  let f := enter Scenario.one_feed_world {["old-1"]} in
  ∃ f', process_entry lib env Scenario.one_feed_cfg p "b" e f = (Ok tt, f')
        ∧ uid e ∈ load_seen env (main_loop lib env 2 (world f')).2.
Proof.
  intros lib env e p f.
  destruct (seen_entry_stays_silent lib env Scenario.one_feed_cfg p "b" e f
              true 2) as (f' & E & H & _).
  - reflexivity.
  - reflexivity.
  - reflexivity.
  - apply (bool_decide_eq_false_1 _). by vm_compute.
  - reflexivity.
  - exists f'. split; [exact E | exact H].
Defined.

(* ================================================================= *)
(** ** Two cycles side by side *)

Section Sim.

Context {S : Type} (R : S → S → Prop).

Lemma sim_ret {A} (a : A) : sim R (mret a : SE S A).
Proof. by intros s1 s2 H. Qed.

Lemma sim_lift {A} (x : result A) : sim R (se_lift x : SE S A).
Proof. by intros s1 s2 H. Qed.

Lemma sim_gets {A} (g : S → A) :
  (∀ s1 s2, R s1 s2 → g s1 = g s2) → sim R (se_gets g).
Proof. intros Hg s1 s2 H. split; [simpl; by rewrite (Hg s1 s2 H) | done]. Qed.

Lemma sim_modify (g : S → S) :
  (∀ s1 s2, R s1 s2 → R (g s1) (g s2)) → sim R (se_modify g).
Proof. intros Hg s1 s2 H. split; [done | by apply Hg]. Qed.

Lemma sim_bind {A B} (m : SE S A) (k : A → SE S B) :
  sim R m → (∀ a, sim R (k a)) → sim R (m ≫= k).
Proof.
  intros Hm Hk s1 s2 H. unfold mbind, se_bind.
  destruct (Hm s1 s2 H) as [E1 E2].
  destruct (m s1) as [[a1|e1] s1'], (m s2) as [[a2|e2] s2'];
    simpl in E1, E2; try discriminate.
  - injection E1 as ->. by apply Hk.
  - by injection E1 as ->.
Qed.

Lemma sim_try {A} (m : SE S A) (h : exn → SE S A) :
  sim R m → (∀ e, sim R (h e)) → sim R (try_except m h).
Proof.
  intros Hm Hh s1 s2 H. unfold try_except.
  destruct (Hm s1 s2 H) as [E1 E2].
  destruct (m s1) as [[a1|e1] s1'], (m s2) as [[a2|e2] s2'];
    simpl in E1, E2; try discriminate.
  - by injection E1 as ->.
  - injection E1 as ->. by apply Hh.
Qed.

Lemma sim_for_each {A} (body : A → SE S unit) (l : list A) :
  (∀ x, sim R (body x)) → sim R (for_each body l).
Proof.
  intros Hb. induction l as [|x l IH]; simpl.
  - apply sim_ret.
  - apply sim_bind; [apply Hb | intros _; apply IH].
Qed.

End Sim.

Section Alongside.

Variable lib : Lib.
Variable env : Env.
Hypothesis blind : trace_blind env.

Lemma same_store_emit (ev : event) (w1 w2 : World) :
  same_store w1 w2 → same_store (emit ev w1) (emit ev w2).
Proof.
  intros (Hf & Hl & Hn). split; [done|]. split; [done|].
  by rewrite !notifications_emit, Hn.
Qed.

Lemma sim_fetch (url : string) (t m : Z) : sim same_store (fetch env url t m).
Proof.
  intros w1 w2 H. pose proof H as (Hf & Hl & Hn).
  destruct (blind w1 w2 Hf Hl) as (_ & Hu & _).
  unfold fetch. rewrite <- Hu.
  destruct (urlopen env w1 url t) as [body|x].
  - destruct (_ >? _); (split; [done | by apply same_store_emit]).
  - split; [done | by apply same_store_emit].
Qed.

Lemma same_store_log (msg : string) (w1 w2 : World) :
  same_store w1 w2 → same_store (log env msg w1) (log env msg w2).
Proof.
  intros (Hf & Hl & Hn). split; [done|]. split; [done|].
  by rewrite !notifications_log.
Qed.

Lemma same_store_notify (t b : string) (s : option string) (w1 w2 : World) :
  same_store w1 w2 → same_store (notify env t b s w1) (notify env t b s w2).
Proof.
  intros (Hf & Hl & Hn). split; [by destruct s|]. split; [by destruct s|].
  by rewrite !notifications_notify, Hn.
Qed.

Lemma same_store_append (u : string) (w1 w2 : World) :
  same_store w1 w2 → same_store (append_seen env u w1) (append_seen env u w2).
Proof.
  intros (Hf & Hl & Hn). destruct (blind w1 w2 Hf Hl) as (_ & _ & Hio).
  split; [|split].
  - unfold append_seen. rewrite <- Hio.
    by destruct (io_fault env w1 OpAppendSeen).
  - unfold append_seen. rewrite <- Hio.
    destruct (io_fault env w1 OpAppendSeen); [done|]. simpl. by rewrite Hl.
  - by rewrite !notifications_append_seen.
Qed.

Lemma notifications_set_files (w : World) (fs : gmap string jfile) :
  notifications (set_files w fs) = notifications w.
Proof. reflexivity. Qed.

Lemma sim_update_status (kw : pydict) : sim same_store (update_status env kw).
Proof.
  intros w1 w2 H. pose proof H as (Hf & Hl & Hn).
  destruct (blind w1 w2 Hf Hl) as (_ & _ & Hio).
  unfold update_status, write_json_atomic, path_exists, safe_read_json.
  rewrite <- !Hio, <- !Hf.
  set (base := if match files w1 !! STATUS_PATH with
                  | Some _ => true
                  | None => false
                  end
               then match io_fault env w1 (OpReadText STATUS_PATH) with
                    | Some _ => []
                    | None =>
                        match files w1 !! STATUS_PATH with
                        | Some (Holds (JDict d)) => d
                        | _ => []
                        end
                    end
               else []).
  destruct (io_fault env w1 (OpWriteText (tmp_path STATUS_PATH))); [done|].
  set (data := dict_update base kw).
  set (v1 := emit (EvWriteText (tmp_path STATUS_PATH) data)
               (set_files w1 (<[tmp_path STATUS_PATH := Holds (JDict data)]>
                                (files w1)))).
  set (v2 := emit (EvWriteText (tmp_path STATUS_PATH) data)
               (set_files w2 (<[tmp_path STATUS_PATH := Holds (JDict data)]>
                                (files w1)))).
  assert (Hv : same_store v1 v2).
  { split; [done|]. split; [done|]. unfold v1, v2.
    by rewrite !notifications_emit, !notifications_set_files, Hn. }
  destruct (blind v1 v2 (proj1 Hv) (proj1 (proj2 Hv))) as (_ & _ & Hio').
  rewrite <- Hio'.
  destruct (io_fault env v1 (OpReplace _ _)); [done|].
  change (files v2) with (files v1).
  destruct (files v1 !! tmp_path STATUS_PATH); [|done].
  cbn [fst snd]. split; [done|]. split; [done|]. split; [done|].
  rewrite !notifications_emit, !notifications_set_files.
  destruct Hv as (_ & _ & Hv). by rewrite Hv.
Qed.

(** A status update whose fields hold the time of the clock. *)
Lemma sim_status_now (g : string → pydict) :
  sim same_store (w ← se_get; update_status env (g (now_iso env w))).
Proof.
  intros w1 w2 H. pose proof H as (Hf & Hl & Hn).
  destruct (blind w1 w2 Hf Hl) as (Hnow & _ & _).
  unfold mbind, se_bind, se_get. rewrite <- Hnow.
  by apply sim_update_status.
Qed.

Variable err : string.
Variable e0 : option string.

Lemma sim_in_world {A} (mw : SE World A) :
  sim same_store mw → sim (alongside err e0) (in_world mw).
Proof.
  intros Hw f1 f2 (Hs & H). unfold in_world.
  destruct (Hw (world f1) (world f2) Hs) as [E1 E2].
  destruct (mw (world f1)) as [r1 v1], (mw (world f2)) as [r2 v2].
  simpl in *. split; [done|]. by split.
Qed.

Lemma alongside_mark (u : string) (f1 f2 : Frame) :
  alongside err e0 f1 f2 →
  alongside err e0 (mark_seen env u f1) (mark_seen env u f2).
Proof.
  intros (Hs & Hseen & H). split; [by apply same_store_append|].
  simpl. split; [by rewrite Hseen | done].
Qed.

Lemma sim_prime_seen (entries : list Entry) :
  sim (alongside err e0) (prime_seen env entries).
Proof.
  apply sim_for_each. intros e. apply sim_modify. intros f1 f2 H.
  pose proof H as (_ & Hseen & _). rewrite Hseen.
  destruct (bool_decide _); [done | by apply alongside_mark].
Qed.

Lemma sim_handle_hit (p : Params) (name : string) (e : Entry) :
  sim (alongside err e0) (handle_hit env p name e).
Proof.
  unfold handle_hit.
  apply sim_bind; [|intros _].
  { apply sim_modify. intros f1 f2 (Hs & Hseen & Hh & H).
    split; [done|]. split; [done|]. simpl. split; [by rewrite Hh | done]. }
  apply sim_bind; [|intros _].
  { apply sim_in_world, sim_modify. intros w1 w2. apply same_store_log. }
  apply sim_bind; [|intros _].
  { apply sim_in_world, sim_modify. intros w1 w2. apply same_store_notify. }
  apply sim_in_world.
  apply (sim_status_now
           (fun now => [("last_hit_at", JStr now);
                        ("last_hit_title", JStr (title e));
                        ("last_hit_link", JStr (link e));
                        ("last_hit_source", JStr name)])).
Qed.

Lemma sim_process_entry (cfg : pydict) (p : Params) (name : string)
    (e : Entry) :
  sim (alongside err e0) (process_entry lib env cfg p name e).
Proof.
  unfold process_entry.
  apply sim_bind; [|intros known].
  { apply sim_gets. intros f1 f2 (_ & Hseen & _). by rewrite Hseen. }
  destruct known; [apply sim_ret|].
  apply sim_bind; [apply sim_lift | intros m].
  apply sim_bind; [|intros _].
  { destruct m; [apply sim_handle_hit | apply sim_ret]. }
  apply sim_modify. intros f1 f2. apply alongside_mark.
Qed.

Lemma sim_source_body (cfg : pydict) (p : Params) (name url : string) :
  sim (alongside err e0) (source_body lib env cfg p name url).
Proof.
  unfold source_body.
  apply sim_bind; [apply sim_in_world, sim_fetch | intros data].
  apply sim_bind; [|intros entries].
  { destruct (looks_like_html data); [apply sim_lift | apply sim_ret]. }
  apply sim_bind; [|intros _].
  { apply sim_modify. intros f1 f2 (Hs & Hseen & Hh & Hl & H).
    split; [done|]. split; [done|]. split; [done|]. simpl.
    split; [by rewrite Hl | done]. }
  apply sim_bind; [|intros fresh].
  { apply sim_gets. intros f1 f2 (_ & Hseen & _). by rewrite Hseen. }
  destruct (fresh && _).
  - apply sim_bind; [apply sim_prime_seen | intros _].
    apply sim_in_world, sim_modify. intros w1 w2. apply same_store_log.
  - apply sim_for_each. intros e. apply sim_process_entry.
Qed.

Lemma sim_process_source (cfg : pydict) (p : Params) (src : json) :
  sim (alongside err e0) (process_source lib env cfg p src).
Proof.
  unfold process_source.
  apply sim_bind; [apply sim_lift | intros name].
  apply sim_bind; [apply sim_lift | intros url].
  destruct (negb _); [apply sim_ret|].
  apply sim_bind; [|intros _].
  { apply sim_modify. intros f1 f2 (Hs & Hseen & Hh & Hl & Hc & H).
    split; [done|]. split; [done|]. split; [done|]. split; [done|]. simpl.
    split; [lia | done]. }
  apply sim_try; [apply sim_source_body | intros x].
  unfold source_failed.
  apply sim_bind; [|intros _].
  { apply sim_modify. intros f1 f2 (Hs & Hseen & Hh & Hl & Hc & H).
    split; [done|]. split; [done|]. split; [done|]. split; [done|].
    split; [done|]. by left. }
  apply sim_in_world, sim_modify. intros w1 w2. apply same_store_log.
Qed.

(** The loop over the sources runs the same way beside itself. *)
Lemma sim_run_sources (cfg : pydict) (p : Params) (srcs : list json) :
  sim (alongside err e0) (run_sources lib env cfg p srcs).
Proof. apply sim_for_each. intros src. apply sim_process_source. Qed.

End Alongside.

(* ================================================================= *)
(** ** A feed beyond the byte cap *)

Section Oversized.

Variable lib : Lib.
Variable env : Env.

(** C5. A source whose body is longer than the byte cap [max_bytes p]
    that [run_once] has read from [max_feed_bytes]: [fetch] raises
    [feed_too_large]; the turn of the loop for that source ends normally,
    having counted the source and recorded the error in [last_error],
    with no file, no seen uid, no hit and no notification changed; the
    loop goes on with the sources that follow, from that frame; when
    these are objects the loop ends normally, the source is in the count
    of checked sources, an error is still recorded, and the cycle ends
    with the aggregate status update of [finish]. The cap is the
    configured [max_feed_bytes] converted by [int], and 2000000 when
    that value is absent or counts as false.

    When the status file can be written, [run_once] returns the number
    of sources checked, the failed one among them, with the number of
    hits, and the status file then holds both, with the error recorded
    last under [last_error].

    The sources that follow are processed as they are in a cycle
    without the failed source: when the environment does not look at
    the trace, the loop over them ends, from the frame the failed source
    leaves, as it ends from the frame before it, with the same files,
    seen-log, notifications, seen set, hits and latest items; only the
    count of checked sources is one more, and [last_error] is the error
    of the failed source where no later source has failed. *)
Theorem oversized_feed_isolated (cfg : pydict) (p : Params) (src : json)
    (post : list json) (name url body : string) (f : Frame) :
  source_field lib src "name" "source" = Ok name →
  source_field lib src "url" "" = Ok url →
  url ≠ EmptyString →
  urlopen env (world f) url (timeout_s p) = Ok body →
  Z.of_nat (String.length body) > max_bytes p →
  Forall well_formed_source post →
  let err := name +:+ ": feed_too_large" in
  let w' := log env ("warn: " +:+ err)
              (emit (EvFetch url (timeout_s p)) (world f)) in
  let f' := {| world := w'; seen := seen f; hits := hits f;
               checked := checked f + 1; last_error := Some err;
               latest_items := latest_items f |} in
  fst (fetch env url (timeout_s p) (max_bytes p) (world f))
  = Raise (Exn ValueError "feed_too_large")
  ∧ process_source lib env cfg p src f = (Ok tt, f')
  ∧ files w' = files (world f)
  ∧ seen_log w' = seen_log (world f)
  ∧ notifications w' = notifications (world f)
  ∧ run_sources lib env cfg p (src :: post) f
    = run_sources lib env cfg p post f'
  ∧ ∃ f2,
      run_sources lib env cfg p post f' = (Ok tt, f2)
      ∧ checked f2 = checked f + 1 + count_urls lib post
      ∧ is_Some (last_error f2)
      ∧ (post = [] → last_error f2 = Some err)
      ∧ dict_get (final_status env f2) "checked_sources"
        = Some (JInt (checked f2))
      ∧ dict_get (final_status env f2) "last_error"
        = Some (opt_json (last_error f2))
      ∧ (read_params lib cfg = Ok p →
         py_int lib (py_or (py_get cfg "max_feed_bytes") (JInt 2000000))
         = Ok (max_bytes p))
      ∧ (∀ pre w s,
           read_params lib cfg = Ok p →
           py_iter (py_or (py_get cfg "sources") (JList []))
           = Ok (pre ++ src :: post)%list →
           run_sources lib env cfg p pre (enter w s) = (Ok tt, f) →
           run_once lib env cfg (enter w s) = finish env f2
           ∧ (status_writable env →
              ∃ f3 st,
                run_once lib env cfg (enter w s)
                = (Ok (checked f + 1 + count_urls lib post, hits f2), f3)
                ∧ seen f3 = seen f2
                ∧ last_error f3 = last_error f2
                ∧ notifications (world f3) = notifications (world f2)
                ∧ files (world f3) !! STATUS_PATH = Some (Holds (JDict st))
                ∧ dict_get st "ok" = Some (JBool true)
                ∧ dict_get st "checked_sources"
                  = Some (JInt (checked f + 1 + count_urls lib post))
                ∧ dict_get st "hits" = Some (JInt (hits f2))
                ∧ dict_get st "last_error"
                  = Some (opt_json (last_error f2))))
      ∧ (trace_blind env →
         ∃ g2, run_sources lib env cfg p post f = (Ok tt, g2)
               ∧ alongside err (last_error f) f2 g2).
Proof.
  intros Hname Hurl Hne Hopen Hbig Hpost err w' f'.
  assert (Hfetch : fetch env url (timeout_s p) (max_bytes p) (world f)
                   = (Raise (Exn ValueError "feed_too_large"),
                      emit (EvFetch url (timeout_s p)) (world f))).
  { unfold fetch. rewrite Hopen.
    by rewrite (proj2 (Z.gtb_gt _ _) Hbig). }
  assert (Hsrc : process_source lib env cfg p src f = (Ok tt, f')).
  { unfold process_source, mbind, se_bind, se_lift. rewrite Hname, Hurl.
    rewrite (proj2 (nonempty_true url) Hne). simpl.
    unfold try_except, source_body, mbind, se_bind, in_world. simpl.
    by rewrite Hfetch. }
  assert (Hnot : notifications w' = notifications (world f)).
  { unfold w'. by rewrite notifications_log, notifications_emit, app_nil_r. }
  split; [by rewrite Hfetch|]. split; [exact Hsrc|].
  split; [done|]. split; [done|]. split; [exact Hnot|].
  assert (Hstep : run_sources lib env cfg p (src :: post) f
                  = run_sources lib env cfg p post f').
  { unfold run_sources. simpl. unfold mbind, se_bind. by rewrite Hsrc. }
  split; [exact Hstep|].
  destruct (run_sources_locals lib env cfg p post f' Hpost)
    as (f2 & Hrun & Hcount & Herr).
  assert (Hc2 : checked f2 = checked f + 1 + count_urls lib post)
    by (simpl in Hcount; lia).
  exists f2. split; [exact Hrun|]. split; [exact Hc2|].
  split; [apply Herr; by eexists|].
  split; [intros ->; by injection Hrun as <-|].
  split; [done|]. split; [done|].
  split; [by apply read_params_max_bytes|].
  split.
  - intros pre w s Hp Hsrcs Hpre.
    assert (Hcycle : run_once lib env cfg (enter w s) = finish env f2).
    { unfold run_once, mbind, se_bind, se_lift. rewrite Hp, Hsrcs.
      change (for_each (process_source lib env cfg p) (pre ++ src :: post)
                (enter w s))
        with (run_sources lib env cfg p (pre ++ src :: post) (enter w s)).
      unfold run_sources at 1. rewrite for_each_app.
      change (for_each (process_source lib env cfg p) pre (enter w s))
        with (run_sources lib env cfg p pre (enter w s)).
      rewrite Hpre.
      change (for_each (process_source lib env cfg p) (src :: post) f)
        with (run_sources lib env cfg p (src :: post) f).
      by rewrite Hstep, Hrun. }
    split; [exact Hcycle|]. intros Hst. rewrite Hcycle. unfold finish.
    rewrite update_status_ok; [|apply Hst | intros w1; apply Hst].
    rewrite Hc2. eexists.
    exists (dict_update (previous_status env (world f2)) (final_status env f2)).
    split; [done|]. split; [done|]. split; [done|].
    split; [apply notifications_status_written|].
    split; [unfold status_written; simpl; by rewrite lookup_insert_eq|].
    assert (Hnd : NoDup (final_status env f2).*1).
    { apply (bool_decide_eq_true_1 _). by vm_compute. }
    split_and!; apply dict_update_new; try done.
    simpl. by rewrite Hc2.
  - intros Hblind.
    assert (Hside : alongside err (last_error f) f' f).
    { split; [by split|]. split; [done|]. split; [done|]. split; [done|].
      split; [done|]. by right. }
    destruct (sim_run_sources lib env Hblind err (last_error f) cfg p post
                f' f Hside) as [E1 E2].
    rewrite Hrun in E1, E2. simpl in E1, E2.
    destruct (run_sources lib env cfg p post f) as [r g2]. simpl in E1, E2.
    subst r. by exists g2.
Qed.

End Oversized.

(** C5, at a cycle over two feeds with a cap of 12 bytes: the first
    feed sends 28 bytes and fails, the second sends 12 and its item is
    a hit. The cycle returns two sources checked and one hit; the item
    of the second feed is notified and seen; the status file holds the
    two numbers and the error of the first feed. *)
Lemma oversized_feed_isolated_witness :
  let lib := Scenario.lib_with Scenario.two_feeds_parse in
  let env := Scenario.env_with Scenario.long_feed_net Scenario.no_fault in
  let cfg := Scenario.capped_cfg in
  let r := run_once lib env cfg (enter Scenario.used_world {["old-1"]}) in
  read_params lib cfg
  = Ok {| timeout_s := 10; max_bytes := 12;
          notif_title := default_notif_title; sound := None;
          show_link := true |}
  ∧ r.1 = Ok (2, 1)
  ∧ last_error r.2 = Some "a: feed_too_large"
  ∧ notifications (world r.2)
    = [notify_script default_notif_title "Stromausfall Berlin Mitte"]
  ∧ seen r.2 = {["b-1"; "old-1"]}
  ∧ (∃ st, files (world r.2) !! STATUS_PATH = Some (Holds (JDict st))
           ∧ dict_get st "ok" = Some (JBool true)
           ∧ dict_get st "checked_sources" = Some (JInt 2)
           ∧ dict_get st "hits" = Some (JInt 1)
           ∧ dict_get st "last_error" = Some (JStr "a: feed_too_large"))
  ∧ ∃ g2, run_sources lib env cfg
            {| timeout_s := 10; max_bytes := 12;
               notif_title := default_notif_title; sound := None;
               show_link := true |}
            [Scenario.source "b" "http://b.example/feed"]
            (enter Scenario.used_world {["old-1"]}) = (Ok tt, g2)
          ∧ checked g2 = 1
          ∧ hits g2 = 1
          ∧ last_error g2 = None
          ∧ seen g2 = seen r.2
          ∧ notifications (world g2) = notifications (world r.2).
Proof.
  intros lib env cfg r.
  set (p := {| timeout_s := 10; max_bytes := 12;
               notif_title := default_notif_title; sound := None;
               show_link := true |}).
  set (f := enter Scenario.used_world {["old-1"]}).
  destruct (oversized_feed_isolated lib env cfg p
              (Scenario.source "a" "http://a.example/feed")
              [Scenario.source "b" "http://b.example/feed"]
              "a" "http://a.example/feed" Scenario.long_feed f)
    as (_ & _ & _ & _ & _ & _ & f2 & Hrun & _ & _ & _ & _ & _ & _
        & Hcycle & Hside).
  - reflexivity.
  - reflexivity.
  - discriminate.
  - reflexivity.
  - reflexivity.
  - constructor; [|constructor]. by eexists.
  - assert (Hh2 : hits f2 = 1).
    { apply (f_equal (fun x => hits x.2)) in Hrun. by vm_compute in Hrun. }
    assert (He2 : last_error f2 = Some "a: feed_too_large").
    { apply (f_equal (fun x => last_error x.2)) in Hrun.
      by vm_compute in Hrun. }
    assert (Hn2 : notifications (world f2)
                  = [notify_script default_notif_title
                       "Stromausfall Berlin Mitte"]).
    { apply (f_equal (fun x => notifications (world x.2))) in Hrun.
      by vm_compute in Hrun. }
    assert (Hs2 : seen f2 = {["b-1"; "old-1"]}).
    { apply (f_equal (fun x => seen x.2)) in Hrun. by vm_compute in Hrun. }
    destruct (Hcycle [] Scenario.used_world {["old-1"]}) as [_ Hstatus];
      [reflexivity | reflexivity | reflexivity |].
    destruct Hstatus as (f3 & st & Er & Hseen & Hle & Hnot & Hfile & Hok
                         & Hck & Hhits & Herr).
    { intros w. split; reflexivity. }
    destruct Hside as (g2 & Eg & Hs & Hseen' & Hh & _ & Hc & _).
    { intros w1 w2 _ _. by split_and!. }
    assert (Hcg : checked g2 = 1).
    { apply (f_equal (fun x => checked x.2)) in Eg. by vm_compute in Eg. }
    assert (Heg : last_error g2 = None).
    { apply (f_equal (fun x => last_error x.2)) in Eg. by vm_compute in Eg. }
    subst r f. cbv zeta. rewrite Er. cbn [fst snd].
    split; [reflexivity|].
    split; [by rewrite Hh2|].
    split; [by rewrite Hle|].
    split; [by rewrite Hnot|].
    split; [by rewrite Hseen|].
    split.
    { exists st. split; [exact Hfile|]. split; [exact Hok|].
      split; [exact Hck|]. split; [by rewrite Hhits, Hh2|].
      by rewrite Herr, He2. }
    exists g2. split; [exact Eg|].
    split; [exact Hcg|]. split; [by rewrite <- Hh|].
    split; [exact Heg|].
    split; [by rewrite Hseen, Hseen'|].
    destruct Hs as (_ & _ & Hn). by rewrite Hnot, Hn.
Defined.

(* ================================================================= *)
(** ** Documents that reach the parser as they are *)








Section Entities.

Variable lib : Lib.





End Entities.

(* ================================================================= *)
(** ** The entry made from an item *)













(** An element named item of another vocabulary next to the items of
    RSS is left out: the search without namespace comes first, and the
    search in any namespace is made only when the first finds nothing. *)
Lemma mixed_items_plain_only :
  let lib := Scenario.lib_with
               (Scenario.reads_as Scenario.mixed_feed Scenario.mixed_tree) in
  xml_fromstring lib (sanitize lib Scenario.mixed_feed)
  = Some Scenario.mixed_tree
  ∧ length (item_elements Scenario.mixed_tree) = 2%nat
  ∧ map uid (parse_feed lib Scenario.mixed_feed "b") = ["m-1"].
Proof. intros lib. split_and!; reflexivity. Qed.
